(** * A 16S LiFePO4 battery-pack simulator: cell model, pack model, AFE wrapper

    This development embeds the simulation core of the PC simulator
    ([plant/cell_model.py], [plant/pack_model.py], [afe/wrapper.py]) and
    proves properties of it.

    Numbers.  Python floats and numpy float64 values are idealised as real
    numbers ([R]): rounding error, infinities and NaN are outside the model.
    Python integers (cycle counts, bit masks, the status word) are [Z], with
    [&], [|], [~] and [<<] as [Z.land], [Z.lor], [Z.lnot] and [Z.shiftl].
    numpy int16 values are integers reduced to the 16-bit signed range. *)

From Stdlib Require Import String Ascii.
From Stdlib Require Import Reals Lra Lia ZArith Bool List.
Import ListNotations.
Open Scope R_scope.

(** ** Numeric primitives shared by the three components *)

(** [np.clip(x, lo, hi)] is [minimum(maximum(x, lo), hi)]. *)
Definition np_clip (x lo hi : R) : R := Rmin (Rmax x lo) hi.

(** [np.interp(x, xp, fp)] on a table of points [(xp, fp)] with increasing
    abscissae: the first ordinate left of the table, the last one right of
    it, and on the segment with [xp_j <= x < xp_(j+1)] the value
    [slope * (x - xp_j) + fp_j]. *)
Fixpoint np_interp_from (x x0 y0 : R) (pts : list (R * R)) : R :=
  match pts with
  | [] => y0
  | (x1, y1) :: rest =>
      if Rlt_dec x x1 then (y1 - y0) / (x1 - x0) * (x - x0) + y0
      else np_interp_from x x1 y1 rest
  end.

Definition np_interp (x : R) (pts : list (R * R)) : R :=
  match pts with
  | [] => 0
  | (x0, y0) :: rest => if Rle_dec x x0 then y0 else np_interp_from x x0 y0 rest
  end.

(** [np.sum] of a vector. *)
Definition np_sum (l : list R) : R := fold_right Rplus 0 l.

(** [np.min], [np.max], [np.mean] and [np.std] of a vector.  (On an empty
    vector numpy raises or returns nan; the vectors below hold one entry per
    cell, and here the result is then 0.) *)
Definition np_min (l : list R) : R :=
  match l with
  | [] => 0
  | x :: rest => fold_left Rmin rest x
  end.

Definition np_max (l : list R) : R :=
  match l with
  | [] => 0
  | x :: rest => fold_left Rmax rest x
  end.

Definition np_mean (l : list R) : R := np_sum l / INR (length l).

Definition np_std (l : list R) : R :=
  sqrt (np_mean (map (fun x => Rabs (x - np_mean l) ^ 2) l)).

(** [np.zeros(n)] and [np.full(n, v)]. *)
Definition np_zeros (n : nat) : list R := repeat 0 n.
Definition np_full {A : Type} (n : nat) (v : A) : list A := repeat v n.

(** Item assignment [l[i] = v] on an array or list.  (An index past the end
    raises [IndexError] in Python; the loops below never reach one on
    16-element vectors, and here the list is then left as it is.) *)
Fixpoint set_item {A : Type} (l : list A) (i : nat) (v : A) : list A :=
  match l, i with
  | [], _ => []
  | _ :: rest, O => v :: rest
  | x :: rest, S j => x :: set_item rest j v
  end.

(** Element-wise arithmetic of two arrays of the same length. *)
Fixpoint zip_with {A B C : Type} (f : A -> B -> C) (l1 : list A) (l2 : list B) : list C :=
  match l1, l2 with
  | x :: r1, y :: r2 => f x y :: zip_with f r1 r2
  | _, _ => []
  end.

(** [enumerate(l)]. *)
Definition enumerate {A : Type} (l : list A) : list (nat * A) :=
  combine (seq 0 (length l)) l.

(** ** The process-wide random generator and the wall clock

    [np.random] is one generator shared by the whole process.  Its state is
    modelled by the history of the draws made so far (newest first) and a
    function giving the value a draw returns after a given history;
    [np.random.seed(s)] installs the generator of seed [s] with an empty
    history.  The wall clock gives the successive readings of
    [time.time() * 1000.0]. *)

Inductive draw_kind : Type := Gaussian | Uniform.

Record World : Type := mk_world {
  rng_history : list draw_kind;
  rng_value : list draw_kind -> R;
  rng_seeded : Z -> list draw_kind -> R;
  clock_reads : nat;
  clock_ms : nat -> R
}.

Definition draw (k : draw_kind) (w : World) : R * World :=
  let h := k :: rng_history w in
  (rng_value w h, mk_world h (rng_value w) (rng_seeded w) (clock_reads w) (clock_ms w)).

Fixpoint draws (k : draw_kind) (n : nat) (w : World) : list R * World :=
  match n with
  | O => ([], w)
  | S m => let (x, w) := draw k w in
           let (xs, w) := draws k m w in
           (x :: xs, w)
  end.

(** [np.random.seed(seed)], a no-op when the seed is [None]. *)
Definition np_random_seed (seed : option Z) (w : World) : World :=
  match seed with
  | Some s => mk_world [] (rng_seeded w s) (rng_seeded w) (clock_reads w) (clock_ms w)
  | None => w
  end.

(** [np.random.normal(loc, scale, n)] and the scalar [np.random.normal(loc, scale)]. *)
Definition np_random_normal (loc scale : R) (n : nat) (w : World) : list R * World :=
  let (zs, w) := draws Gaussian n w in (map (fun z => loc + scale * z) zs, w).
Definition np_random_normal1 (loc scale : R) (w : World) : R * World :=
  let (z, w) := draw Gaussian w in (loc + scale * z, w).

(** [np.random.uniform(low, high, n)], its scalar form, and [np.random.random()]. *)
Definition np_random_uniform (low high : R) (n : nat) (w : World) : list R * World :=
  let (us, w) := draws Uniform n w in (map (fun u => low + (high - low) * u) us, w).
Definition np_random_uniform1 (low high : R) (w : World) : R * World :=
  let (u, w) := draw Uniform w in (low + (high - low) * u, w).
Definition np_random_random (w : World) : R * World := draw Uniform w.

(** [time.time() * 1000.0]. *)
Definition time_ms (w : World) : R * World :=
  (clock_ms w (clock_reads w),
   mk_world (rng_history w) (rng_value w) (rng_seeded w) (S (clock_reads w)) (clock_ms w)).

(** ** The cell model ([plant/cell_model.py], class [LiFePO4Cell]) *)

Module LiFePO4Cell.

(** OCV-SOC lookup tables, 101 points each: SOC in percent, OCV in volts. *)
Definition OCV_SOC_TABLE_DISCHARGE : list (R * R) :=
  [ (0.0, 2.862); (1.0, 2.912); (2.0, 2.962); (3.0, 3.012); (4.0, 3.062);
    (5.0, 3.112); (6.0, 3.124); (7.0, 3.136); (8.0, 3.148); (9.0, 3.160);
    (10.0, 3.172); (11.0, 3.183); (12.0, 3.193); (13.0, 3.204); (14.0, 3.215);
    (15.0, 3.226); (16.0, 3.236); (17.0, 3.247); (18.0, 3.258); (19.0, 3.268);
    (20.0, 3.279); (21.0, 3.280); (22.0, 3.280); (23.0, 3.281); (24.0, 3.281);
    (25.0, 3.282); (26.0, 3.283); (27.0, 3.283); (28.0, 3.284); (29.0, 3.284);
    (30.0, 3.285); (31.0, 3.286); (32.0, 3.286); (33.0, 3.287); (34.0, 3.287);
    (35.0, 3.288); (36.0, 3.289); (37.0, 3.289); (38.0, 3.290); (39.0, 3.290);
    (40.0, 3.291); (41.0, 3.292); (42.0, 3.292); (43.0, 3.293); (44.0, 3.293);
    (45.0, 3.294); (46.0, 3.295); (47.0, 3.295); (48.0, 3.296); (49.0, 3.296);
    (50.0, 3.297); (51.0, 3.298); (52.0, 3.298); (53.0, 3.299); (54.0, 3.299);
    (55.0, 3.300); (56.0, 3.300); (57.0, 3.301); (58.0, 3.302); (59.0, 3.302);
    (60.0, 3.303); (61.0, 3.303); (62.0, 3.304); (63.0, 3.304); (64.0, 3.305);
    (65.0, 3.306); (66.0, 3.306); (67.0, 3.307); (68.0, 3.307); (69.0, 3.308);
    (70.0, 3.308); (71.0, 3.309); (72.0, 3.309); (73.0, 3.310); (74.0, 3.311);
    (75.0, 3.311); (76.0, 3.312); (77.0, 3.312); (78.0, 3.313); (79.0, 3.313);
    (80.0, 3.314); (81.0, 3.316); (82.0, 3.317); (83.0, 3.319); (84.0, 3.320);
    (85.0, 3.322); (86.0, 3.323); (87.0, 3.325); (88.0, 3.326); (89.0, 3.328);
    (90.0, 3.329); (91.0, 3.343); (92.0, 3.358); (93.0, 3.372); (94.0, 3.386);
    (95.0, 3.401); (96.0, 3.415); (97.0, 3.429); (98.0, 3.443); (99.0, 3.458);
    (100.0, 3.472) ].

Definition OCV_SOC_TABLE_CHARGE : list (R * R) :=
  [ (0.0, 2.510); (1.0, 2.560); (2.0, 2.610); (3.0, 2.660); (4.0, 2.710);
    (5.0, 2.760); (6.0, 2.810); (7.0, 2.860); (8.0, 2.910); (9.0, 2.960);
    (10.0, 3.010); (11.0, 3.060); (12.0, 3.110); (13.0, 3.160); (14.0, 3.190);
    (15.0, 3.210); (16.0, 3.220); (17.0, 3.230); (18.0, 3.240); (19.0, 3.250);
    (20.0, 3.260); (21.0, 3.260); (22.0, 3.260); (23.0, 3.260); (24.0, 3.260);
    (25.0, 3.260); (26.0, 3.260); (27.0, 3.260); (28.0, 3.260); (29.0, 3.260);
    (30.0, 3.260); (31.0, 3.260); (32.0, 3.260); (33.0, 3.260); (34.0, 3.260);
    (35.0, 3.260); (36.0, 3.260); (37.0, 3.260); (38.0, 3.260); (39.0, 3.260);
    (40.0, 3.260); (41.0, 3.260); (42.0, 3.260); (43.0, 3.260); (44.0, 3.260);
    (45.0, 3.260); (46.0, 3.260); (47.0, 3.260); (48.0, 3.260); (49.0, 3.260);
    (50.0, 3.260); (51.0, 3.260); (52.0, 3.260); (53.0, 3.260); (54.0, 3.260);
    (55.0, 3.260); (56.0, 3.260); (57.0, 3.260); (58.0, 3.260); (59.0, 3.260);
    (60.0, 3.260); (61.0, 3.260); (62.0, 3.260); (63.0, 3.260); (64.0, 3.260);
    (65.0, 3.260); (66.0, 3.260); (67.0, 3.260); (68.0, 3.260); (69.0, 3.260);
    (70.0, 3.260); (71.0, 3.260); (72.0, 3.260); (73.0, 3.260); (74.0, 3.260);
    (75.0, 3.260); (76.0, 3.260); (77.0, 3.260); (78.0, 3.260); (79.0, 3.260);
    (80.0, 3.260); (81.0, 3.265); (82.0, 3.270); (83.0, 3.275); (84.0, 3.280);
    (85.0, 3.285); (86.0, 3.290); (87.0, 3.300); (88.0, 3.310); (89.0, 3.320);
    (90.0, 3.330); (91.0, 3.340); (92.0, 3.350); (93.0, 3.360); (94.0, 3.370);
    (95.0, 3.380); (96.0, 3.385); (97.0, 3.390); (98.0, 3.395); (99.0, 3.398);
    (100.0, 3.472) ].

(** ECM parameters of the 2RC network. *)
Definition R1 : R := 1e-3.
Definition C1 : R := 2000.
Definition R2 : R := 0.5e-3.
Definition C2 : R := 10000.

(** Temperature coefficients. *)
Definition OCV_TEMP_COEFF : R := -0.5e-3.
Definition CAPACITY_TEMP_COEFF : R := 0.005.

(** Aging parameters. *)
Definition FADE_RATE : R := 0.0001.
Definition RESISTANCE_INCREASE_RATE : R := 0.001.
Definition CALENDAR_AGING_ACTIVATION_ENERGY : R := 30000.
Definition GAS_CONSTANT : R := 8.314.
Definition CALENDAR_AGING_BASE_RATE : R := 1.0e-9.
Definition CALENDAR_AGING_REF_TEMP : R := 298.15.

(** Thermal parameters. *)
Definition THERMAL_MASS : R := 100.
Definition THERMAL_RESISTANCE : R := 2.
Definition SELF_HEATING_COEFF : R := 0.001.

Definition MIN_VOLTAGE : R := 2.5.

(** The instance attributes of a cell. *)
Record t : Type := mk {
  _capacity_nominal_ah : R;
  _soc : R;
  _temperature_c : R;
  _ambient_temp_c : R;
  _cycles : Z;
  _base_resistance_multiplier : R;
  _v_rc1 : R;
  _v_rc2 : R;
  _last_current_direction : Z;
  _hysteresis_soc : R;
  _calendar_aging_time_hours : R;
  _last_update_time_hours : R;
  _storage_soc : R;
  _storage_temp : R;
  _capacity_actual_ah : R;
  _resistance_multiplier : R
}.

Definition set_soc (v : R) (self : t) : t :=
  mk (_capacity_nominal_ah self) v (_temperature_c self) (_ambient_temp_c self) (_cycles
     self) (_base_resistance_multiplier self) (_v_rc1 self) (_v_rc2 self)
     (_last_current_direction self) (_hysteresis_soc self) (_calendar_aging_time_hours
     self) (_last_update_time_hours self) (_storage_soc self) (_storage_temp self)
     (_capacity_actual_ah self) (_resistance_multiplier self).

Definition set_temperature_c (v : R) (self : t) : t :=
  mk (_capacity_nominal_ah self) (_soc self) v (_ambient_temp_c self) (_cycles self)
     (_base_resistance_multiplier self) (_v_rc1 self) (_v_rc2 self)
     (_last_current_direction self) (_hysteresis_soc self) (_calendar_aging_time_hours
     self) (_last_update_time_hours self) (_storage_soc self) (_storage_temp self)
     (_capacity_actual_ah self) (_resistance_multiplier self).

Definition set_ambient_temp_c (v : R) (self : t) : t :=
  mk (_capacity_nominal_ah self) (_soc self) (_temperature_c self) v (_cycles self)
     (_base_resistance_multiplier self) (_v_rc1 self) (_v_rc2 self)
     (_last_current_direction self) (_hysteresis_soc self) (_calendar_aging_time_hours
     self) (_last_update_time_hours self) (_storage_soc self) (_storage_temp self)
     (_capacity_actual_ah self) (_resistance_multiplier self).

Definition set_cycles (v : Z) (self : t) : t :=
  mk (_capacity_nominal_ah self) (_soc self) (_temperature_c self) (_ambient_temp_c
     self) v (_base_resistance_multiplier self) (_v_rc1 self) (_v_rc2 self)
     (_last_current_direction self) (_hysteresis_soc self) (_calendar_aging_time_hours
     self) (_last_update_time_hours self) (_storage_soc self) (_storage_temp self)
     (_capacity_actual_ah self) (_resistance_multiplier self).

Definition set_v_rc1 (v : R) (self : t) : t :=
  mk (_capacity_nominal_ah self) (_soc self) (_temperature_c self) (_ambient_temp_c
     self) (_cycles self) (_base_resistance_multiplier self) v (_v_rc2 self)
     (_last_current_direction self) (_hysteresis_soc self) (_calendar_aging_time_hours
     self) (_last_update_time_hours self) (_storage_soc self) (_storage_temp self)
     (_capacity_actual_ah self) (_resistance_multiplier self).

Definition set_v_rc2 (v : R) (self : t) : t :=
  mk (_capacity_nominal_ah self) (_soc self) (_temperature_c self) (_ambient_temp_c
     self) (_cycles self) (_base_resistance_multiplier self) (_v_rc1 self) v
     (_last_current_direction self) (_hysteresis_soc self) (_calendar_aging_time_hours
     self) (_last_update_time_hours self) (_storage_soc self) (_storage_temp self)
     (_capacity_actual_ah self) (_resistance_multiplier self).

Definition set_last_current_direction (v : Z) (self : t) : t :=
  mk (_capacity_nominal_ah self) (_soc self) (_temperature_c self) (_ambient_temp_c
     self) (_cycles self) (_base_resistance_multiplier self) (_v_rc1 self) (_v_rc2 self)
     v (_hysteresis_soc self) (_calendar_aging_time_hours self) (_last_update_time_hours
     self) (_storage_soc self) (_storage_temp self) (_capacity_actual_ah self)
     (_resistance_multiplier self).

Definition set_hysteresis_soc (v : R) (self : t) : t :=
  mk (_capacity_nominal_ah self) (_soc self) (_temperature_c self) (_ambient_temp_c
     self) (_cycles self) (_base_resistance_multiplier self) (_v_rc1 self) (_v_rc2 self)
     (_last_current_direction self) v (_calendar_aging_time_hours self)
     (_last_update_time_hours self) (_storage_soc self) (_storage_temp self)
     (_capacity_actual_ah self) (_resistance_multiplier self).

Definition set_calendar_aging_time_hours (v : R) (self : t) : t :=
  mk (_capacity_nominal_ah self) (_soc self) (_temperature_c self) (_ambient_temp_c
     self) (_cycles self) (_base_resistance_multiplier self) (_v_rc1 self) (_v_rc2 self)
     (_last_current_direction self) (_hysteresis_soc self) v (_last_update_time_hours
     self) (_storage_soc self) (_storage_temp self) (_capacity_actual_ah self)
     (_resistance_multiplier self).

Definition set_last_update_time_hours (v : R) (self : t) : t :=
  mk (_capacity_nominal_ah self) (_soc self) (_temperature_c self) (_ambient_temp_c
     self) (_cycles self) (_base_resistance_multiplier self) (_v_rc1 self) (_v_rc2 self)
     (_last_current_direction self) (_hysteresis_soc self) (_calendar_aging_time_hours
     self) v (_storage_soc self) (_storage_temp self) (_capacity_actual_ah self)
     (_resistance_multiplier self).

Definition set_storage_soc (v : R) (self : t) : t :=
  mk (_capacity_nominal_ah self) (_soc self) (_temperature_c self) (_ambient_temp_c
     self) (_cycles self) (_base_resistance_multiplier self) (_v_rc1 self) (_v_rc2 self)
     (_last_current_direction self) (_hysteresis_soc self) (_calendar_aging_time_hours
     self) (_last_update_time_hours self) v (_storage_temp self) (_capacity_actual_ah
     self) (_resistance_multiplier self).

Definition set_storage_temp (v : R) (self : t) : t :=
  mk (_capacity_nominal_ah self) (_soc self) (_temperature_c self) (_ambient_temp_c
     self) (_cycles self) (_base_resistance_multiplier self) (_v_rc1 self) (_v_rc2 self)
     (_last_current_direction self) (_hysteresis_soc self) (_calendar_aging_time_hours
     self) (_last_update_time_hours self) (_storage_soc self) v (_capacity_actual_ah
     self) (_resistance_multiplier self).

Definition set_capacity_actual_ah (v : R) (self : t) : t :=
  mk (_capacity_nominal_ah self) (_soc self) (_temperature_c self) (_ambient_temp_c
     self) (_cycles self) (_base_resistance_multiplier self) (_v_rc1 self) (_v_rc2 self)
     (_last_current_direction self) (_hysteresis_soc self) (_calendar_aging_time_hours
     self) (_last_update_time_hours self) (_storage_soc self) (_storage_temp self) v
     (_resistance_multiplier self).

Definition set_resistance_multiplier (v : R) (self : t) : t :=
  mk (_capacity_nominal_ah self) (_soc self) (_temperature_c self) (_ambient_temp_c
     self) (_cycles self) (_base_resistance_multiplier self) (_v_rc1 self) (_v_rc2 self)
     (_last_current_direction self) (_hysteresis_soc self) (_calendar_aging_time_hours
     self) (_last_update_time_hours self) (_storage_soc self) (_storage_temp self)
     (_capacity_actual_ah self) v.

Definition CALENDAR_AGING_SOC_EXPONENT : R := 0.5.

(** [x ** y] on floats, for the bases the model covers: a positive base, and
    base zero with a positive exponent.  (A negative base with a fractional
    exponent is a complex number in Python and is outside the model.) *)
Definition float_pow (x y : R) : R := if Rlt_dec 0 x then Rpower x y else 0.

(** [_update_aging]: capacity and resistance from the cycle count and the
    calendar-aging time. *)
Definition _update_aging (self : t) : t :=
  let cycle_fade_factor := 1 - FADE_RATE * sqrt (IZR (Z.max (_cycles self) 0)) in
  let cycle_fade_factor := Rmax cycle_fade_factor 0.5 in
  let calendar_fade_factor :=
    if Rgt_dec (_calendar_aging_time_hours self) 0 then
      let temp_kelvin := _storage_temp self + 273.15 in
      let arrhenius_factor :=
        exp (- CALENDAR_AGING_ACTIVATION_ENERGY / (GAS_CONSTANT * temp_kelvin)) in
      let soc_factor :=
        float_pow (_storage_soc self) CALENDAR_AGING_SOC_EXPONENT
        + float_pow (1 - _storage_soc self) CALENDAR_AGING_SOC_EXPONENT in
      let soc_factor := soc_factor / 2 in
      let calendar_aging_rate := CALENDAR_AGING_BASE_RATE * arrhenius_factor * soc_factor in
      let calendar_fade := calendar_aging_rate * _calendar_aging_time_hours self in
      1 - Rmin calendar_fade 0.3
    else 1 in
  let total_fade_factor := cycle_fade_factor * calendar_fade_factor in
  let total_fade_factor := Rmax total_fade_factor 0.5 in
  let self := set_capacity_actual_ah (_capacity_nominal_ah self * total_fade_factor) self in
  set_resistance_multiplier
    (1 + RESISTANCE_INCREASE_RATE * IZR (Z.max (_cycles self) 0)) self.

(** The constructor.  The two derived attributes are filled by
    [_update_aging]; until then they hold a placeholder. *)
Definition __init__ (capacity_ah initial_soc temperature_c : R) (cycles : Z)
    (ambient_temp_c resistance_multiplier : R) : t :=
  _update_aging
    {| _capacity_nominal_ah := capacity_ah;
       _soc := np_clip initial_soc 0 1;
       _temperature_c := temperature_c;
       _ambient_temp_c := ambient_temp_c;
       _cycles := cycles;
       _base_resistance_multiplier := Rmax resistance_multiplier 0.1;
       _v_rc1 := 0;
       _v_rc2 := 0;
       _last_current_direction := 0;
       _hysteresis_soc := initial_soc;
       _calendar_aging_time_hours := 0;
       _last_update_time_hours := 0;
       _storage_soc := initial_soc;
       _storage_temp := temperature_c;
       _capacity_actual_ah := 0;
       _resistance_multiplier := 0 |}.

(** The table columns the constructor stores: SOC as a fraction, paired with
    the OCV of one branch. *)
Definition soc_ocv_points (table : list (R * R)) : list (R * R) :=
  map (fun p => (fst p / 100, snd p)) table.

Definition _ocv_points_discharge : list (R * R) := soc_ocv_points OCV_SOC_TABLE_DISCHARGE.
Definition _ocv_points_charge : list (R * R) := soc_ocv_points OCV_SOC_TABLE_CHARGE.

(** [get_ocv(soc_pct, temperature_c, current_direction)], in volts. *)
Definition get_ocv (self : t) (soc_pct temperature_c : option R)
    (current_direction : option Z) : R :=
  let soc := match soc_pct with
             | None => _soc self
             | Some s => np_clip (s / 100) 0 1
             end in
  let temp := match temperature_c with
              | None => _temperature_c self
              | Some tc => tc
              end in
  let current_direction := match current_direction with
                           | None => _last_current_direction self
                           | Some d => d
                           end in
  if (current_direction >? 0)%Z then
    np_interp soc _ocv_points_charge + OCV_TEMP_COEFF * (temp - 25)
  else if (current_direction <? 0)%Z then
    np_interp soc _ocv_points_discharge + OCV_TEMP_COEFF * (temp - 25)
  else if (_last_current_direction self >? 0)%Z then
    np_interp soc _ocv_points_charge + OCV_TEMP_COEFF * (temp - 25)
  else if (_last_current_direction self <? 0)%Z then
    np_interp soc _ocv_points_discharge + OCV_TEMP_COEFF * (temp - 25)
  else
    let ocv_charge := np_interp soc _ocv_points_charge in
    let ocv_discharge := np_interp soc _ocv_points_discharge in
    let ocv_base := (ocv_charge + ocv_discharge) / 2 in
    ocv_base + OCV_TEMP_COEFF * (temp - 25).

(** [get_internal_resistance(soc_pct, temperature_c)], in milliohms. *)
Definition get_internal_resistance (self : t) (soc_pct temperature_c : option R) : R :=
  let soc := match soc_pct with
             | None => _soc self
             | Some s => np_clip (s / 100) 0 1
             end in
  let temp := match temperature_c with
              | None => _temperature_c self
              | Some tc => tc
              end in
  let r0_base_multiplier :=
    if Rle_dec soc 0.5 then 1.4 - soc * 0.8 else 1 - (soc - 0.5) * 0.5 in
  let r0_base_mohm := 0.5 * r0_base_multiplier in
  let temp_factor := 1 - 0.005 * (temp - 25) in
  let temp_factor := Rmax temp_factor 0.5 in
  r0_base_mohm * temp_factor * _base_resistance_multiplier self * _resistance_multiplier self.

(** [_update_thermal_model(current_ma, dt_ms, ambient_temp_c)]. *)
Definition _update_thermal_model (self : t) (current_ma dt_ms : R)
    (ambient_temp_c : option R) : t :=
  let self := match ambient_temp_c with
              | Some a => set_ambient_temp_c a self
              | None => self
              end in
  let current_a := current_ma / 1000 in
  let r0_ohm := get_internal_resistance self None None / 1000 in
  let power_w := current_a ^ 2 * r0_ohm in
  let temp_diff := _temperature_c self - _ambient_temp_c self in
  let heat_transfer_w := temp_diff / THERMAL_RESISTANCE in
  let net_power_w := power_w - heat_transfer_w in
  let dt_sec := dt_ms / 1000 in
  let dtemp := net_power_w * dt_sec / THERMAL_MASS in
  let self := set_temperature_c (_temperature_c self + dtemp) self in
  set_temperature_c (np_clip (_temperature_c self) (-40) 85) self.

(** The direction classification of [update]: 1 charging, -1 discharging,
    0 rest. *)
Definition classify_direction (current_ma : R) : Z :=
  if Rgt_dec current_ma 0.001 then 1%Z
  else if Rlt_dec current_ma (-0.001) then (-1)%Z
  else 0%Z.

(** [update(current_ma, dt_ms, temperature_c, ambient_temp_c)] is one method
    made of five consecutive blocks, each mutating the cell in place.  The
    blocks are given one definition each, in source order, and [update]
    chains them. *)

(** Block 1: thermal update, or the forced temperature when one is given. *)
Definition update_temperature (self : t) (current_ma dt_ms : R)
    (temperature_c ambient_temp_c : option R) : t :=
  match temperature_c with
  | None => _update_thermal_model self current_ma dt_ms ambient_temp_c
  | Some tc => set_temperature_c tc self
  end.

(** Block 2: temperature-dependent capacity and Coulomb counting. *)
Definition update_soc (self : t) (current_ma dt_ms : R) : t :=
  let temp_capacity_factor := 1 + CAPACITY_TEMP_COEFF * (_temperature_c self - 25) in
  let capacity_ah := _capacity_actual_ah self * temp_capacity_factor in
  let current_a := current_ma / 1000 in
  let dt_hours := dt_ms / (1000 * 3600) in
  let dsoc := current_a * dt_hours / capacity_ah in
  let self := set_soc (_soc self + dsoc) self in
  set_soc (np_clip (_soc self) 0 1) self.

(** Block 3: hysteresis tracking on a change of direction. *)
Definition update_hysteresis (self : t) (new_direction : Z) : t :=
  if negb (new_direction =? 0)%Z && negb (new_direction =? _last_current_direction self)%Z
  then set_last_current_direction new_direction (set_hysteresis_soc (_soc self) self)
  else if negb (new_direction =? 0)%Z
  then set_last_current_direction new_direction self
  else self.

(** Block 4: the two RC branches, with C-rate dependent resistances. *)
Definition update_rc_network (self : t) (current_ma dt_ms : R) : t :=
  let current_a := current_ma / 1000 in
  let current_c_rate :=
    if Rgt_dec (_capacity_nominal_ah self) 0
    then Rabs current_a / _capacity_nominal_ah self else 0 in
  let rc_scale_factor :=
    if Rle_dec current_c_rate 1 then 1
    else Rmax (1 / (1 + 0.15 * (current_c_rate - 1))) 0.3 in
  let r1_effective := R1 * rc_scale_factor in
  let r2_effective := R2 * rc_scale_factor in
  let tau1 := r1_effective * C1 in
  let dt_sec := dt_ms / 1000 in
  let exp_factor1 := if Rgt_dec tau1 0 then exp (- dt_sec / tau1) else 0 in
  let self :=
    set_v_rc1 (_v_rc1 self * exp_factor1 + current_a * r1_effective * (1 - exp_factor1))
      self in
  let tau2 := r2_effective * C2 in
  let exp_factor2 := if Rgt_dec tau2 0 then exp (- dt_sec / tau2) else 0 in
  set_v_rc2 (_v_rc2 self * exp_factor2 + current_a * r2_effective * (1 - exp_factor2))
    self.

(** The terminal voltage, in volts, floored at [MIN_VOLTAGE]. *)
Definition terminal_voltage (self : t) (current_ma : R) (new_direction : Z) : R :=
  let current_a := current_ma / 1000 in
  let ocv := get_ocv self None None (Some new_direction) in
  let r0_ohm := get_internal_resistance self None None / 1000 in
  let ir_drop_magnitude := Rabs current_a * r0_ohm in
  let v_terminal := ocv - ir_drop_magnitude - Rabs (_v_rc1 self) - Rabs (_v_rc2 self) in
  Rmax v_terminal MIN_VOLTAGE.

(** Block 5: calendar-aging bookkeeping, and the hourly recomputation. *)
Definition update_calendar_aging (self : t) (current_ma dt_ms : R) : t :=
  let current_time_hours := _calendar_aging_time_hours self + dt_ms / (1000 * 3600) in
  let self := if Rlt_dec (Rabs current_ma) 0.001
              then set_storage_soc (_soc self) self else self in
  let self := set_storage_temp (_temperature_c self) self in
  let self := set_calendar_aging_time_hours current_time_hours self in
  if Rgt_dec (current_time_hours - _last_update_time_hours self) 1
  then set_last_update_time_hours current_time_hours (_update_aging self)
  else self.

(** The method: the new cell and the pair (terminal voltage in mV, SOC in
    percent). *)
Definition update (self : t) (current_ma dt_ms : R)
    (temperature_c ambient_temp_c : option R) : t * (R * R) :=
  let self := update_temperature self current_ma dt_ms temperature_c ambient_temp_c in
  let self := update_soc self current_ma dt_ms in
  let new_direction := classify_direction current_ma in
  let self := update_hysteresis self new_direction in
  let self := update_rc_network self current_ma dt_ms in
  let v_terminal := terminal_voltage self current_ma new_direction in
  let self := update_calendar_aging self current_ma dt_ms in
  let voltage_mv := v_terminal * 1000 in
  (self, (voltage_mv, _soc self * 100)).

(** [set_aging(cycles, calendar_aging_hours)]. *)
Definition set_aging (self : t) (cycles : Z) (calendar_aging_hours : option R) : t :=
  let self := set_cycles (Z.max cycles 0) self in
  let self := match calendar_aging_hours with
              | Some h => set_calendar_aging_time_hours (Rmax h 0) self
              | None => self
              end in
  _update_aging self.

(** The dictionary returned by [get_state()], one field per key. *)
Record state_dict : Type := mk_state {
  soc_pct : R;
  voltage_mv : R;
  temperature_c : R;
  capacity_ah : R;
  internal_resistance_mohm : R;
  cycles : Z;
  calendar_aging_hours : R;
  rc1_voltage_v : R;
  rc2_voltage_v : R;
  current_direction : Z
}.

Definition get_state (self : t) : state_dict :=
  {| soc_pct := _soc self * 100;
     voltage_mv := get_ocv self None None None * 1000;
     temperature_c := _temperature_c self;
     capacity_ah := _capacity_actual_ah self;
     internal_resistance_mohm := get_internal_resistance self None None;
     cycles := _cycles self;
     calendar_aging_hours := _calendar_aging_time_hours self;
     rc1_voltage_v := _v_rc1 self;
     rc2_voltage_v := _v_rc2 self;
     current_direction := _last_current_direction self |}.

(** [reset(soc_pct, temperature_c)]. *)
Definition reset (self : t) (soc_pct temperature_c : option R) : t :=
  let self := match soc_pct with
              | Some s => set_soc (np_clip (s / 100) 0 1) self
              | None => self
              end in
  let self := match temperature_c with
              | Some tc => set_temperature_c tc self
              | None => self
              end in
  set_last_current_direction 0 (set_v_rc2 0 (set_v_rc1 0 self)).

End LiFePO4Cell.

(** ** The pack model ([plant/pack_model.py], class [BatteryPack16S]) *)

Module BatteryPack16S.

Definition NUM_CELLS : nat := 16.

(** The instance attributes of a pack. *)
Record t : Type := mk {
  _cell_capacity_nominal_ah : R;
  _ambient_temp_c : R;
  _thermal_coupling_coeff : R;
  _soc_calculation_mode : string;
  _cells : list LiFePO4Cell.t;
  _capacity_multipliers : list R;
  _resistance_multipliers : list R;
  _base_resistance_multipliers : list R;
  _fault_voltages : list (option R);
  _fault_temperatures : list (option R);
  _pack_current_ma : R;
  _total_energy_ah : R;
  _cycles : Z
}.

Definition set_ambient_temp_c (v : R) (self : t) : t :=
  mk (_cell_capacity_nominal_ah self) v (_thermal_coupling_coeff self)
     (_soc_calculation_mode self) (_cells self) (_capacity_multipliers self)
     (_resistance_multipliers self) (_base_resistance_multipliers self)
     (_fault_voltages self) (_fault_temperatures self) (_pack_current_ma self)
     (_total_energy_ah self) (_cycles self).

Definition set_cells (v : list LiFePO4Cell.t) (self : t) : t :=
  mk (_cell_capacity_nominal_ah self) (_ambient_temp_c self) (_thermal_coupling_coeff self)
     (_soc_calculation_mode self) v (_capacity_multipliers self)
     (_resistance_multipliers self) (_base_resistance_multipliers self)
     (_fault_voltages self) (_fault_temperatures self) (_pack_current_ma self)
     (_total_energy_ah self) (_cycles self).

Definition set_fault_voltages (v : list (option R)) (self : t) : t :=
  mk (_cell_capacity_nominal_ah self) (_ambient_temp_c self) (_thermal_coupling_coeff self)
     (_soc_calculation_mode self) (_cells self) (_capacity_multipliers self)
     (_resistance_multipliers self) (_base_resistance_multipliers self)
     v (_fault_temperatures self) (_pack_current_ma self)
     (_total_energy_ah self) (_cycles self).

Definition set_fault_temperatures (v : list (option R)) (self : t) : t :=
  mk (_cell_capacity_nominal_ah self) (_ambient_temp_c self) (_thermal_coupling_coeff self)
     (_soc_calculation_mode self) (_cells self) (_capacity_multipliers self)
     (_resistance_multipliers self) (_base_resistance_multipliers self)
     (_fault_voltages self) v (_pack_current_ma self)
     (_total_energy_ah self) (_cycles self).

Definition set_pack_current_ma (v : R) (self : t) : t :=
  mk (_cell_capacity_nominal_ah self) (_ambient_temp_c self) (_thermal_coupling_coeff self)
     (_soc_calculation_mode self) (_cells self) (_capacity_multipliers self)
     (_resistance_multipliers self) (_base_resistance_multipliers self)
     (_fault_voltages self) (_fault_temperatures self) v
     (_total_energy_ah self) (_cycles self).

(** The constructor: the three variation vectors are drawn, in this order,
    from the process-wide generator, after the optional seeding.  Each cell
    is built with its own capacity, initial SOC and resistance multiplier,
    no cycles, and the cell constructor's default ambient temperature (25). *)
Definition __init__ (cell_capacity_ah initial_soc_pct ambient_temp_c
    capacity_variation_sigma soc_variation_sigma resistance_variation
    thermal_coupling_coeff : R) (soc_calculation_mode : string) (seed : option Z)
    (w : World) : t * World :=
  let w := np_random_seed seed w in
  let (capacity_variations, w) :=
    np_random_normal 1 (capacity_variation_sigma / 100) NUM_CELLS w in
  let capacity_variations := map (fun x => np_clip x 0.98 1.02) capacity_variations in
  let (soc_variations, w) := np_random_normal 0 (soc_variation_sigma / 100) NUM_CELLS w in
  let initial_soc_per_cell := map (fun x => initial_soc_pct / 100 + x) soc_variations in
  let initial_soc_per_cell := map (fun x => np_clip x 0 1) initial_soc_per_cell in
  let (resistance_variations, w) :=
    np_random_uniform (1 - resistance_variation) (1 + resistance_variation) NUM_CELLS w in
  let cells :=
    map (fun i =>
           LiFePO4Cell.__init__
             (cell_capacity_ah * nth i capacity_variations 0)
             (nth i initial_soc_per_cell 0)
             ambient_temp_c 0 25
             (nth i resistance_variations 0))
        (seq 0 NUM_CELLS) in
  ({| _cell_capacity_nominal_ah := cell_capacity_ah;
      _ambient_temp_c := ambient_temp_c;
      _thermal_coupling_coeff := thermal_coupling_coeff;
      _soc_calculation_mode := soc_calculation_mode;
      _cells := cells;
      _capacity_multipliers := capacity_variations;
      _resistance_multipliers := resistance_variations;
      _base_resistance_multipliers := resistance_variations;
      _fault_voltages := np_full NUM_CELLS None;
      _fault_temperatures := np_full NUM_CELLS None;
      _pack_current_ma := 0;
      _total_energy_ah := 0;
      _cycles := 0 |}, w).

(** [_apply_thermal_coupling(previous_temps, dt_ms)]. *)
Definition _apply_thermal_coupling (self : t) (previous_temps : list R) (dt_ms : R) : t :=
  let current_temps := map LiFePO4Cell._temperature_c (_cells self) in
  let coupling_energy :=
    fold_left
      (fun coupling_energy i =>
         let coupling_energy :=
           if (0 <? i)%nat then
             let temp_diff := nth i current_temps 0 - nth (i - 1) current_temps 0 in
             let coupling_energy :=
               set_item coupling_energy i
                 (nth i coupling_energy 0 - _thermal_coupling_coeff self * temp_diff) in
             set_item coupling_energy (i - 1)
               (nth (i - 1) coupling_energy 0 + _thermal_coupling_coeff self * temp_diff)
           else coupling_energy in
         if (i <? NUM_CELLS - 1)%nat then
           let temp_diff := nth i current_temps 0 - nth (i + 1) current_temps 0 in
           let coupling_energy :=
             set_item coupling_energy i
               (nth i coupling_energy 0 - _thermal_coupling_coeff self * temp_diff) in
           set_item coupling_energy (i + 1)
             (nth (i + 1) coupling_energy 0 + _thermal_coupling_coeff self * temp_diff)
         else coupling_energy)
      (seq 0 NUM_CELLS) (np_zeros NUM_CELLS) in
  let thermal_mass := LiFePO4Cell.THERMAL_MASS in
  let dt_sec := dt_ms / 1000 in
  let cells :=
    map (fun '(i, cell) =>
           match nth i (_fault_temperatures self) None with
           | None =>
               let temp_change := nth i coupling_energy 0 * dt_sec / thermal_mass in
               let cell :=
                 LiFePO4Cell.set_temperature_c
                   (LiFePO4Cell._temperature_c cell + temp_change) cell in
               LiFePO4Cell.set_temperature_c
                 (np_clip (LiFePO4Cell._temperature_c cell) (-40) 85) cell
           | Some _ => cell
           end)
        (enumerate (_cells self)) in
  set_cells cells self.

(** [update(current_ma, dt_ms, ambient_temp_c)]: every cell is updated with
    the same current; the voltage and SOC each cell returns are dropped. *)
Definition update (self : t) (current_ma dt_ms : R) (ambient_temp_c : option R) : t :=
  let self := match ambient_temp_c with
              | Some a => set_ambient_temp_c a self
              | None => self
              end in
  let self := set_pack_current_ma current_ma self in
  let current_temps := map LiFePO4Cell._temperature_c (_cells self) in
  let cells :=
    map (fun '(i, cell) =>
           let forced_temp := nth i (_fault_temperatures self) None in
           let temp_to_use := forced_temp in
           fst (LiFePO4Cell.update cell current_ma dt_ms temp_to_use
                  (Some (_ambient_temp_c self))))
        (enumerate (_cells self)) in
  let self := set_cells cells self in
  _apply_thermal_coupling self current_temps dt_ms.

(** [get_cell_voltages()], in mV. *)
Definition get_cell_voltages (self : t) : list R :=
  fold_left
    (fun voltages '(i, cell) =>
       match nth i (_fault_voltages self) None with
       | Some v => set_item voltages i v
       | None =>
           let state := LiFePO4Cell.get_state cell in
           set_item voltages i (LiFePO4Cell.voltage_mv state)
       end)
    (enumerate (_cells self)) (np_zeros NUM_CELLS).

(** [get_cell_temperatures()], in degrees Celsius. *)
Definition get_cell_temperatures (self : t) : list R :=
  fold_left
    (fun temps '(i, cell) =>
       match nth i (_fault_temperatures self) None with
       | Some v => set_item temps i v
       | None => set_item temps i (LiFePO4Cell._temperature_c cell)
       end)
    (enumerate (_cells self)) (np_zeros NUM_CELLS).

(** [get_cell_socs()], in percent. *)
Definition get_cell_socs (self : t) : list R :=
  map (fun cell => LiFePO4Cell._soc cell * 100) (_cells self).

(** [get_pack_voltage()], in mV. *)
Definition get_pack_voltage (self : t) : R :=
  let cell_voltages := get_cell_voltages self in
  np_sum cell_voltages.

(** [get_pack_current()]. *)
Definition get_pack_current (self : t) : R := _pack_current_ma self.

(** Errors raised by the fault API. *)
Inductive error : Type := ValueError (msg : string).

(** [set_cell_voltage(cell_index, voltage_mv)]. *)
Definition set_cell_voltage (self : t) (cell_index : Z) (voltage_mv : option R)
    : error + t :=
  if ((cell_index <? 0) || (cell_index >=? Z.of_nat NUM_CELLS))%Z
  then inl (ValueError "Cell index must be 0-15")
  else inr (set_fault_voltages
              (set_item (_fault_voltages self) (Z.to_nat cell_index) voltage_mv) self).

(** [set_cell_temperature(cell_index, temperature_c)]. *)
Definition set_cell_temperature (self : t) (cell_index : Z) (temperature_c : option R)
    : error + t :=
  if ((cell_index <? 0) || (cell_index >=? Z.of_nat NUM_CELLS))%Z
  then inl (ValueError "Cell index must be 0-15")
  else inr (set_fault_temperatures
              (set_item (_fault_temperatures self) (Z.to_nat cell_index) temperature_c)
              self).

(** [clear_all_faults()]. *)
Definition clear_all_faults (self : t) : t :=
  set_fault_temperatures (map (fun _ => None) (_fault_temperatures self))
    (set_fault_voltages (map (fun _ => None) (_fault_voltages self)) self).

(** [get_pack_soc()], in percent: the mean in mode ['average'], the minimum
    in mode ['minimum'] and in any other mode. *)
Definition get_pack_soc (self : t) : R :=
  let cell_socs := get_cell_socs self in
  if String.eqb (_soc_calculation_mode self) "minimum" then np_min cell_socs
  else if String.eqb (_soc_calculation_mode self) "average" then np_mean cell_socs
  else np_min cell_socs.

(** The dictionary returned by [get_cell_imbalance()]. *)
Record imbalance_dict : Type := mk_imbalance {
  min_voltage_mv : R;
  max_voltage_mv : R;
  voltage_delta_mv : R;
  min_soc_pct : R;
  max_soc_pct : R;
  soc_delta_pct : R;
  voltage_std_mv : R;
  soc_std_pct : R
}.

Definition get_cell_imbalance (self : t) : imbalance_dict :=
  let voltages := get_cell_voltages self in
  let socs := get_cell_socs self in
  {| min_voltage_mv := np_min voltages;
     max_voltage_mv := np_max voltages;
     voltage_delta_mv := np_max voltages - np_min voltages;
     min_soc_pct := np_min socs;
     max_soc_pct := np_max socs;
     soc_delta_pct := np_max socs - np_min socs;
     voltage_std_mv := np_std voltages;
     soc_std_pct := np_std socs |}.

(** [set_aging(cycles)]: every cell is aged; the pack records the cycle
    count as given. *)
Definition set_aging (self : t) (cycles : Z) : t :=
  let cells := map (fun cell => LiFePO4Cell.set_aging cell cycles None) (_cells self) in
  let self := set_cells cells self in
  mk (_cell_capacity_nominal_ah self) (_ambient_temp_c self) (_thermal_coupling_coeff self)
     (_soc_calculation_mode self) (_cells self) (_capacity_multipliers self)
     (_resistance_multipliers self) (_base_resistance_multipliers self)
     (_fault_voltages self) (_fault_temperatures self) (_pack_current_ma self)
     (_total_energy_ah self) cycles.

(** The dictionary returned by [get_pack_state()]. *)
Record pack_state_dict : Type := mk_pack_state {
  pack_voltage_mv : R;
  pack_current_ma : R;
  pack_soc_pct : R;
  cell_voltages_mv : list R;
  cell_temperatures_c : list R;
  cell_socs_pct : list R;
  imbalance : imbalance_dict;
  state_ambient_temp_c : R;
  state_cycles : Z
}.

Definition get_pack_state (self : t) : pack_state_dict :=
  let cell_voltages := get_cell_voltages self in
  let cell_temps := get_cell_temperatures self in
  let cell_socs := get_cell_socs self in
  let imbalance := get_cell_imbalance self in
  {| pack_voltage_mv := get_pack_voltage self;
     pack_current_ma := get_pack_current self;
     pack_soc_pct := get_pack_soc self;
     cell_voltages_mv := cell_voltages;
     cell_temperatures_c := cell_temps;
     cell_socs_pct := cell_socs;
     imbalance := imbalance;
     state_ambient_temp_c := _ambient_temp_c self;
     state_cycles := _cycles self |}.

(** [reset(soc_pct, temperature_c)]. *)
Definition reset (self : t) (soc_pct temperature_c : option R) : t :=
  let cells :=
    match soc_pct with
    | Some s => map (fun cell => LiFePO4Cell.reset cell (Some s) temperature_c) (_cells self)
    | None => map (fun cell => LiFePO4Cell.reset cell None temperature_c) (_cells self)
    end in
  let self := set_cells cells self in
  let self := clear_all_faults self in
  set_pack_current_ma 0 self.

End BatteryPack16S.

(** ** The AFE measurement wrapper ([afe/wrapper.py], class [AFEWrapper]) *)

(** [np.round] and Python's [round]: to the nearest integer, ties to even. *)
Definition round_half_even (x : R) : Z :=
  let f := Int_part x in
  let d := x - IZR f in
  if Rlt_dec d (1 / 2) then f
  else if Rgt_dec d (1 / 2) then (f + 1)%Z
  else if Z.even f then f else (f + 1)%Z.

(** [x.astype(np.int16)] on a float: the fraction is dropped (rounding
    toward zero) and the integer is reduced to the 16-bit signed range, as
    the C conversion does on the usual platforms. *)
Definition truncate (x : R) : Z :=
  if Rle_dec 0 x then Int_part x else (- Int_part (- x))%Z.
Definition wrap_int16 (z : Z) : Z := ((z + 32768) mod 65536 - 32768)%Z.
Definition astype_int16 (x : R) : Z := wrap_int16 (truncate x).

(** [s.lower()] on ASCII strings. *)
Definition ascii_lower (c : ascii) : ascii :=
  let n := nat_of_ascii c in
  if ((65 <=? n) && (n <=? 90))%nat then ascii_of_nat (n + 32) else c.
Fixpoint str_lower (s : string) : string :=
  match s with
  | EmptyString => EmptyString
  | String c rest => String (ascii_lower c) (str_lower rest)
  end.

Module AFEWrapper.

(** The enumeration [FaultType] and the value of each member. *)
Inductive FaultType : Type :=
  | OPEN_WIRE | STUCK_ADC | NTC_OPEN | NTC_SHORT | CURRENT_SENSOR_FAULT | CRC_ERROR.

Definition FaultType_value (f : FaultType) : string :=
  match f with
  | OPEN_WIRE => "open_wire"
  | STUCK_ADC => "stuck_adc"
  | NTC_OPEN => "ntc_open"
  | NTC_SHORT => "ntc_short"
  | CURRENT_SENSOR_FAULT => "current_sensor_fault"
  | CRC_ERROR => "crc_error"
  end.

(** [FaultType(value)]: the member with that value, if any. *)
Definition FaultType_of_value (s : string) : option FaultType :=
  find (fun f => String.eqb (FaultType_value f) s)
    [OPEN_WIRE; STUCK_ADC; NTC_OPEN; NTC_SHORT; CURRENT_SENSOR_FAULT; CRC_ERROR].

(** An argument of type [Union[FaultType, str]]. *)
Inductive fault_arg : Type :=
  | Enum (f : FaultType)
  | Str (s : string).

(** An entry of the fault schedule: a dictionary with the keys
    [fault_type] and [cell_mask], and, depending on who appended it,
    [inject_time_ms], [duration_ms] and [injected] (from [schedule_fault])
    or [clear_time_ms] (from [inject_fault] with a duration).  A key that is
    absent, or whose value is [None], is [None] here. *)
Record FaultEvent : Type := mk_event {
  ev_fault_type : fault_arg;
  ev_cell_mask : option Z;
  ev_inject_time_ms : option R;
  ev_duration_ms : option R;
  ev_injected : option bool;
  ev_clear_time_ms : option R
}.

(** ADC resolutions. *)
Definition VOLTAGE_RESOLUTION_MV : R := 0.1.
Definition TEMPERATURE_RESOLUTION_C : R := 0.1.
Definition CURRENT_RESOLUTION_MA : R := 1.

(** Default noise standard deviations and calibration error ranges. *)
Definition DEFAULT_VOLTAGE_NOISE_MV : R := 2.
Definition DEFAULT_TEMP_NOISE_C : R := 0.5.
Definition DEFAULT_CURRENT_NOISE_MA : R := 50.
Definition DEFAULT_VOLTAGE_GAIN_ERROR : R := 0.001.
Definition DEFAULT_VOLTAGE_OFFSET_MV : R := 5.
Definition DEFAULT_TEMP_OFFSET_C : R := 1.
Definition DEFAULT_CURRENT_GAIN_ERROR : R := 0.002.
Definition DEFAULT_CURRENT_OFFSET_MA : R := 10.

(** Invalid values for fault injection. *)
Definition INVALID_VOLTAGE_MV : R := 0.
Definition INVALID_TEMP_C : R := -32768.
Definition INVALID_CURRENT_MA : R := 0.

Definition NUM_CELLS : nat := 16.

(** The two configuration dictionaries; an absent key is [None]. *)
Record NoiseConfig : Type := mk_noise {
  voltage_noise_mv : option R;
  temp_noise_c : option R;
  current_noise_ma : option R
}.

Record CalibrationErrors : Type := mk_calibration {
  voltage_gain_error : option R;
  voltage_offset_mv : option R;
  temp_offset_c : option R;
  current_gain_error : option R;
  current_offset_ma : option R
}.

(** [d.get(key, default)]. *)
Definition dict_get (entry : option R) (default : R) : R :=
  match entry with
  | Some v => v
  | None => default
  end.

(** The instance attributes of a wrapper: noise levels, the fixed
    per-channel calibration, then the dynamic state. *)
Record t : Type := mk {
  _voltage_noise_mv : R;
  _temp_noise_c : R;
  _current_noise_ma : R;
  _voltage_gain_errors : list R;
  _voltage_offsets_mv : list R;
  _temp_offsets_c : list R;
  _current_gain_error : R;
  _current_offset_ma : R;
  _open_wire_mask : Z;
  _stuck_adc_mask : Z;
  _stuck_adc_values : list R;
  _ntc_fault_mask : Z;
  _current_sensor_fault : bool;
  _crc_error_rate : R;
  _fault_schedule : list FaultEvent;
  _start_time_ms : option R;
  _status_flags : Z;
  _measurement_count : Z;
  _crc_error_count : Z
}.

Definition put_open_wire_mask (v : Z) (self : t) : t :=
  mk (_voltage_noise_mv self) (_temp_noise_c self) (_current_noise_ma self)
     (_voltage_gain_errors self) (_voltage_offsets_mv self) (_temp_offsets_c self)
     (_current_gain_error self) (_current_offset_ma self) v (_stuck_adc_mask self)
     (_stuck_adc_values self) (_ntc_fault_mask self) (_current_sensor_fault self)
     (_crc_error_rate self) (_fault_schedule self) (_start_time_ms self) (_status_flags
     self) (_measurement_count self) (_crc_error_count self).

Definition put_stuck_adc_mask (v : Z) (self : t) : t :=
  mk (_voltage_noise_mv self) (_temp_noise_c self) (_current_noise_ma self)
     (_voltage_gain_errors self) (_voltage_offsets_mv self) (_temp_offsets_c self)
     (_current_gain_error self) (_current_offset_ma self) (_open_wire_mask self) v
     (_stuck_adc_values self) (_ntc_fault_mask self) (_current_sensor_fault self)
     (_crc_error_rate self) (_fault_schedule self) (_start_time_ms self) (_status_flags
     self) (_measurement_count self) (_crc_error_count self).

Definition put_stuck_adc_values (v : list R) (self : t) : t :=
  mk (_voltage_noise_mv self) (_temp_noise_c self) (_current_noise_ma self)
     (_voltage_gain_errors self) (_voltage_offsets_mv self) (_temp_offsets_c self)
     (_current_gain_error self) (_current_offset_ma self) (_open_wire_mask self)
     (_stuck_adc_mask self) v (_ntc_fault_mask self) (_current_sensor_fault self)
     (_crc_error_rate self) (_fault_schedule self) (_start_time_ms self) (_status_flags
     self) (_measurement_count self) (_crc_error_count self).

Definition put_ntc_fault_mask (v : Z) (self : t) : t :=
  mk (_voltage_noise_mv self) (_temp_noise_c self) (_current_noise_ma self)
     (_voltage_gain_errors self) (_voltage_offsets_mv self) (_temp_offsets_c self)
     (_current_gain_error self) (_current_offset_ma self) (_open_wire_mask self)
     (_stuck_adc_mask self) (_stuck_adc_values self) v (_current_sensor_fault self)
     (_crc_error_rate self) (_fault_schedule self) (_start_time_ms self) (_status_flags
     self) (_measurement_count self) (_crc_error_count self).

Definition put_current_sensor_fault (v : bool) (self : t) : t :=
  mk (_voltage_noise_mv self) (_temp_noise_c self) (_current_noise_ma self)
     (_voltage_gain_errors self) (_voltage_offsets_mv self) (_temp_offsets_c self)
     (_current_gain_error self) (_current_offset_ma self) (_open_wire_mask self)
     (_stuck_adc_mask self) (_stuck_adc_values self) (_ntc_fault_mask self) v
     (_crc_error_rate self) (_fault_schedule self) (_start_time_ms self) (_status_flags
     self) (_measurement_count self) (_crc_error_count self).

Definition put_crc_error_rate (v : R) (self : t) : t :=
  mk (_voltage_noise_mv self) (_temp_noise_c self) (_current_noise_ma self)
     (_voltage_gain_errors self) (_voltage_offsets_mv self) (_temp_offsets_c self)
     (_current_gain_error self) (_current_offset_ma self) (_open_wire_mask self)
     (_stuck_adc_mask self) (_stuck_adc_values self) (_ntc_fault_mask self)
     (_current_sensor_fault self) v (_fault_schedule self) (_start_time_ms self)
     (_status_flags self) (_measurement_count self) (_crc_error_count self).

Definition put_fault_schedule (v : list FaultEvent) (self : t) : t :=
  mk (_voltage_noise_mv self) (_temp_noise_c self) (_current_noise_ma self)
     (_voltage_gain_errors self) (_voltage_offsets_mv self) (_temp_offsets_c self)
     (_current_gain_error self) (_current_offset_ma self) (_open_wire_mask self)
     (_stuck_adc_mask self) (_stuck_adc_values self) (_ntc_fault_mask self)
     (_current_sensor_fault self) (_crc_error_rate self) v (_start_time_ms self)
     (_status_flags self) (_measurement_count self) (_crc_error_count self).

Definition put_start_time_ms (v : option R) (self : t) : t :=
  mk (_voltage_noise_mv self) (_temp_noise_c self) (_current_noise_ma self)
     (_voltage_gain_errors self) (_voltage_offsets_mv self) (_temp_offsets_c self)
     (_current_gain_error self) (_current_offset_ma self) (_open_wire_mask self)
     (_stuck_adc_mask self) (_stuck_adc_values self) (_ntc_fault_mask self)
     (_current_sensor_fault self) (_crc_error_rate self) (_fault_schedule self) v
     (_status_flags self) (_measurement_count self) (_crc_error_count self).

Definition put_status_flags (v : Z) (self : t) : t :=
  mk (_voltage_noise_mv self) (_temp_noise_c self) (_current_noise_ma self)
     (_voltage_gain_errors self) (_voltage_offsets_mv self) (_temp_offsets_c self)
     (_current_gain_error self) (_current_offset_ma self) (_open_wire_mask self)
     (_stuck_adc_mask self) (_stuck_adc_values self) (_ntc_fault_mask self)
     (_current_sensor_fault self) (_crc_error_rate self) (_fault_schedule self)
     (_start_time_ms self) v (_measurement_count self) (_crc_error_count self).

Definition put_measurement_count (v : Z) (self : t) : t :=
  mk (_voltage_noise_mv self) (_temp_noise_c self) (_current_noise_ma self)
     (_voltage_gain_errors self) (_voltage_offsets_mv self) (_temp_offsets_c self)
     (_current_gain_error self) (_current_offset_ma self) (_open_wire_mask self)
     (_stuck_adc_mask self) (_stuck_adc_values self) (_ntc_fault_mask self)
     (_current_sensor_fault self) (_crc_error_rate self) (_fault_schedule self)
     (_start_time_ms self) (_status_flags self) v (_crc_error_count self).

Definition put_crc_error_count (v : Z) (self : t) : t :=
  mk (_voltage_noise_mv self) (_temp_noise_c self) (_current_noise_ma self)
     (_voltage_gain_errors self) (_voltage_offsets_mv self) (_temp_offsets_c self)
     (_current_gain_error self) (_current_offset_ma self) (_open_wire_mask self)
     (_stuck_adc_mask self) (_stuck_adc_values self) (_ntc_fault_mask self)
     (_current_sensor_fault self) (_crc_error_rate self) (_fault_schedule self)
     (_start_time_ms self) (_status_flags self) (_measurement_count self) v.


(** Exceptions, and the outcome of a method call. *)
Inductive exception : Type := ValueError (msg : string).

Inductive result (A : Type) : Type :=
  | Ok (a : A)
  | Raise (e : exception).
Arguments Ok {A} a.
Arguments Raise {A} e.

(** A method runs on the wrapper and the world and leaves both behind, also
    when it raises: what it mutated before the exception stays mutated. *)
Definition M (A : Type) : Type := t * World -> result A * (t * World).

Definition ret {A : Type} (a : A) : M A := fun s => (Ok a, s).
Definition raise {A : Type} (e : exception) : M A := fun s => (Raise e, s).
Definition bind {A B : Type} (c : M A) (k : A -> M B) : M B :=
  fun s => match c s with
           | (Ok a, s') => k a s'
           | (Raise e, s') => (Raise e, s')
           end.

Notation "x <- c ;; k" := (bind c (fun x => k))
  (at level 61, c at next level, right associativity).
Notation "c ;;; k" := (bind c (fun _ => k)) (at level 61, right associativity).

Definition get_self : M t := fun s => (Ok (fst s), s).
Definition modify_self (f : t -> t) : M unit := fun s => (Ok tt, (f (fst s), snd s)).
Definition in_world {A : Type} (f : World -> A * World) : M A :=
  fun s => let (a, w) := f (snd s) in (Ok a, (fst s, w)).

(** The constructor: after the optional seeding, the calibration of every
    channel is drawn once from the process-wide generator. *)
Definition __init__ (noise_config : option NoiseConfig)
    (calibration_errors : option CalibrationErrors) (seed : option Z) (w : World)
    : t * World :=
  let w := np_random_seed seed w in
  let noise := match noise_config with
               | Some c => c
               | None => mk_noise None None None
               end in
  let calibration := match calibration_errors with
                     | Some c => c
                     | None => mk_calibration None None None None None
                     end in
  let voltage_gain_error :=
    dict_get (voltage_gain_error calibration) DEFAULT_VOLTAGE_GAIN_ERROR in
  let voltage_offset_mv :=
    dict_get (voltage_offset_mv calibration) DEFAULT_VOLTAGE_OFFSET_MV in
  let temp_offset_c := dict_get (temp_offset_c calibration) DEFAULT_TEMP_OFFSET_C in
  let current_gain_error :=
    dict_get (current_gain_error calibration) DEFAULT_CURRENT_GAIN_ERROR in
  let current_offset_ma :=
    dict_get (current_offset_ma calibration) DEFAULT_CURRENT_OFFSET_MA in
  let (voltage_gain_errors, w) :=
    np_random_uniform (1 - voltage_gain_error) (1 + voltage_gain_error) NUM_CELLS w in
  let (voltage_offsets_mv, w) :=
    np_random_uniform (- voltage_offset_mv) voltage_offset_mv NUM_CELLS w in
  let (temp_offsets_c, w) :=
    np_random_uniform (- temp_offset_c) temp_offset_c NUM_CELLS w in
  let (current_gain, w) :=
    np_random_uniform1 (1 - current_gain_error) (1 + current_gain_error) w in
  let (current_offset, w) :=
    np_random_uniform1 (- current_offset_ma) current_offset_ma w in
  ({| _voltage_noise_mv := dict_get (voltage_noise_mv noise) DEFAULT_VOLTAGE_NOISE_MV;
      _temp_noise_c := dict_get (temp_noise_c noise) DEFAULT_TEMP_NOISE_C;
      _current_noise_ma := dict_get (current_noise_ma noise) DEFAULT_CURRENT_NOISE_MA;
      _voltage_gain_errors := voltage_gain_errors;
      _voltage_offsets_mv := voltage_offsets_mv;
      _temp_offsets_c := temp_offsets_c;
      _current_gain_error := current_gain;
      _current_offset_ma := current_offset;
      _open_wire_mask := 0;
      _stuck_adc_mask := 0;
      _stuck_adc_values := np_zeros NUM_CELLS;
      _ntc_fault_mask := 0;
      _current_sensor_fault := false;
      _crc_error_rate := 0;
      _fault_schedule := [];
      _start_time_ms := None;
      _status_flags := 0;
      _measurement_count := 0;
      _crc_error_count := 0 |}, w).

(** The truth value of [mask & cell_mask]. *)
Definition mask_hit (mask cell_mask : Z) : bool := negb (Z.land mask cell_mask =? 0)%Z.

(** The body of the fault loop of [_process_voltages] for channel [i]: it
    rewrites item [i] of the measured voltages and maintains item [i] of
    the stuck-ADC values. *)
Definition voltage_fault_step (state : list R * t) (i : nat) : list R * t :=
  let (measured_voltages, self) := state in
  let cell_mask := Z.shiftl 1 (Z.of_nat i) in
  if mask_hit (_open_wire_mask self) cell_mask then
    (set_item measured_voltages i INVALID_VOLTAGE_MV, self)
  else if mask_hit (_stuck_adc_mask self) cell_mask then
    if Req_dec_T (nth i (_stuck_adc_values self) 0) 0 then
      (measured_voltages,
       put_stuck_adc_values
         (set_item (_stuck_adc_values self) i (nth i measured_voltages 0)) self)
    else
      (set_item measured_voltages i (nth i (_stuck_adc_values self) 0), self)
  else
    (measured_voltages,
     put_stuck_adc_values
       (set_item (_stuck_adc_values self) i (nth i measured_voltages 0)) self).

(** Quantization to the ADC grid: [np.round(x / resolution) * resolution]. *)
Definition quantize (resolution x : R) : R :=
  IZR (round_half_even (x / resolution)) * resolution.

(** [_process_voltages(true_voltages)]: calibration, noise, the fault loop,
    quantization, clipping. *)
Definition _process_voltages (true_voltages : list R) : M (list R) :=
  self <- get_self ;;
  let measured_voltages := true_voltages in
  let measured_voltages :=
    zip_with Rplus (zip_with Rmult measured_voltages (_voltage_gain_errors self))
      (_voltage_offsets_mv self) in
  noise <- in_world (np_random_normal 0 (_voltage_noise_mv self) NUM_CELLS) ;;
  let measured_voltages := zip_with Rplus measured_voltages noise in
  let (measured_voltages, self) :=
    fold_left voltage_fault_step (seq 0 NUM_CELLS) (measured_voltages, self) in
  modify_self (fun _ => self) ;;;
  let measured_voltages := map (quantize VOLTAGE_RESOLUTION_MV) measured_voltages in
  let measured_voltages := map (fun x => np_clip x 0 6553.5) measured_voltages in
  ret measured_voltages.

(** The body of the fault loop of [_process_temperatures] for channel [i]. *)
Definition ntc_fault_step (self : t) (measured_temps : list R) (i : nat) : list R :=
  let cell_mask := Z.shiftl 1 (Z.of_nat i) in
  if mask_hit (_ntc_fault_mask self) cell_mask
  then set_item measured_temps i (INVALID_TEMP_C / 100)
  else measured_temps.

(** [_process_temperatures(true_temps)]: the result is in centi-degrees, as
    int16. *)
Definition _process_temperatures (true_temps : list R) : M (list Z) :=
  self <- get_self ;;
  let measured_temps := true_temps in
  let measured_temps := zip_with Rplus measured_temps (_temp_offsets_c self) in
  noise <- in_world (np_random_normal 0 (_temp_noise_c self) NUM_CELLS) ;;
  let measured_temps := zip_with Rplus measured_temps noise in
  let measured_temps :=
    fold_left (ntc_fault_step self) (seq 0 NUM_CELLS) measured_temps in
  let measured_temps := map (quantize TEMPERATURE_RESOLUTION_C) measured_temps in
  let measured_temps_centi := map (fun x => astype_int16 (x * 100)) measured_temps in
  ret measured_temps_centi.

(** [_process_current(true_current)]. *)
Definition _process_current (true_current : R) : M R :=
  self <- get_self ;;
  let measured_current := true_current in
  let measured_current :=
    measured_current * _current_gain_error self + _current_offset_ma self in
  noise <- in_world (np_random_normal1 0 (_current_noise_ma self)) ;;
  let measured_current := measured_current + noise in
  let measured_current :=
    if _current_sensor_fault self then INVALID_CURRENT_MA else measured_current in
  let measured_current := quantize CURRENT_RESOLUTION_MA measured_current in
  ret measured_current.

(** The status word [_update_status_flags] builds from the measurements. *)
Definition status_word (self : t) (voltages : list R) (temps : list Z) (current : R) : Z :=
  let status_flags := 0%Z in
  let status_flags := Z.lor status_flags (_open_wire_mask self) in
  let status_flags :=
    fold_left
      (fun status_flags i =>
         if Req_dec_T (nth i voltages 0) INVALID_VOLTAGE_MV
         then Z.lor status_flags (Z.shiftl 1 (Z.of_nat i))
         else status_flags)
      (seq 0 NUM_CELLS) status_flags in
  let status_flags :=
    fold_left
      (fun status_flags i =>
         if (nth i temps 0 <=? -32000)%Z
         then Z.lor status_flags (Z.shiftl 1 (Z.of_nat (16 + i)))
         else status_flags)
      (seq 0 NUM_CELLS) status_flags in
  if _current_sensor_fault self || (if Req_dec_T current INVALID_CURRENT_MA then true else false)
  then Z.lor status_flags (Z.shiftl 1 30)
  else status_flags.

(** [_update_status_flags(voltages, temps, current)]. *)
Definition _update_status_flags (voltages : list R) (temps : list Z) (current : R)
    : M unit :=
  modify_self (fun self => put_status_flags (status_word self voltages temps current) self).

(** [_should_inject_crc_error()]: no number is drawn when the rate is not
    positive. *)
Definition _should_inject_crc_error : M bool :=
  self <- get_self ;;
  if Rle_dec (_crc_error_rate self) 0 then ret false
  else
    u <- in_world np_random_random ;;
    ret (if Rlt_dec u (_crc_error_rate self) then true else false).

(** [_get_current_time_ms()]: the clock is read only once the simulation
    has been started. *)
Definition _get_current_time_ms : M R :=
  self <- get_self ;;
  match _start_time_ms self with
  | None => ret 0
  | Some start => now <- in_world time_ms ;; ret (now - start)
  end.

(** [start_simulation()]. *)
Definition start_simulation : M unit :=
  now <- in_world time_ms ;;
  modify_self (put_start_time_ms (Some now)).

(** The coercion at the head of [inject_fault] and [clear_fault]: a string
    is lowered and looked up among the member values. *)
Definition coerce_fault_type (fault_type : fault_arg) : M FaultType :=
  match fault_type with
  | Enum f => ret f
  | Str s =>
      match FaultType_of_value (str_lower s) with
      | Some f => ret f
      | None => raise (ValueError ("Unknown fault type: " ++ s))
      end
  end.

(** [inject_fault(fault_type, cell_mask, duration_ms)]. *)
Definition inject_fault (fault_type : fault_arg) (cell_mask : option Z)
    (duration_ms : option R) : M unit :=
  fault_type <- coerce_fault_type fault_type ;;
  match fault_type with
  | OPEN_WIRE =>
      match cell_mask with
      | None => raise (ValueError "cell_mask required for open_wire fault")
      | Some m =>
          modify_self (fun self => put_open_wire_mask (Z.lor (_open_wire_mask self) m) self)
      end
  | STUCK_ADC =>
      match cell_mask with
      | None => raise (ValueError "cell_mask required for stuck_adc fault")
      | Some m =>
          modify_self (fun self => put_stuck_adc_mask (Z.lor (_stuck_adc_mask self) m) self)
      end
  | NTC_OPEN | NTC_SHORT =>
      match cell_mask with
      | None => raise (ValueError "cell_mask required for NTC fault")
      | Some m =>
          modify_self (fun self => put_ntc_fault_mask (Z.lor (_ntc_fault_mask self) m) self)
      end
  | CURRENT_SENSOR_FAULT => modify_self (put_current_sensor_fault true)
  | CRC_ERROR => ret tt
  end ;;;
  match duration_ms with
  | Some d =>
      current_time <- _get_current_time_ms ;;
      let clear_time := current_time + d in
      modify_self
        (fun self =>
           put_fault_schedule
             (_fault_schedule self
              ++ [mk_event (Enum fault_type) cell_mask None None None (Some clear_time)])
             self)
  | None => ret tt
  end.

(** [clear_fault(fault_type, cell_mask)]. *)
Definition clear_fault (fault_type : fault_arg) (cell_mask : option Z) : M unit :=
  fault_type <- coerce_fault_type fault_type ;;
  match fault_type with
  | OPEN_WIRE =>
      match cell_mask with
      | None => modify_self (put_open_wire_mask 0)
      | Some m =>
          modify_self
            (fun self => put_open_wire_mask (Z.land (_open_wire_mask self) (Z.lnot m)) self)
      end
  | STUCK_ADC =>
      match cell_mask with
      | None => modify_self (put_stuck_adc_mask 0)
      | Some m =>
          modify_self
            (fun self => put_stuck_adc_mask (Z.land (_stuck_adc_mask self) (Z.lnot m)) self)
      end
  | NTC_OPEN | NTC_SHORT =>
      match cell_mask with
      | None => modify_self (put_ntc_fault_mask 0)
      | Some m =>
          modify_self
            (fun self => put_ntc_fault_mask (Z.land (_ntc_fault_mask self) (Z.lnot m)) self)
      end
  | CURRENT_SENSOR_FAULT => modify_self (put_current_sensor_fault false)
  | CRC_ERROR => ret tt
  end.

(** [schedule_fault(fault_type, inject_time_ms, cell_mask, duration_ms)]:
    the fault type is stored as given. *)
Definition schedule_fault (fault_type : fault_arg) (inject_time_ms : R)
    (cell_mask : option Z) (duration_ms : option R) : M unit :=
  modify_self
    (fun self =>
       put_fault_schedule
         (_fault_schedule self
          ++ [mk_event fault_type cell_mask (Some inject_time_ms) duration_ms (Some false)
                None])
         self).

(** [set_crc_error_rate(error_rate)]. *)
Definition set_crc_error_rate (error_rate : R) : M unit :=
  if (if Rle_dec 0 error_rate then true else false)
     && (if Rle_dec error_rate 1 then true else false)
  then modify_self (put_crc_error_rate error_rate)
  else raise (ValueError "CRC error rate must be between 0.0 and 1.0").

(** The body of the loop of [_update_fault_schedule] for the event at
    position [k] of the schedule: the new [remaining_schedule].  Setting
    [injected] changes the dictionary that the schedule holds at [k]. *)
Definition visit_event (current_time : R) (k : nat) (fault_event : FaultEvent)
    (remaining_schedule : list FaultEvent) : M (list FaultEvent) :=
  let clear_or_keep (fault_event : FaultEvent) : M (list FaultEvent) :=
    match ev_clear_time_ms fault_event with
    | Some clear_time =>
        if Rge_dec current_time clear_time then
          clear_fault (ev_fault_type fault_event) (ev_cell_mask fault_event) ;;;
          ret remaining_schedule
        else ret (remaining_schedule ++ [fault_event])
    | None => ret (remaining_schedule ++ [fault_event])
    end in
  match ev_inject_time_ms fault_event with
  | Some inject_time =>
      if negb (match ev_injected fault_event with Some b => b | None => false end) then
        if Rge_dec current_time inject_time then
          inject_fault (ev_fault_type fault_event) (ev_cell_mask fault_event)
            (ev_duration_ms fault_event) ;;;
          let fault_event :=
            mk_event (ev_fault_type fault_event) (ev_cell_mask fault_event)
              (ev_inject_time_ms fault_event) (ev_duration_ms fault_event) (Some true)
              (ev_clear_time_ms fault_event) in
          modify_self
            (fun self => put_fault_schedule (set_item (_fault_schedule self) k fault_event)
                           self) ;;;
          match ev_duration_ms fault_event with
          | None => ret remaining_schedule
          | Some _ => clear_or_keep fault_event
          end
        else clear_or_keep fault_event
      else clear_or_keep fault_event
  | None => clear_or_keep fault_event
  end.

Fixpoint visit_events (current_time : R) (k : nat) (events : list FaultEvent)
    (remaining_schedule : list FaultEvent) : M (list FaultEvent) :=
  match events with
  | [] => ret remaining_schedule
  | fault_event :: rest =>
      remaining_schedule <- visit_event current_time k fault_event remaining_schedule ;;
      visit_events current_time (S k) rest remaining_schedule
  end.

(** [_update_fault_schedule()].  The loop runs over the schedule list
    itself, to which [inject_fault] appends while the loop is running; a
    Python list iterator also visits what is appended during the loop.  So
    the events present at the start are visited first, then the events
    appended meanwhile (each carries only [clear_time_ms], and visiting it
    appends nothing). *)
Definition _update_fault_schedule : M unit :=
  current_time <- _get_current_time_ms ;;
  self <- get_self ;;
  let present := _fault_schedule self in
  remaining_schedule <- visit_events current_time 0 present [] ;;
  self <- get_self ;;
  let appended := skipn (length present) (_fault_schedule self) in
  remaining_schedule <-
    visit_events current_time (length present) appended remaining_schedule ;;
  modify_self (put_fault_schedule remaining_schedule).

(** [apply_measurement(true_voltages, true_temps, true_current)]: measured
    voltages (mV), measured temperatures (centi-degrees, int16), measured
    current (mA) and the status word. *)
Definition apply_measurement (true_voltages true_temps : list R) (true_current : R)
    : M (list R * list Z * R * Z) :=
  modify_self (fun self => put_measurement_count (_measurement_count self + 1)%Z self) ;;;
  _update_fault_schedule ;;;
  measured_voltages <- _process_voltages true_voltages ;;
  measured_temps <- _process_temperatures true_temps ;;
  measured_current <- _process_current true_current ;;
  _update_status_flags measured_voltages measured_temps measured_current ;;;
  inject <- _should_inject_crc_error ;;
  (if inject : bool then
     modify_self
       (fun self =>
          let self := put_crc_error_count (_crc_error_count self + 1)%Z self in
          put_status_flags (Z.lor (_status_flags self) (Z.shiftl 1 31)) self)
   else ret tt) ;;;
  self <- get_self ;;
  ret (measured_voltages, measured_temps, measured_current, _status_flags self).

(** [get_status_flags()]. *)
Definition get_status_flags : M Z := self <- get_self ;; ret (_status_flags self).

(** [reset()]. *)
Definition reset : M unit :=
  modify_self
    (fun self =>
       let self := put_open_wire_mask 0 self in
       let self := put_stuck_adc_mask 0 self in
       let self := put_stuck_adc_values (map (fun _ => 0) (_stuck_adc_values self)) self in
       let self := put_ntc_fault_mask 0 self in
       let self := put_current_sensor_fault false self in
       let self := put_crc_error_rate 0 self in
       let self := put_fault_schedule [] self in
       let self := put_status_flags 0 self in
       let self := put_measurement_count 0 self in
       let self := put_crc_error_count 0 self in
       put_start_time_ms None self).

(** The dictionary returned by [get_statistics()]. *)
Record statistics_dict : Type := mk_statistics {
  measurement_count : Z;
  crc_error_count : Z;
  crc_error_rate : R;
  open_wire_mask : Z;
  stuck_adc_mask : Z;
  ntc_fault_mask : Z;
  current_sensor_fault : bool
}.

Definition get_statistics : M statistics_dict :=
  self <- get_self ;;
  ret {| measurement_count := _measurement_count self;
         crc_error_count := _crc_error_count self;
         crc_error_rate :=
           IZR (_crc_error_count self) / IZR (Z.max (_measurement_count self) 1);
         open_wire_mask := _open_wire_mask self;
         stuck_adc_mask := _stuck_adc_mask self;
         ntc_fault_mask := _ntc_fault_mask self;
         current_sensor_fault := _current_sensor_fault self |}.

End AFEWrapper.

(* ================================================================== *)
(** * Properties *)

(** ** Facts about the numeric primitives *)

Lemma np_clip_bounds (x lo hi : R) : lo <= hi -> lo <= np_clip x lo hi <= hi.
Proof.
  intros Hle. unfold np_clip, Rmin, Rmax.
  destruct (Rle_dec x lo); destruct (Rle_dec _ hi); lra.
Qed.

Lemma np_clip_below (x lo hi : R) : x <= lo -> lo <= hi -> np_clip x lo hi = lo.
Proof.
  intros Hx Hle. unfold np_clip, Rmin, Rmax.
  destruct (Rle_dec x lo); destruct (Rle_dec _ hi); lra.
Qed.

Lemma Rmax_floor (x m : R) : x <= m -> Rmax x m = m.
Proof. intros H. unfold Rmax. destruct (Rle_dec x m); lra. Qed.

Lemma Rabs_le_between (x b : R) : Rabs x <= b -> - b <= x <= b.
Proof. unfold Rabs. destruct (Rcase_abs x); lra. Qed.

Lemma Rabs_lt_between (x b : R) : Rabs x < b -> - b < x < b.
Proof. unfold Rabs. destruct (Rcase_abs x); lra. Qed.

(** ** The cell model: what each block of [update] leaves alone *)

Module CellFacts.
Import LiFePO4Cell.

(** The two derived attributes are the only ones [_update_aging] writes. *)
Lemma update_aging_frame (self : t) :
  _capacity_nominal_ah (_update_aging self) = _capacity_nominal_ah self
  /\ _soc (_update_aging self) = _soc self
  /\ _temperature_c (_update_aging self) = _temperature_c self
  /\ _base_resistance_multiplier (_update_aging self) = _base_resistance_multiplier self
  /\ _last_current_direction (_update_aging self) = _last_current_direction self
  /\ _hysteresis_soc (_update_aging self) = _hysteresis_soc self
  /\ _v_rc1 (_update_aging self) = _v_rc1 self
  /\ _v_rc2 (_update_aging self) = _v_rc2 self.
Proof. unfold _update_aging. cbn. repeat split. Qed.

Ltac split_ifs :=
  repeat match goal with
         | |- context [if ?b then _ else _] => destruct b
         | |- context [match ?o with Some _ => _ | None => _ end] => destruct o
         end.

Ltac frame_block f := unfold f; cbv zeta; split_ifs; cbn; repeat split; reflexivity.

Lemma thermal_frame (self : t) (I dt : R) (amb : option R) :
  let self' := _update_thermal_model self I dt amb in
  _capacity_nominal_ah self' = _capacity_nominal_ah self
  /\ _capacity_actual_ah self' = _capacity_actual_ah self
  /\ _resistance_multiplier self' = _resistance_multiplier self
  /\ _base_resistance_multiplier self' = _base_resistance_multiplier self
  /\ _soc self' = _soc self
  /\ _last_current_direction self' = _last_current_direction self
  /\ _hysteresis_soc self' = _hysteresis_soc self.
Proof. unfold _update_thermal_model. destruct amb; cbn; repeat split; reflexivity. Qed.

Lemma thermal_temperature_range (self : t) (I dt : R) (amb : option R) :
  -40 <= _temperature_c (_update_thermal_model self I dt amb) <= 85.
Proof.
  unfold _update_thermal_model. cbv zeta.
  cbn [_temperature_c set_temperature_c].
  apply np_clip_bounds. lra.
Qed.

Lemma update_temperature_frame (self : t) (I dt : R) (tc amb : option R) :
  let self' := update_temperature self I dt tc amb in
  _capacity_nominal_ah self' = _capacity_nominal_ah self
  /\ _capacity_actual_ah self' = _capacity_actual_ah self
  /\ _resistance_multiplier self' = _resistance_multiplier self
  /\ _base_resistance_multiplier self' = _base_resistance_multiplier self
  /\ _soc self' = _soc self
  /\ _last_current_direction self' = _last_current_direction self
  /\ _hysteresis_soc self' = _hysteresis_soc self.
Proof.
  unfold update_temperature. destruct tc.
  - cbn. repeat split; reflexivity.
  - apply thermal_frame.
Qed.

Lemma update_soc_frame (self : t) (I dt : R) :
  let self' := update_soc self I dt in
  _capacity_nominal_ah self' = _capacity_nominal_ah self
  /\ _capacity_actual_ah self' = _capacity_actual_ah self
  /\ _resistance_multiplier self' = _resistance_multiplier self
  /\ _base_resistance_multiplier self' = _base_resistance_multiplier self
  /\ _temperature_c self' = _temperature_c self
  /\ _last_current_direction self' = _last_current_direction self
  /\ _hysteresis_soc self' = _hysteresis_soc self.
Proof. unfold update_soc. cbn. repeat split; reflexivity. Qed.

Lemma update_hysteresis_frame (self : t) (d : Z) :
  let self' := update_hysteresis self d in
  _capacity_nominal_ah self' = _capacity_nominal_ah self
  /\ _capacity_actual_ah self' = _capacity_actual_ah self
  /\ _resistance_multiplier self' = _resistance_multiplier self
  /\ _base_resistance_multiplier self' = _base_resistance_multiplier self
  /\ _temperature_c self' = _temperature_c self
  /\ _soc self' = _soc self
  /\ _v_rc1 self' = _v_rc1 self
  /\ _v_rc2 self' = _v_rc2 self.
Proof. frame_block update_hysteresis. Qed.

Lemma update_rc_network_frame (self : t) (I dt : R) :
  let self' := update_rc_network self I dt in
  _capacity_nominal_ah self' = _capacity_nominal_ah self
  /\ _capacity_actual_ah self' = _capacity_actual_ah self
  /\ _resistance_multiplier self' = _resistance_multiplier self
  /\ _base_resistance_multiplier self' = _base_resistance_multiplier self
  /\ _temperature_c self' = _temperature_c self
  /\ _soc self' = _soc self
  /\ _last_current_direction self' = _last_current_direction self
  /\ _hysteresis_soc self' = _hysteresis_soc self.
Proof. unfold update_rc_network. cbn. repeat split; reflexivity. Qed.

Lemma update_calendar_aging_frame (self : t) (I dt : R) :
  let self' := update_calendar_aging self I dt in
  _capacity_nominal_ah self' = _capacity_nominal_ah self
  /\ _base_resistance_multiplier self' = _base_resistance_multiplier self
  /\ _temperature_c self' = _temperature_c self
  /\ _soc self' = _soc self
  /\ _last_current_direction self' = _last_current_direction self
  /\ _hysteresis_soc self' = _hysteresis_soc self
  /\ _v_rc1 self' = _v_rc1 self
  /\ _v_rc2 self' = _v_rc2 self.
Proof. frame_block update_calendar_aging. Qed.

(** The intermediate cells of one call to [update]. *)
Definition after_soc (self : t) (I dt : R) (tc amb : option R) : t :=
  update_soc (update_temperature self I dt tc amb) I dt.
Definition after_hysteresis (self : t) (I dt : R) (tc amb : option R) : t :=
  update_hysteresis (after_soc self I dt tc amb) (classify_direction I).
Definition after_rc (self : t) (I dt : R) (tc amb : option R) : t :=
  update_rc_network (after_hysteresis self I dt tc amb) I dt.

Lemma update_unfold (self : t) (I dt : R) (tc amb : option R) :
  update self I dt tc amb
  = (update_calendar_aging (after_rc self I dt tc amb) I dt,
     (terminal_voltage (after_rc self I dt tc amb) I (classify_direction I) * 1000,
      _soc (update_calendar_aging (after_rc self I dt tc amb) I dt) * 100)).
Proof. reflexivity. Qed.

Lemma update_final_temperature (self : t) (I dt : R) (tc amb : option R) :
  _temperature_c (fst (update self I dt tc amb))
  = _temperature_c (update_temperature self I dt tc amb).
Proof.
  rewrite update_unfold. cbn [fst].
  destruct (update_calendar_aging_frame (after_rc self I dt tc amb) I dt)
    as (_ & _ & -> & _).
  unfold after_rc.
  destruct (update_rc_network_frame (after_hysteresis self I dt tc amb) I dt)
    as (_ & _ & _ & _ & -> & _).
  unfold after_hysteresis.
  destruct (update_hysteresis_frame (after_soc self I dt tc amb) (classify_direction I))
    as (_ & _ & _ & _ & -> & _).
  unfold after_soc.
  destruct (update_soc_frame (update_temperature self I dt tc amb) I dt)
    as (_ & _ & _ & _ & -> & _).
  reflexivity.
Qed.

Lemma update_final_direction (self : t) (I dt : R) (tc amb : option R) :
  _last_current_direction (fst (update self I dt tc amb))
  = _last_current_direction (update_hysteresis (after_soc self I dt tc amb)
                               (classify_direction I))
  /\ _hysteresis_soc (fst (update self I dt tc amb))
     = _hysteresis_soc (update_hysteresis (after_soc self I dt tc amb)
                          (classify_direction I)).
Proof.
  rewrite update_unfold. cbn [fst].
  destruct (update_calendar_aging_frame (after_rc self I dt tc amb) I dt)
    as (_ & _ & _ & _ & -> & -> & _).
  unfold after_rc.
  destruct (update_rc_network_frame (after_hysteresis self I dt tc amb) I dt)
    as (_ & _ & _ & _ & _ & _ & -> & ->).
  split; reflexivity.
Qed.

Lemma after_soc_direction (self : t) (I dt : R) (tc amb : option R) :
  _last_current_direction (after_soc self I dt tc amb) = _last_current_direction self
  /\ _hysteresis_soc (after_soc self I dt tc amb) = _hysteresis_soc self.
Proof.
  unfold after_soc.
  destruct (update_soc_frame (update_temperature self I dt tc amb) I dt)
    as (_ & _ & _ & _ & _ & -> & ->).
  destruct (update_temperature_frame self I dt tc amb) as (_ & _ & _ & _ & _ & -> & ->).
  split; reflexivity.
Qed.

Lemma classify_direction_cases (I : R) :
  (I > 0.001 /\ classify_direction I = 1%Z)
  \/ (I < -0.001 /\ classify_direction I = (-1)%Z)
  \/ (-0.001 <= I <= 0.001 /\ classify_direction I = 0%Z).
Proof.
  unfold classify_direction.
  destruct (Rgt_dec I 0.001); [left; split; [assumption | reflexivity] |].
  destruct (Rlt_dec I (-0.001)); [right; left; split; [assumption | reflexivity] |].
  right; right. split; [lra | reflexivity].
Qed.

(** What [_update_aging] establishes, whatever the cell it starts from. *)
Lemma update_aging_floors (self : t) :
  1 <= _resistance_multiplier (_update_aging self)
  /\ (0 <= _capacity_nominal_ah self ->
      0.5 * _capacity_nominal_ah self <= _capacity_actual_ah (_update_aging self))
  /\ (0 < _capacity_nominal_ah self -> 0 < _capacity_actual_ah (_update_aging self)).
Proof.
  unfold _update_aging. cbv zeta.
  cbn [_resistance_multiplier _capacity_actual_ah _capacity_nominal_ah _cycles
       set_resistance_multiplier set_capacity_actual_ah].
  match goal with
  | |- context [Rmax ?x 0.5 * ?y] =>
      generalize (Rmax_r (Rmax x 0.5 * y) 0.5); generalize (Rmax (Rmax x 0.5 * y) 0.5)
  end.
  intros f Hf.
  assert (Hc : 0 <= IZR (Z.max (_cycles self) 0)).
  { apply IZR_le. apply Z.le_max_r. }
  unfold RESISTANCE_INCREASE_RATE.
  repeat split; intros; nra.
Qed.

Lemma update_calendar_aging_floors (self : t) (I dt : R) :
  let self' := update_calendar_aging self I dt in
  (1 <= _resistance_multiplier self -> 1 <= _resistance_multiplier self')
  /\ (0 <= _capacity_nominal_ah self ->
      0.5 * _capacity_nominal_ah self <= _capacity_actual_ah self ->
      0.5 * _capacity_nominal_ah self' <= _capacity_actual_ah self')
  /\ (0 < _capacity_nominal_ah self -> 0 < _capacity_actual_ah self ->
      0 < _capacity_actual_ah self').
Proof.
  unfold update_calendar_aging. cbv zeta.
  match goal with
  | |- context [_update_aging ?c] =>
      destruct (update_aging_floors c) as (Hr & Hc & Hp);
      destruct (update_aging_frame c) as (Hn & _);
      revert Hr Hc Hp Hn; generalize (_update_aging c)
  end.
  intros aged Hr Hc Hp Hn.
  destruct (Rgt_dec _ 1); destruct (Rlt_dec (Rabs I) 0.001);
    cbn in *; rewrite ?Hn; repeat split; auto.
Qed.

Lemma after_rc_parameters (self : t) (I dt : R) (tc amb : option R) :
  let self' := after_rc self I dt tc amb in
  _capacity_nominal_ah self' = _capacity_nominal_ah self
  /\ _capacity_actual_ah self' = _capacity_actual_ah self
  /\ _resistance_multiplier self' = _resistance_multiplier self
  /\ _base_resistance_multiplier self' = _base_resistance_multiplier self.
Proof.
  unfold after_rc.
  destruct (update_rc_network_frame (after_hysteresis self I dt tc amb) I dt)
    as (-> & -> & -> & -> & _).
  unfold after_hysteresis.
  destruct (update_hysteresis_frame (after_soc self I dt tc amb) (classify_direction I))
    as (-> & -> & -> & -> & _).
  unfold after_soc.
  destruct (update_soc_frame (update_temperature self I dt tc amb) I dt)
    as (-> & -> & -> & -> & _).
  destruct (update_temperature_frame self I dt tc amb) as (-> & -> & -> & -> & _).
  repeat split; reflexivity.
Qed.

(** The discharge branch at an empty cell. *)
Lemma interp_discharge_at_zero : np_interp 0 _ocv_points_discharge = 2.862.
Proof.
  unfold _ocv_points_discharge, soc_ocv_points, OCV_SOC_TABLE_DISCHARGE.
  cbn [map np_interp fst snd].
  destruct (Rle_dec 0 (0.0 / 100)) as [_ | H]; [reflexivity | exfalso; lra].
Qed.

Lemma get_ocv_discharging (self : t) :
  get_ocv self None None (Some (-1)%Z)
  = np_interp (_soc self) _ocv_points_discharge
    + OCV_TEMP_COEFF * (_temperature_c self - 25).
Proof. reflexivity. Qed.

(** At SOC 0 a discharge whose ohmic drop is large enough pins the terminal
    voltage to the floor, whatever the RC voltages are. *)
Lemma terminal_voltage_at_floor (self : t) (I : R) :
  _soc self = 0 ->
  -40 <= _temperature_c self <= 85 ->
  I < 0 ->
  1 <= _resistance_multiplier self ->
  700000 <= - I * _base_resistance_multiplier self ->
  terminal_voltage self I (-1) = MIN_VOLTAGE.
Proof.
  intros Hsoc HT HI Hres Hdrive.
  unfold terminal_voltage. cbv zeta. apply Rmax_floor.
  rewrite get_ocv_discharging, Hsoc, interp_discharge_at_zero.
  unfold get_internal_resistance. cbv zeta. rewrite Hsoc.
  destruct (Rle_dec 0 0.5) as [_ | H]; [| exfalso; lra].
  rewrite (Rmax_left (1 - 0.005 * (_temperature_c self - 25)) 0.5) by lra.
  rewrite (Rabs_left (I / 1000)) by lra.
  pose proof (Rabs_pos (_v_rc1 self)) as H1.
  pose proof (Rabs_pos (_v_rc2 self)) as H2.
  unfold OCV_TEMP_COEFF, MIN_VOLTAGE.
  set (T := _temperature_c self) in *.
  set (b := _base_resistance_multiplier self) in *.
  set (m := _resistance_multiplier self) in *.
  assert (Hq : 700000 <= - I * b * m) by nra.
  assert (Htf : 0.7 <= 1 - 0.005 * (T - 25)) by lra.
  assert (Hprod : (1 - 0.005 * (T - 25)) * 700000 <= (1 - 0.005 * (T - 25)) * (- I * b * m))
    by (apply Rmult_le_compat_l; lra).
  lra.
Qed.

(** Coulomb counting cannot lift an empty cell while it is discharged. *)
Lemma update_soc_stays_empty (self : t) (I dt : R) :
  _soc self = 0 ->
  0 < _capacity_actual_ah self ->
  -40 <= _temperature_c self <= 85 ->
  I <= 0 -> 0 <= dt ->
  _soc (update_soc self I dt) = 0.
Proof.
  intros Hsoc Hcap HT HI Hdt.
  unfold update_soc. cbv zeta. cbn [_soc set_soc].
  apply np_clip_below; [| lra].
  rewrite Hsoc, Rplus_0_l. unfold CAPACITY_TEMP_COEFF.
  set (q := _capacity_actual_ah self * (1 + 0.005 * (_temperature_c self - 25))).
  assert (Hq : 0 < q) by (unfold q; nra).
  assert (Hinv : 0 < / q) by (apply Rinv_0_lt_compat; exact Hq).
  unfold Rdiv at 1.
  assert (Hnum : I / 1000 * (dt / (1000 * 3600)) <= 0) by nra.
  nra.
Qed.

(** The attributes the constructor sets. *)
Lemma init_attributes (capacity_ah initial_soc temperature_c : R) (cycles : Z)
    (ambient_temp_c resistance_multiplier : R) :
  let self := __init__ capacity_ah initial_soc temperature_c cycles ambient_temp_c
                resistance_multiplier in
  _capacity_nominal_ah self = capacity_ah
  /\ _soc self = np_clip initial_soc 0 1
  /\ _temperature_c self = temperature_c
  /\ _base_resistance_multiplier self = Rmax resistance_multiplier 0.1
  /\ _last_current_direction self = 0%Z
  /\ _hysteresis_soc self = initial_soc
  /\ _v_rc1 self = 0
  /\ _v_rc2 self = 0.
Proof.
  cbv zeta. unfold __init__.
  match goal with
  | |- context [_update_aging ?c] =>
      destruct (update_aging_frame c) as (-> & -> & -> & -> & -> & -> & -> & ->)
  end.
  cbn. repeat split; reflexivity.
Qed.

(** The OCV read back after a step is the OCV the step itself used. *)
Lemma get_ocv_ext (a b : t) (soc_pct temperature_c : option R) (d : option Z) :
  _soc a = _soc b -> _temperature_c a = _temperature_c b ->
  _last_current_direction a = _last_current_direction b ->
  get_ocv a soc_pct temperature_c d = get_ocv b soc_pct temperature_c d.
Proof. intros H1 H2 H3. unfold get_ocv. rewrite H1, H2, H3. reflexivity. Qed.

Lemma get_ocv_stored_direction (self : t) (d : Z) :
  d = 0%Z \/ d = _last_current_direction self ->
  get_ocv self None None None = get_ocv self None None (Some d).
Proof.
  intros [-> | ->]; unfold get_ocv; cbn [Z.gtb Z.ltb Z.compare];
    destruct (_last_current_direction self >? 0)%Z;
    destruct (_last_current_direction self <? 0)%Z; reflexivity.
Qed.

Lemma update_hysteresis_direction (self : t) (d : Z) :
  d = 0%Z \/ d = _last_current_direction (update_hysteresis self d).
Proof.
  unfold update_hysteresis.
  destruct (Z.eqb_spec d 0) as [-> | Hd]; [left; reflexivity | right].
  cbn [negb andb].
  destruct (negb (d =? _last_current_direction self)%Z); reflexivity.
Qed.

Lemma update_returned_voltage (self : t) (I dt : R) (tc amb : option R) :
  let self' := fst (update self I dt tc amb) in
  let mid := after_rc self I dt tc amb in
  fst (snd (update self I dt tc amb))
  = Rmax (get_ocv self' None None None
          - Rabs (I / 1000) * (get_internal_resistance mid None None / 1000)
          - Rabs (_v_rc1 self') - Rabs (_v_rc2 self')) MIN_VOLTAGE * 1000.
Proof.
  cbv zeta. rewrite update_unfold. cbn [fst snd].
  destruct (update_calendar_aging_frame (after_rc self I dt tc amb) I dt)
    as (_ & _ & HT & Hs & Hd & _ & H1 & H2).
  rewrite H1, H2.
  rewrite (get_ocv_ext _ (after_rc self I dt tc amb) None None None Hs HT Hd).
  unfold terminal_voltage. cbv zeta.
  rewrite (get_ocv_stored_direction (after_rc self I dt tc amb) (classify_direction I)).
  - reflexivity.
  - unfold after_rc.
    destruct (update_rc_network_frame (after_hysteresis self I dt tc amb) I dt)
      as (_ & _ & _ & _ & _ & _ & -> & _).
    unfold after_hysteresis. apply update_hysteresis_direction.
Qed.

End CellFacts.

(** ** The cell model: the claims *)

Module CellClaims.
Import LiFePO4Cell CellFacts.

(** The cell built by the constructor's default arguments. *)
Definition default_cell : t := __init__ 100 0.5 25 0 25 1.

(** C5, as stated, fails: a forced temperature is stored as given, so a call
    with the forced temperature 100 leaves [temperature_c] at 100, outside
    [-40, 85]. *)
Lemma forced_temperature_escapes_range :
  ~ (forall (self : t) (current_ma dt_ms : R) (temperature_c ambient_temp_c : option R),
       -40 <= _temperature_c (fst (update self current_ma dt_ms temperature_c ambient_temp_c))
       <= 85).
Proof.
  intros H. specialize (H default_cell 0 100 (Some 100) None).
  rewrite update_final_temperature in H. cbn in H. lra.
Qed.

(** C5, amended: after every call to [update] without a forced temperature
    the stored temperature lies in [-40, 85]; a call that supplies a forced
    temperature stores exactly that value. *)
Theorem update_temperature_range (self : t) (current_ma dt_ms : R)
    (ambient_temp_c : option R) :
  -40 <= _temperature_c (fst (update self current_ma dt_ms None ambient_temp_c)) <= 85
  /\ forall forced : R,
       _temperature_c (fst (update self current_ma dt_ms (Some forced) ambient_temp_c))
       = forced.
Proof.
  split.
  - rewrite update_final_temperature. cbn [update_temperature].
    apply thermal_temperature_range.
  - intros forced. rewrite update_final_temperature. reflexivity.
Qed.

(** C6, as stated, fails: the dead zone of [update] ends at 0.001 mA, not at
    1 mA.  A current of 0.5 mA is below 1 mA in magnitude, yet it is
    classified as charging and a cell at rest changes direction. *)
Lemma half_milliamp_is_not_rest :
  Rabs 0.5 < 1
  /\ classify_direction 0.5 = 1%Z
  /\ _last_current_direction (fst (update default_cell 0.5 100 None None))
     <> _last_current_direction default_cell.
Proof.
  assert (Hd : classify_direction 0.5 = 1%Z).
  { destruct (classify_direction_cases 0.5) as [[_ E] | [[H _] | [[_ H] _]]];
      [exact E | lra | lra]. }
  split; [| split].
  - rewrite Rabs_right; lra.
  - exact Hd.
  - destruct (update_final_direction default_cell 0.5 100 None None) as [-> _].
    rewrite Hd. unfold update_hysteresis.
    destruct (after_soc_direction default_cell 0.5 100 None None) as [-> _].
    cbn. discriminate.
Qed.

(** C6, amended: the dead zone is |current_ma| <= 0.001 mA.  Inside it the
    step is Resting (direction 0) and [last_current_direction] and
    [hysteresis_soc] are left unchanged; outside it the direction is non-zero
    (1 above 0.001 mA, -1 below -0.001 mA) and becomes the stored
    [last_current_direction]; [hysteresis_soc] changes only when the new
    direction is non-zero and differs from the stored one. *)
Theorem update_direction_dead_zone (self : t) (current_ma dt_ms : R)
    (temperature_c ambient_temp_c : option R) :
  let self' := fst (update self current_ma dt_ms temperature_c ambient_temp_c) in
  let new_direction := classify_direction current_ma in
  (Rabs current_ma <= 0.001 ->
     new_direction = 0%Z
     /\ _last_current_direction self' = _last_current_direction self
     /\ _hysteresis_soc self' = _hysteresis_soc self)
  /\ (current_ma > 0.001 -> new_direction = 1%Z)
  /\ (current_ma < -0.001 -> new_direction = (-1)%Z)
  /\ (new_direction <> 0%Z -> _last_current_direction self' = new_direction)
  /\ (_hysteresis_soc self' <> _hysteresis_soc self ->
        new_direction <> 0%Z /\ new_direction <> _last_current_direction self).
Proof.
  intros self' d. subst self' d.
  destruct (update_final_direction self current_ma dt_ms temperature_c ambient_temp_c)
    as [-> ->].
  unfold update_hysteresis.
  destruct (after_soc_direction self current_ma dt_ms temperature_c ambient_temp_c)
    as [Hl Hh].
  rewrite Hl.
  destruct (classify_direction_cases current_ma) as [[Hi E] | [[Hi E] | [Hi E]]];
    rewrite E;
    (split; [intros Habs; apply Rabs_le_between in Habs | ]);
    try lra;
    repeat match goal with
           | |- _ /\ _ => split
           | |- _ -> _ => intro
           end;
    try lra; try reflexivity; try discriminate; try congruence.
  all: destruct (Z.eqb_spec 1 (_last_current_direction self));
    destruct (Z.eqb_spec (-1) (_last_current_direction self));
    cbn in *; try rewrite Hl in *; try rewrite Hh in *; try congruence; try lia.
Qed.

(** The dead zone at a concrete current: 0.0005 mA is Resting and leaves the
    hysteresis state of the default cell untouched. *)
Lemma update_direction_dead_zone_witness :
  classify_direction 0.0005 = 0%Z
  /\ _last_current_direction (fst (update default_cell 0.0005 100 None None))
     = _last_current_direction default_cell
  /\ _hysteresis_soc (fst (update default_cell 0.0005 100 None None))
     = _hysteresis_soc default_cell.
Proof.
  apply (update_direction_dead_zone default_cell 0.0005 100 None None).
  rewrite Rabs_right; lra.
Defined.

(** The constructor's cell has an aging multiplier of at least 1 and, for a
    positive nominal capacity, a positive actual capacity. *)
Lemma aging_floors_of_init (capacity_ah initial_soc temperature_c : R) (cycles : Z)
    (ambient_temp_c resistance_multiplier : R) :
  let self := __init__ capacity_ah initial_soc temperature_c cycles ambient_temp_c
                resistance_multiplier in
  1 <= _resistance_multiplier self
  /\ (0 < capacity_ah -> 0 < _capacity_actual_ah self).
Proof.
  cbv zeta. unfold __init__.
  match goal with
  | |- context [_update_aging ?c] => destruct (update_aging_floors c) as (Hr & _ & Hp)
  end.
  split; [exact Hr | exact Hp].
Qed.

Definition resistance_floor (self : t) : Prop := 1 <= _resistance_multiplier self.





(** A discharge step that is large for the cell [self]: the current is on
    the discharging side of the dead zone and, weighted by the cell's base
    resistance multiplier, at least 700 A (so -1,000,000 mA is large for
    every multiplier from 0.7 up). *)
Definition large_discharge (self : t) (step : R * R * option R) : Prop :=
  let '(current_ma, dt_ms, _) := step in
  0 <= dt_ms /\ current_ma < -0.001
  /\ 700000 <= - current_ma * _base_resistance_multiplier self.

Lemma empty_cell_step (self : t) (I dt : R) (amb : option R) :
  _soc self = 0 ->
  0 < _capacity_nominal_ah self -> 0 < _capacity_actual_ah self ->
  1 <= _resistance_multiplier self ->
  large_discharge self (I, dt, amb) ->
  let self' := fst (update self I dt None amb) in
  snd (update self I dt None amb) = (2500, 0)
  /\ _soc self' = 0
  /\ 0 < _capacity_nominal_ah self' /\ 0 < _capacity_actual_ah self'
  /\ 1 <= _resistance_multiplier self'
  /\ _base_resistance_multiplier self' = _base_resistance_multiplier self.
Proof.
  intros Hsoc Hnom Hact Hres (Hdt & HI & Hdrive). cbv zeta.
  rewrite update_unfold. cbn [fst snd].
  (* the cell after the thermal block *)
  pose proof (thermal_temperature_range self I dt amb) as HT.
  destruct (update_temperature_frame self I dt None amb)
    as (Hn1 & Ha1 & Hm1 & Hb1 & Hs1 & _).
  cbn [update_temperature] in *.
  (* Coulomb counting *)
  assert (Hs2 : _soc (after_soc self I dt None amb) = 0).
  { unfold after_soc. cbn [update_temperature].
    apply update_soc_stays_empty; try lra; rewrite ?Ha1, ?Hs1; assumption. }
  assert (HT2 : -40 <= _temperature_c (after_rc self I dt None amb) <= 85).
  { unfold after_rc.
    destruct (update_rc_network_frame (after_hysteresis self I dt None amb) I dt)
      as (_ & _ & _ & _ & -> & _).
    unfold after_hysteresis.
    destruct (update_hysteresis_frame (after_soc self I dt None amb)
                (classify_direction I)) as (_ & _ & _ & _ & -> & _).
    unfold after_soc.
    destruct (update_soc_frame (update_temperature self I dt None amb) I dt)
      as (_ & _ & _ & _ & -> & _).
    exact HT. }
  assert (Hs4 : _soc (after_rc self I dt None amb) = 0).
  { unfold after_rc.
    destruct (update_rc_network_frame (after_hysteresis self I dt None amb) I dt)
      as (_ & _ & _ & _ & _ & -> & _).
    unfold after_hysteresis.
    destruct (update_hysteresis_frame (after_soc self I dt None amb)
                (classify_direction I)) as (_ & _ & _ & _ & _ & -> & _).
    exact Hs2. }
  destruct (after_rc_parameters self I dt None amb) as (Hn4 & Ha4 & Hm4 & Hb4).
  destruct (update_calendar_aging_frame (after_rc self I dt None amb) I dt)
    as (Hn5 & Hb5 & _ & Hs5 & _).
  destruct (update_calendar_aging_floors (after_rc self I dt None amb) I dt)
    as (Hr5 & _ & Hp5).
  rewrite Hs5, Hs4, Hn5, Hb5, Hn4, Hb4.
  assert (Hdir : classify_direction I = (-1)%Z).
  { destruct (classify_direction_cases I) as [[H _] | [[_ E] | [[H _] _]]];
      [ lra | exact E | lra ]. }
  rewrite Hdir.
  assert (Hv : terminal_voltage (after_rc self I dt None amb) I (-1) = MIN_VOLTAGE).
  { apply terminal_voltage_at_floor; rewrite ?Hm4, ?Hb4; try assumption; lra. }
  rewrite Hv. unfold MIN_VOLTAGE.
  split; [f_equal; lra |].
  split; [reflexivity |].
  split; [assumption |].
  split; [apply Hp5; rewrite ?Hn4, ?Ha4; assumption |].
  split; [apply Hr5; rewrite ?Hm4; assumption | reflexivity].
Qed.


(** The scenario of the claim: a default cell built empty, driven at
    -1,000,000 mA in one hundred steps of 100 ms (10 s in total). *)
Definition empty_cell : t := __init__ 100 0 25 0 25 1.


End CellClaims.

(** ** Facts about lists used as arrays *)

Lemma set_item_at_end {A : Type} (pre rest : list A) (old v : A) :
  set_item (pre ++ old :: rest) (length pre) v = pre ++ v :: rest.
Proof.
  induction pre as [| x pre IH]; cbn; [reflexivity | now rewrite IH].
Qed.

Lemma length_set_item {A : Type} (l : list A) (i : nat) (v : A) :
  length (set_item l i v) = length l.
Proof.
  revert i. induction l as [| x l IH]; intros [| i]; cbn; auto.
Qed.

Lemma nth_set_item_same {A : Type} (l : list A) (i : nat) (v d : A) :
  (i < length l)%nat -> nth i (set_item l i v) d = v.
Proof.
  revert i. induction l as [| x l IH]; intros [| i] H; cbn in *; try lia; auto.
  apply IH. lia.
Qed.

Lemma nth_set_item_other {A : Type} (l : list A) (i j : nat) (v d : A) :
  i <> j -> nth j (set_item l i v) d = nth j l d.
Proof.
  revert i j. induction l as [| x l IH]; intros [| i] [| j] H; cbn; auto; try lia.
Qed.

Lemma fold_left_ext {A B : Type} (f g : A -> B -> A) (l : list B) (a : A) :
  (forall x y, f x y = g x y) -> fold_left f l a = fold_left g l a.
Proof.
  intros H. revert a. induction l as [| y l IH]; intros a; cbn; [reflexivity |].
  rewrite H. apply IH.
Qed.

(** A loop that assigns [g i x] to item [i] for each [(i, x)] of an
    enumeration fills the array with the values of [g]. *)
Lemma fill_loop {A : Type} (g : nat -> A -> R) (xs : list A) (pre rest : list R) :
  length rest = length xs ->
  fold_left (fun acc ix => set_item acc (fst ix) (g (fst ix) (snd ix)))
    (combine (seq (length pre) (length xs)) xs) (pre ++ rest)
  = pre ++ map (fun ix => g (fst ix) (snd ix)) (combine (seq (length pre) (length xs)) xs).
Proof.
  revert pre rest. induction xs as [| x xs IH]; intros pre rest Hlen.
  - destruct rest; [reflexivity | discriminate].
  - destruct rest as [| r rest]; [discriminate |].
    cbn [length seq combine fold_left map fst snd].
    rewrite set_item_at_end.
    replace (pre ++ g (length pre) x :: rest) with ((pre ++ [g (length pre) x]) ++ rest)
      by (rewrite <- app_assoc; reflexivity).
    replace (S (length pre)) with (length (pre ++ [g (length pre) x]))
      by (rewrite length_app; cbn; lia).
    rewrite IH by (cbn in Hlen; lia).
    rewrite <- app_assoc. reflexivity.
Qed.

Lemma np_sum_repeat (v : R) (n : nat) : np_sum (repeat v n) = INR n * v.
Proof.
  induction n as [| n IH].
  - cbn. lra.
  - cbn [repeat np_sum fold_right]. fold (np_sum (repeat v n)).
    rewrite IH, S_INR. lra.
Qed.

Lemma nth_error_map_enumerate {A B : Type} (f : nat * A -> B) (l : list A)
    (a i : nat) :
  nth_error (map f (combine (seq a (length l)) l)) i
  = option_map (fun x => f ((a + i)%nat, x)) (nth_error l i).
Proof.
  revert a i. induction l as [| x l IH]; intros a [| i]; cbn; try reflexivity.
  - now rewrite Nat.add_0_r.
  - rewrite IH. now rewrite Nat.add_succ_r.
Qed.

Lemma map_constant {A B : Type} (f : A -> B) (v : B) (l : list A) :
  (forall x, In x l -> f x = v) -> map f l = repeat v (length l).
Proof.
  induction l as [| x l IH]; intros H; cbn; [reflexivity |].
  rewrite H by (left; reflexivity). f_equal. apply IH. intros y Hy. apply H. now right.
Qed.

(** ** Facts about the random generator *)

(** A world whose generator always returns 0 and whose clock stands still. *)
Definition still_world : World :=
  mk_world [] (fun _ => 0) (fun _ _ => 0) 0 (fun _ => 0).


Lemma draws_length (k : draw_kind) (n : nat) (w : World) :
  length (fst (draws k n w)) = n.
Proof.
  revert w. induction n as [| n IH]; intros w; cbn; [reflexivity |].
  specialize (IH (snd (draw k w))).
  destruct (draws k n (snd (draw k w))) as [xs w'] eqn:E.
  cbn in *. unfold draw in E. cbn in E. rewrite E. cbn. now rewrite IH.
Qed.

Lemma np_random_normal_values (loc scale : R) (n : nat) (w : World) :
  fst (np_random_normal loc scale n w)
  = map (fun z => loc + scale * z) (fst (draws Gaussian n w)).
Proof. unfold np_random_normal. destruct (draws Gaussian n w). reflexivity. Qed.

Lemma np_random_uniform_values (low high : R) (n : nat) (w : World) :
  fst (np_random_uniform low high n w)
  = map (fun u => low + (high - low) * u) (fst (draws Uniform n w)).
Proof. unfold np_random_uniform. destruct (draws Uniform n w). reflexivity. Qed.

Lemma map_constant_n {A B : Type} (f : A -> B) (v : B) (l : list A) (n : nat) :
  length l = n -> (forall x, In x l -> f x = v) -> map f l = repeat v n.
Proof. intros <- H. now apply map_constant. Qed.

(** ** The pack model: the claims *)

Module PackClaims.
Import BatteryPack16S.

(** What the pack reports for cell [i]: the override if one is set, the
    [voltage_mv] entry of the cell's state otherwise. *)
Definition reading (self : t) (i : nat) (cell : LiFePO4Cell.t) : R :=
  match nth i (_fault_voltages self) None with
  | Some v => v
  | None => LiFePO4Cell.voltage_mv (LiFePO4Cell.get_state cell)
  end.

Lemma get_cell_voltages_readings (self : t) :
  length (_cells self) = NUM_CELLS ->
  get_cell_voltages self
  = map (fun ic => reading self (fst ic) (snd ic)) (enumerate (_cells self)).
Proof.
  intros Hlen. unfold get_cell_voltages, enumerate.
  rewrite (fold_left_ext _
             (fun acc ix => set_item acc (fst ix) (reading self (fst ix) (snd ix)))).
  - apply (fill_loop (reading self) (_cells self) [] (np_zeros NUM_CELLS)).
    unfold np_zeros. rewrite repeat_length. symmetry. exact Hlen.
  - intros acc [i cell]. unfold reading. cbn [fst snd].
    destruct (nth i (_fault_voltages self) None); reflexivity.
Qed.

(** C2: the pack voltage is the sum of the values [get_cell_voltages]
    returns, each of them the override when one is set and the cell's
    reading otherwise; when the 16 cells are in one and the same state and
    no override is set, it is exactly 16 times the single-cell voltage. *)
Theorem pack_voltage_is_sum_of_readings (self : t) :
  length (_cells self) = NUM_CELLS ->
  get_pack_voltage self = np_sum (get_cell_voltages self)
  /\ length (get_cell_voltages self) = 16%nat
  /\ (forall (i : nat) (cell : LiFePO4Cell.t),
        nth_error (_cells self) i = Some cell ->
        nth_error (get_cell_voltages self) i
        = Some (match nth i (_fault_voltages self) None with
                | Some v => v
                | None => LiFePO4Cell.voltage_mv (LiFePO4Cell.get_state cell)
                end))
  /\ (forall cell : LiFePO4Cell.t,
        _cells self = repeat cell NUM_CELLS ->
        (forall i : nat, nth i (_fault_voltages self) None = None) ->
        get_pack_voltage self
        = 16 * LiFePO4Cell.voltage_mv (LiFePO4Cell.get_state cell)).
Proof.
  intros Hlen. split; [reflexivity |].
  pose proof (get_cell_voltages_readings self Hlen) as Hread.
  split; [| split].
  - rewrite Hread, length_map. unfold enumerate.
    rewrite length_combine, length_seq, Hlen. reflexivity.
  - intros i cell Hi. rewrite Hread. unfold enumerate.
    rewrite nth_error_map_enumerate, Hi. reflexivity.
  - intros cell Hcells Hnone. unfold get_pack_voltage. rewrite Hread.
    rewrite (map_constant _ (LiFePO4Cell.voltage_mv (LiFePO4Cell.get_state cell))).
    + unfold enumerate. rewrite length_combine, length_seq, Hlen, Nat.min_id.
      rewrite np_sum_repeat. unfold NUM_CELLS. cbn [INR]. lra.
    + intros [i c] Hin. unfold reading. cbn [fst snd]. rewrite Hnone.
      unfold enumerate in Hin. apply in_combine_r in Hin.
      rewrite Hcells in Hin. apply repeat_spec in Hin. now subst c.
Qed.

(** A pack built with zero cell-to-cell variation holds 16 copies of one
    cell and no override, whatever the generator draws. *)
Lemma init_zero_variation (cell_capacity_ah initial_soc_pct ambient_temp_c
    thermal_coupling_coeff : R) (soc_calculation_mode : string) (seed : option Z)
    (w : World) :
  let self := fst (__init__ cell_capacity_ah initial_soc_pct ambient_temp_c 0 0 0
                     thermal_coupling_coeff soc_calculation_mode seed w) in
  _cells self
  = repeat (LiFePO4Cell.__init__ cell_capacity_ah (np_clip (initial_soc_pct / 100) 0 1)
              ambient_temp_c 0 25 1) NUM_CELLS
  /\ _fault_voltages self = repeat None NUM_CELLS.
Proof.
  cbv zeta. unfold __init__.
  set (w0 := np_random_seed seed w).
  pose proof (np_random_normal_values 1 (0 / 100) NUM_CELLS w0) as Hc.
  pose proof (draws_length Gaussian NUM_CELLS w0) as Hcl.
  destruct (np_random_normal 1 (0 / 100) NUM_CELLS w0) as [cv w1].
  pose proof (np_random_normal_values 0 (0 / 100) NUM_CELLS w1) as Hs.
  pose proof (draws_length Gaussian NUM_CELLS w1) as Hsl.
  destruct (np_random_normal 0 (0 / 100) NUM_CELLS w1) as [sv w2].
  pose proof (np_random_uniform_values (1 - 0) (1 + 0) NUM_CELLS w2) as Hr.
  pose proof (draws_length Uniform NUM_CELLS w2) as Hrl.
  destruct (np_random_uniform (1 - 0) (1 + 0) NUM_CELLS w2) as [rv w3].
  cbn [fst snd _cells _fault_voltages] in *. split; [| reflexivity].
  assert (Hcv : map (fun x => np_clip x 0.98 1.02) cv = repeat 1 NUM_CELLS).
  { rewrite Hc, map_map.
    apply map_constant_n; [exact Hcl |]. intros z _.
    replace (1 + 0 / 100 * z) with 1 by lra.
    unfold np_clip, Rmin, Rmax.
    destruct (Rle_dec 1 0.98); destruct (Rle_dec _ 1.02); lra. }
  assert (Hsv : map (fun x => np_clip x 0 1)
                  (map (fun x => initial_soc_pct / 100 + x) sv)
                = repeat (np_clip (initial_soc_pct / 100) 0 1) NUM_CELLS).
  { rewrite Hs, !map_map.
    apply map_constant_n; [exact Hsl |]. intros z _. f_equal. lra. }
  assert (Hrv : rv = repeat 1 NUM_CELLS).
  { rewrite Hr.
    apply map_constant_n; [exact Hrl |]. intros u _. lra. }
  rewrite Hcv, Hsv, Hrv.
  apply map_constant_n; [apply length_seq |]. intros i Hi. apply in_seq in Hi.
  rewrite !nth_repeat_lt by lia.
  f_equal. lra.
Qed.

(** A pack of 100 Ah cells at 50 percent SOC and 25 degrees, built with zero
    variation. *)
Definition uniform_pack : t :=
  fst (__init__ 100 50 25 0 0 0 0.1 "minimum" (Some 42%Z) still_world).
Definition uniform_cell : LiFePO4Cell.t :=
  LiFePO4Cell.__init__ 100 (np_clip (50 / 100) 0 1) 25 0 25 1.

Lemma uniform_pack_cells :
  _cells uniform_pack = repeat uniform_cell NUM_CELLS
  /\ _fault_voltages uniform_pack = repeat None NUM_CELLS.
Proof. apply init_zero_variation. Qed.

Lemma pack_voltage_is_sum_of_readings_witness :
  get_pack_voltage uniform_pack
  = 16 * LiFePO4Cell.voltage_mv (LiFePO4Cell.get_state uniform_cell).
Proof.
  destruct uniform_pack_cells as [Hcells Hfaults].
  assert (Hlen : length (_cells uniform_pack) = NUM_CELLS)
    by (rewrite Hcells; apply repeat_length).
  destruct (pack_voltage_is_sum_of_readings uniform_pack Hlen) as (_ & _ & _ & Hsame).
  apply Hsame; [exact Hcells |].
  intros i. rewrite Hfaults. apply nth_repeat.
Defined.

(** The state an empty cell is left in by one large discharge step, and the
    voltage the pack would read from it. *)
Lemma empty_cell_reading_above_floor :
  let step := LiFePO4Cell.update CellClaims.empty_cell (-1000000) 100 None None in
  fst (snd step) = 2500
  /\ 2832 <= LiFePO4Cell.voltage_mv (LiFePO4Cell.get_state (fst step)).
Proof.
  cbv zeta.
  destruct (CellFacts.init_attributes 100 0 25 0%Z 25 1)
    as (Hn & Hs & _ & Hb & _).
  destruct (CellClaims.aging_floors_of_init 100 0 25 0%Z 25 1) as [Hr Hp].
  assert (Hsoc : LiFePO4Cell._soc CellClaims.empty_cell = 0).
  { unfold CellClaims.empty_cell. rewrite Hs. apply np_clip_below; lra. }
  assert (Hstep : CellClaims.large_discharge CellClaims.empty_cell (-1000000, 100, None)).
  { unfold CellClaims.large_discharge, CellClaims.empty_cell. rewrite Hb.
    rewrite (Rmax_left 1 0.1) by lra. lra. }
  destruct (CellClaims.empty_cell_step CellClaims.empty_cell (-1000000) 100 None Hsoc)
    as (Hout & Hsoc' & _); try assumption.
  { unfold CellClaims.empty_cell. rewrite Hn. lra. }
  { apply Hp. lra. }
  split; [rewrite Hout; reflexivity |].
  unfold LiFePO4Cell.get_state. cbn [LiFePO4Cell.voltage_mv].
  destruct (CellFacts.update_final_direction CellClaims.empty_cell (-1000000) 100 None None)
    as [Hdir _].
  assert (Hcls : LiFePO4Cell.classify_direction (-1000000) = (-1)%Z).
  { destruct (CellFacts.classify_direction_cases (-1000000))
      as [[H _] | [[_ E] | [[H _] _]]]; [lra | exact E | lra]. }
  rewrite Hcls in Hdir.
  destruct (CellFacts.update_hysteresis_direction
              (CellFacts.after_soc CellClaims.empty_cell (-1000000) 100 None None) (-1))
    as [H0 | Hlast]; [discriminate |].
  rewrite <- Hlast in Hdir.
  rewrite (CellFacts.get_ocv_stored_direction _ (-1)) by (right; symmetry; exact Hdir).
  rewrite CellFacts.get_ocv_discharging, Hsoc', CellFacts.interp_discharge_at_zero.
  rewrite CellFacts.update_final_temperature. cbn [LiFePO4Cell.update_temperature].
  pose proof (CellFacts.thermal_temperature_range CellClaims.empty_cell (-1000000) 100 None)
    as HT.
  unfold LiFePO4Cell.OCV_TEMP_COEFF. lra.
Qed.

(** C10: without an override the pack reads, for each cell, the cell's
    open-circuit voltage in mV, and the pack voltage is the sum of these;
    the terminal voltage that the cell's [update] returns is that same
    open-circuit voltage less the ohmic drop and the two RC voltages,
    floored at 2.5 V, so the drops are absent from the pack's readings.  On
    the empty cell under a 1000 A discharge the two differ: the call
    returns 2500 mV and the reading is at least 2832 mV. *)
Theorem readings_are_open_circuit_voltages :
  (forall (self : t) (i : nat) (cell : LiFePO4Cell.t),
      length (_cells self) = NUM_CELLS ->
      nth_error (_cells self) i = Some cell ->
      nth i (_fault_voltages self) None = None ->
      nth_error (get_cell_voltages self) i
      = Some (LiFePO4Cell.get_ocv cell None None None * 1000))
  /\ (forall self : t,
        length (_cells self) = NUM_CELLS ->
        (forall i : nat, nth i (_fault_voltages self) None = None) ->
        get_pack_voltage self
        = np_sum (map (fun cell => LiFePO4Cell.get_ocv cell None None None * 1000)
                    (_cells self)))
  /\ (forall (cell : LiFePO4Cell.t) (current_ma dt_ms : R)
             (temperature_c ambient_temp_c : option R),
        let step := LiFePO4Cell.update cell current_ma dt_ms temperature_c ambient_temp_c in
        let cell' := fst step in
        let r0_mohm :=
          LiFePO4Cell.get_internal_resistance
            (CellFacts.after_rc cell current_ma dt_ms temperature_c ambient_temp_c)
            None None in
        fst (snd step)
        = Rmax (LiFePO4Cell.voltage_mv (LiFePO4Cell.get_state cell') / 1000
                - Rabs (current_ma / 1000) * (r0_mohm / 1000)
                - Rabs (LiFePO4Cell._v_rc1 cell') - Rabs (LiFePO4Cell._v_rc2 cell'))
            2.5 * 1000)
  /\ (let step := LiFePO4Cell.update CellClaims.empty_cell (-1000000) 100 None None in
      fst (snd step) < LiFePO4Cell.voltage_mv (LiFePO4Cell.get_state (fst step))).
Proof.
  split; [| split; [| split]].
  - intros self i cell Hlen Hi Hnone.
    rewrite (get_cell_voltages_readings self Hlen). unfold enumerate.
    rewrite nth_error_map_enumerate, Hi. cbn [option_map fst snd Nat.add].
    unfold reading. rewrite Hnone. reflexivity.
  - intros self Hlen Hnone. unfold get_pack_voltage.
    rewrite (get_cell_voltages_readings self Hlen). f_equal.
    unfold enumerate. clear Hlen. generalize 0%nat.
    induction (_cells self) as [| c cs IH]; intros a; cbn; [reflexivity |].
    rewrite IH. f_equal. unfold reading. rewrite Hnone. reflexivity.
  - intros cell I dt tc amb. cbv zeta.
    rewrite (CellFacts.update_returned_voltage cell I dt tc amb).
    unfold LiFePO4Cell.get_state, LiFePO4Cell.MIN_VOLTAGE. cbn [LiFePO4Cell.voltage_mv].
    f_equal. f_equal. lra.
  - destruct empty_cell_reading_above_floor as [Hv Hr]. cbv zeta. lra.
Qed.

(** The first reading of the zero-variation pack is the OCV of its cell. *)
Lemma readings_are_open_circuit_voltages_witness :
  nth_error (get_cell_voltages uniform_pack) 0
  = Some (LiFePO4Cell.get_ocv uniform_cell None None None * 1000).
Proof.
  destruct uniform_pack_cells as [Hcells Hfaults].
  destruct readings_are_open_circuit_voltages as (Hread & _).
  apply Hread.
  - rewrite Hcells. apply repeat_length.
  - rewrite Hcells. reflexivity.
  - rewrite Hfaults. reflexivity.
Defined.

End PackClaims.

(** ** Facts about rounding *)

Lemma Int_part_IZR (z : Z) : Int_part (IZR z) = z.
Proof.
  destruct (base_Int_part (IZR z)) as [Hle Hgt].
  apply le_IZR in Hle.
  assert (Hlt : (z - 1 < Int_part (IZR z))%Z).
  { apply lt_IZR. rewrite minus_IZR. lra. }
  lia.
Qed.

Lemma round_half_even_IZR (z : Z) : round_half_even (IZR z) = z.
Proof.
  unfold round_half_even. rewrite Int_part_IZR.
  destruct (Rlt_dec (IZR z - IZR z) (1 / 2)) as [_ | H]; [reflexivity | exfalso; lra].
Qed.

Lemma truncate_IZR (z : Z) : truncate (IZR z) = z.
Proof.
  unfold truncate. destruct (Rle_dec 0 (IZR z)).
  - apply Int_part_IZR.
  - rewrite <- opp_IZR, Int_part_IZR. lia.
Qed.

(** ** Facts about bit flags *)

Lemma testbit_one_shift (n m : Z) :
  (0 <= n)%Z -> Z.testbit (Z.shiftl 1 n) m = (m =? n)%Z.
Proof.
  intros Hn. rewrite Z.shiftl_1_l, Z.pow2_bits_eqb by exact Hn.
  apply Z.eqb_sym.
Qed.

(** A loop that sets bit [k + i] for every [i] of [l] satisfying [cond]. *)
Lemma flag_loop_bits (cond : nat -> bool) (k : nat) (l : list nat) (acc b : Z) :
  Z.testbit
    (fold_left
       (fun acc i => if cond i then Z.lor acc (Z.shiftl 1 (Z.of_nat (k + i))) else acc)
       l acc) b
  = Z.testbit acc b || existsb (fun i => cond i && (b =? Z.of_nat (k + i))%Z) l.
Proof.
  revert acc. induction l as [| i l IH]; intros acc; cbn [fold_left existsb].
  - now rewrite orb_false_r.
  - rewrite IH. destruct (cond i); cbn [andb orb].
    + rewrite Z.lor_spec, testbit_one_shift by lia. now rewrite orb_assoc.
    + reflexivity.
Qed.

Lemma existsb_seq_pick (cond : nat -> bool) (k c a n : nat) :
  existsb (fun i => cond i && (Z.of_nat (k + c) =? Z.of_nat (k + i))%Z) (seq a n)
  = if ((a <=? c) && (c <? a + n))%nat then cond c else false.
Proof.
  revert a. induction n as [| n IH]; intros a; cbn [seq existsb].
  - replace (c <? a + 0)%nat with (c <? a)%nat by (f_equal; lia).
    destruct (Nat.leb_spec a c); destruct (Nat.ltb_spec c a); cbn; try reflexivity; lia.
  - rewrite IH.
    destruct (Z.eqb_spec (Z.of_nat (k + c)) (Z.of_nat (k + a))) as [E | E].
    + assert (c = a) by lia. subst c.
      rewrite Nat.leb_refl.
      replace (a <? a + S n)%nat with true by (symmetry; apply Nat.ltb_lt; lia).
      replace (S a <=? a)%nat with false by (symmetry; apply Nat.leb_gt; lia).
      cbn. now rewrite andb_true_r, orb_false_r.
    + rewrite andb_false_r. cbn [orb].
      assert (c <> a) by (intros ->; apply E; reflexivity).
      destruct (Nat.leb_spec a c); destruct (Nat.leb_spec (S a) c);
        destruct (Nat.ltb_spec c (a + S n)); destruct (Nat.ltb_spec c (S a + n));
        cbn; try reflexivity; lia.
Qed.

Lemma existsb_seq_miss (cond : nat -> bool) (k a n : nat) (b : Z) :
  (forall i, (a <= i < a + n)%nat -> b <> Z.of_nat (k + i)) ->
  existsb (fun i => cond i && (b =? Z.of_nat (k + i))%Z) (seq a n) = false.
Proof.
  intros H. apply not_true_is_false. intros Hex.
  apply existsb_exists in Hex. destruct Hex as (i & Hin & Hi).
  apply in_seq in Hin. apply andb_true_iff in Hi. destruct Hi as [_ Hi].
  apply Z.eqb_eq in Hi. exact (H i Hin Hi).
Qed.


(** ** The AFE wrapper: running methods *)

Module AFEFacts.
Import AFEWrapper.

Lemma bind_ok {A B : Type} (c : M A) (k : A -> M B) (s s' : t * World) (b : B) :
  bind c k s = (Ok b, s') ->
  exists (a : A) (s1 : t * World), c s = (Ok a, s1) /\ k a s1 = (Ok b, s').
Proof.
  unfold bind. destruct (c s) as [[a | e] s1]; intros H.
  - exists a, s1. split; [reflexivity | exact H].
  - discriminate.
Qed.

Lemma run_eq {A : Type} (c : M A) (s s1 s2 : t * World) (a1 a2 : A) :
  c s = (Ok a1, s1) -> c s = (Ok a2, s2) -> a1 = a2 /\ s1 = s2.
Proof. intros H1 H2. rewrite H1 in H2. injection H2 as -> ->. split; reflexivity. Qed.

Lemma bind_run {A B : Type} (c : M A) (k : A -> M B) (s s1 : t * World) (a : A) :
  c s = (Ok a, s1) -> bind c k s = k a s1.
Proof. unfold bind. intros ->. reflexivity. Qed.

(** A method keeps an attribute [f] when every run, normal or not, leaves
    [f] of the wrapper as it was. *)
Definition keeps {A X : Type} (f : t -> X) (c : M A) : Prop :=
  forall s : t * World, f (fst (snd (c s))) = f (fst s).

Lemma keeps_ret {A X : Type} (f : t -> X) (a : A) : keeps f (ret a).
Proof. intros s. reflexivity. Qed.

Lemma keeps_raise {A X : Type} (f : t -> X) (e : exception) : keeps f (@raise A e).
Proof. intros s. reflexivity. Qed.

Lemma keeps_get_self {X : Type} (f : t -> X) : keeps f get_self.
Proof. intros s. reflexivity. Qed.

Lemma keeps_in_world {A X : Type} (f : t -> X) (g : World -> A * World) :
  keeps f (in_world g).
Proof. intros s. unfold in_world. destruct (g (snd s)). reflexivity. Qed.

Lemma keeps_modify_self {X : Type} (f : t -> X) (g : t -> t) :
  (forall self, f (g self) = f self) -> keeps f (modify_self g).
Proof. intros H s. cbn. apply H. Qed.

Lemma keeps_bind {A B X : Type} (f : t -> X) (c : M A) (k : A -> M B) :
  keeps f c -> (forall a, keeps f (k a)) -> keeps f (bind c k).
Proof.
  intros Hc Hk s. unfold bind. specialize (Hc s).
  destruct (c s) as [[a | e] s1]; cbn in *.
  - rewrite Hk. exact Hc.
  - exact Hc.
Qed.

(** *** The fault loop of [_process_voltages] *)

(** [but_stuck a b]: the wrapper [a] is [b] up to the stuck-ADC values. *)
Definition but_stuck (a b : t) : Prop := a = put_stuck_adc_values (_stuck_adc_values a) b.

Lemma but_stuck_refl (a : t) : but_stuck a a.
Proof. destruct a. reflexivity. Qed.

Lemma but_stuck_put (x : list R) (a : t) : but_stuck (put_stuck_adc_values x a) a.
Proof. reflexivity. Qed.

Lemma but_stuck_trans (a b c : t) : but_stuck a b -> but_stuck b c -> but_stuck a c.
Proof. unfold but_stuck. intros -> ->. reflexivity. Qed.

Lemma but_stuck_masks (a b : t) :
  but_stuck a b ->
  _open_wire_mask a = _open_wire_mask b /\ _stuck_adc_mask a = _stuck_adc_mask b.
Proof. intros ->. split; reflexivity. Qed.

Definition open_wire_at (self : t) (i : nat) : bool :=
  mask_hit (_open_wire_mask self) (Z.shiftl 1 (Z.of_nat i)).
Definition stuck_adc_at (self : t) (i : nat) : bool :=
  mask_hit (_stuck_adc_mask self) (Z.shiftl 1 (Z.of_nat i)).

Lemma voltage_fault_step_facts (m : list R) (self : t) (i : nat) :
  let st := voltage_fault_step (m, self) i in
  but_stuck (snd st) self
  /\ length (fst st) = length m
  /\ (forall j, j <> i -> nth j (fst st) 0 = nth j m 0)
  /\ (open_wire_at self i = true -> (i < length m)%nat ->
      nth i (fst st) 0 = INVALID_VOLTAGE_MV)
  /\ (open_wire_at self i = false -> stuck_adc_at self i = false -> fst st = m).
Proof.
  cbv zeta. unfold voltage_fault_step, open_wire_at, stuck_adc_at.
  destruct (mask_hit (_open_wire_mask self) _);
    [| destruct (mask_hit (_stuck_adc_mask self) _);
       [destruct (Req_dec_T _ _) |]];
    cbn [fst snd];
    repeat split;
    try apply but_stuck_refl; try apply but_stuck_put;
    try apply length_set_item;
    try (intros j Hj; apply nth_set_item_other; congruence);
    try discriminate;
    try (intros _ Hi; apply nth_set_item_same; exact Hi).
Qed.

Lemma voltage_fault_loop_facts (l : list nat) (m : list R) (self : t) :
  let st := fold_left voltage_fault_step l (m, self) in
  but_stuck (snd st) self
  /\ length (fst st) = length m
  /\ (forall j, ~ In j l -> nth j (fst st) 0 = nth j m 0)
  /\ (forall j, open_wire_at self j = true -> In j l -> (j < length m)%nat ->
        nth j (fst st) 0 = INVALID_VOLTAGE_MV)
  /\ (forall j, open_wire_at self j = false -> stuck_adc_at self j = false ->
        nth j (fst st) 0 = nth j m 0).
Proof.
  revert m self. induction l as [| i l IH]; intros m self; cbv zeta.
  - cbn. repeat split; auto using but_stuck_refl. intros j _ [].
  - cbn [fold_left].
    destruct (voltage_fault_step_facts m self i) as (Hs1 & Hl1 & Ho1 & Hw1 & Hc1).
    destruct (voltage_fault_step (m, self) i) as [m1 self1]. cbn [fst snd] in *.
    destruct (IH m1 self1) as (Hs & Hl & Ho & Hw & Hc).
    destruct (but_stuck_masks self1 self Hs1) as [Hmo Hms].
    split; [eapply but_stuck_trans; eassumption |].
    split; [congruence |].
    split; [| split].
    + intros j Hj. rewrite Ho by (intros Hin; apply Hj; now right).
      apply Ho1. intros ->. apply Hj. now left.
    + intros j Hopen Hin Hlt.
      destruct (in_dec Nat.eq_dec j l) as [Hjl | Hjl].
      * apply Hw; [| exact Hjl | congruence].
        unfold open_wire_at in *. now rewrite Hmo.
      * destruct Hin as [-> | Hin]; [| contradiction].
        rewrite Ho by exact Hjl. now apply Hw1.
    + intros j Hopen Hstuck.
      rewrite Hc by (unfold open_wire_at, stuck_adc_at in *; congruence).
      destruct (Nat.eq_dec j i) as [-> | Hne].
      * now rewrite Hc1.
      * now apply Ho1.
Qed.

(** *** What the fault schedule leaves alone *)

(** An attribute is blind to fault handling when no write to a fault mask,
    to the current-sensor flag or to the schedule changes it. *)
Definition fault_blind {X : Type} (f : t -> X) : Prop :=
  (forall v a, f (put_open_wire_mask v a) = f a)
  /\ (forall v a, f (put_stuck_adc_mask v a) = f a)
  /\ (forall v a, f (put_ntc_fault_mask v a) = f a)
  /\ (forall v a, f (put_current_sensor_fault v a) = f a)
  /\ (forall v a, f (put_fault_schedule v a) = f a).

Ltac keeps_step :=
  match goal with
  | |- keeps _ (bind _ _) => apply keeps_bind; [| intros ?]
  | |- keeps _ (ret _) => apply keeps_ret
  | |- keeps _ (raise _) => apply keeps_raise
  | |- keeps _ get_self => apply keeps_get_self
  | |- keeps _ (in_world _) => apply keeps_in_world
  | |- keeps _ (modify_self _) => apply keeps_modify_self; intros ?; auto
  | |- keeps _ (match ?x with _ => _ end) => destruct x
  end.

Lemma keeps_coerce_fault_type {X : Type} (f : t -> X) (ft : fault_arg) :
  keeps f (coerce_fault_type ft).
Proof. unfold coerce_fault_type. repeat keeps_step. Qed.

Lemma keeps_get_current_time_ms {X : Type} (f : t -> X) : keeps f _get_current_time_ms.
Proof. unfold _get_current_time_ms. repeat keeps_step. Qed.

Lemma keeps_inject_fault {X : Type} (f : t -> X) (ft : fault_arg) (cell_mask : option Z)
    (duration_ms : option R) :
  fault_blind f -> keeps f (inject_fault ft cell_mask duration_ms).
Proof.
  intros (H1 & H2 & H3 & H4 & H5). unfold inject_fault.
  apply keeps_bind; [apply keeps_coerce_fault_type | intros ty].
  apply keeps_bind; [destruct ty; repeat keeps_step | intros _].
  destruct duration_ms; [| apply keeps_ret].
  apply keeps_bind; [apply keeps_get_current_time_ms | intros now].
  apply keeps_modify_self. auto.
Qed.

Lemma keeps_clear_fault {X : Type} (f : t -> X) (ft : fault_arg) (cell_mask : option Z) :
  fault_blind f -> keeps f (clear_fault ft cell_mask).
Proof.
  intros (H1 & H2 & H3 & H4 & H5). unfold clear_fault.
  apply keeps_bind; [apply keeps_coerce_fault_type | intros ty].
  destruct ty; repeat keeps_step.
Qed.

Lemma keeps_visit_event {X : Type} (f : t -> X) (now : R) (k : nat) (ev : FaultEvent)
    (remaining : list FaultEvent) :
  fault_blind f -> keeps f (visit_event now k ev remaining).
Proof.
  intros Hf. pose proof Hf as (H1 & H2 & H3 & H4 & H5). unfold visit_event.
  assert (Hclear : forall e : FaultEvent,
             keeps f
               (match ev_clear_time_ms e with
                | Some clear_time =>
                    if Rge_dec now clear_time
                    then clear_fault (ev_fault_type e) (ev_cell_mask e) ;;; ret remaining
                    else ret (remaining ++ [e])
                | None => ret (remaining ++ [e])
                end)).
  { intros e. destruct (ev_clear_time_ms e) as [ct |]; [| apply keeps_ret].
    destruct (Rge_dec now ct); [| apply keeps_ret].
    apply keeps_bind; [apply keeps_clear_fault; exact Hf | intros _; apply keeps_ret]. }
  destruct (ev_inject_time_ms ev) as [it |]; [| apply Hclear].
  destruct (negb _); [| apply Hclear].
  destruct (Rge_dec now it); [| apply Hclear].
  apply keeps_bind; [apply keeps_inject_fault; exact Hf | intros _].
  apply keeps_bind; [apply keeps_modify_self; auto | intros _].
  cbn [ev_duration_ms].
  destruct (ev_duration_ms ev); [apply (Hclear (mk_event _ _ _ _ _ _)) | apply keeps_ret].
Qed.

Lemma keeps_visit_events {X : Type} (f : t -> X) (now : R) (events : list FaultEvent)
    (k : nat) (remaining : list FaultEvent) :
  fault_blind f -> keeps f (visit_events now k events remaining).
Proof.
  intros Hf. revert k remaining.
  induction events as [| ev events IH]; intros k remaining; cbn [visit_events].
  - apply keeps_ret.
  - apply keeps_bind; [apply keeps_visit_event; exact Hf | intros r; apply IH].
Qed.

Lemma keeps_update_fault_schedule {X : Type} (f : t -> X) :
  fault_blind f -> keeps f _update_fault_schedule.
Proof.
  intros Hf. pose proof Hf as (H1 & H2 & H3 & H4 & H5). unfold _update_fault_schedule.
  apply keeps_bind; [apply keeps_get_current_time_ms | intros now].
  apply keeps_bind; [apply keeps_get_self | intros self].
  apply keeps_bind; [apply keeps_visit_events; exact Hf | intros r1].
  apply keeps_bind; [apply keeps_get_self | intros self2].
  apply keeps_bind; [apply keeps_visit_events; exact Hf | intros r2].
  apply keeps_modify_self. auto.
Qed.

Lemma crc_error_count_fault_blind : fault_blind _crc_error_count.
Proof. repeat split. Qed.

(** *** The status word, bit by bit *)

Definition volt_invalid (voltages : list R) (i : nat) : bool :=
  if Req_dec_T (nth i voltages 0) INVALID_VOLTAGE_MV then true else false.
Definition temp_invalid (temps : list Z) (i : nat) : bool :=
  (nth i temps 0 <=? -32000)%Z.
Definition current_flag (self : t) (current : R) : bool :=
  _current_sensor_fault self
  || (if Req_dec_T current INVALID_CURRENT_MA then true else false).

Lemma status_word_bits (self : t) (voltages : list R) (temps : list Z) (current : R)
    (b : Z) :
  Z.testbit (status_word self voltages temps current) b
  = Z.testbit (_open_wire_mask self) b
    || existsb (fun i => volt_invalid voltages i && (b =? Z.of_nat (0 + i))%Z)
         (seq 0 NUM_CELLS)
    || existsb (fun i => temp_invalid temps i && (b =? Z.of_nat (16 + i))%Z)
         (seq 0 NUM_CELLS)
    || (current_flag self current && (b =? 30)%Z).
Proof.
  unfold status_word. cbv zeta.
  fold (current_flag self current).
  rewrite (fold_left_ext
             (fun acc i => if Req_dec_T (nth i voltages 0) INVALID_VOLTAGE_MV
                           then Z.lor acc (Z.shiftl 1 (Z.of_nat i)) else acc)
             (fun acc i => if volt_invalid voltages i
                           then Z.lor acc (Z.shiftl 1 (Z.of_nat (0 + i))) else acc)
             (seq 0 NUM_CELLS))
    by (intros acc i; unfold volt_invalid; destruct (Req_dec_T _ _); reflexivity).
  change (fun (status_flags : Z) (i : nat) =>
            if (nth i temps 0 <=? -32000)%Z
            then Z.lor status_flags (Z.shiftl 1 (Z.of_nat (16 + i)))
            else status_flags)
    with (fun (acc : Z) (i : nat) =>
            if temp_invalid temps i
            then Z.lor acc (Z.shiftl 1 (Z.of_nat (16 + i))) else acc).
  destruct (current_flag self current); cbn [andb].
  - rewrite Z.lor_spec, testbit_one_shift by lia.
    rewrite !flag_loop_bits. rewrite Z.lor_spec. cbn [Z.testbit]. rewrite Z.testbit_0_l.
    reflexivity.
  - rewrite orb_false_r.
    rewrite !flag_loop_bits. rewrite Z.lor_spec. rewrite Z.testbit_0_l.
    reflexivity.
Qed.


Lemma status_word_high_bit (self : t) (voltages : list R) (temps : list Z) (current : R)
    (c : nat) :
  (c < 16)%nat ->
  Z.testbit (status_word self voltages temps current) (Z.of_nat (16 + c))
  = Z.testbit (_open_wire_mask self) (Z.of_nat (16 + c))
    || temp_invalid temps c
    || (current_flag self current && (c =? 14)%nat).
Proof.
  intros Hc. rewrite status_word_bits.
  rewrite (existsb_seq_miss (volt_invalid voltages) 0 0 NUM_CELLS)
    by (unfold NUM_CELLS; intros i Hi; lia).
  rewrite (existsb_seq_pick (temp_invalid temps) 16 c 0 NUM_CELLS).
  replace ((0 <=? c)%nat && (c <? 0 + NUM_CELLS)%nat) with true
    by (symmetry; apply andb_true_iff; split;
        [apply Nat.leb_le; lia | apply Nat.ltb_lt; unfold NUM_CELLS; lia]).
  rewrite orb_false_r.
  replace (Z.of_nat (16 + c) =? 30)%Z with (c =? 14)%nat; [reflexivity |].
  destruct (Nat.eqb_spec c 14) as [-> | Hne]; symmetry;
    [reflexivity | apply Z.eqb_neq; lia].
Qed.

(** *** The stages of [apply_measurement] *)

(** The calibrated and noised voltages, before the fault loop. *)
Definition raw_voltages (true_voltages : list R) (s : t * World) : list R :=
  zip_with Rplus
    (zip_with Rplus (zip_with Rmult true_voltages (_voltage_gain_errors (fst s)))
       (_voltage_offsets_mv (fst s)))
    (fst (np_random_normal 0 (_voltage_noise_mv (fst s)) NUM_CELLS (snd s))).

(** Quantization and clipping of one voltage. *)
Definition to_adc (x : R) : R := np_clip (quantize VOLTAGE_RESOLUTION_MV x) 0 6553.5.

Lemma process_voltages_run (true_voltages : list R) (s : t * World) :
  let st := fold_left voltage_fault_step (seq 0 NUM_CELLS)
              (raw_voltages true_voltages s, fst s) in
  _process_voltages true_voltages s
  = (Ok (map to_adc (fst st)),
     (snd st, snd (np_random_normal 0 (_voltage_noise_mv (fst s)) NUM_CELLS (snd s)))).
Proof.
  cbv zeta. unfold _process_voltages, raw_voltages, bind, get_self, in_world, modify_self, ret.
  destruct s as [self w]. cbn [fst snd].
  destruct (np_random_normal 0 (_voltage_noise_mv self) NUM_CELLS w) as [noise w'].
  cbn [fst snd].
  destruct (fold_left voltage_fault_step (seq 0 NUM_CELLS) _) as [m self'].
  cbn [fst snd]. rewrite map_map. reflexivity.
Qed.

Lemma to_adc_zero : to_adc 0 = 0.
Proof.
  unfold to_adc, quantize, VOLTAGE_RESOLUTION_MV.
  replace (0 / 0.1) with (IZR 0) by lra.
  rewrite round_half_even_IZR.
  apply np_clip_below; lra.
Qed.

Lemma nth_to_adc (m : list R) (j : nat) : nth j (map to_adc m) 0 = to_adc (nth j m 0).
Proof. rewrite <- to_adc_zero at 1. apply map_nth. Qed.

(** The temperatures before the NTC loop, and the loop itself. *)
Definition raw_temperatures (true_temps : list R) (s : t * World) : list R :=
  zip_with Rplus (zip_with Rplus true_temps (_temp_offsets_c (fst s)))
    (fst (np_random_normal 0 (_temp_noise_c (fst s)) NUM_CELLS (snd s))).

Definition to_centi (x : R) : Z := astype_int16 (quantize TEMPERATURE_RESOLUTION_C x * 100).

Definition temperature_readings (true_temps : list R) (s : t * World) : list Z :=
  map to_centi
    (fold_left (ntc_fault_step (fst s)) (seq 0 NUM_CELLS) (raw_temperatures true_temps s)).

Lemma process_temperatures_run (true_temps : list R) (self : t) (w : World) :
  _process_temperatures true_temps (self, w)
  = (Ok (temperature_readings true_temps (self, w)),
     (self, snd (np_random_normal 0 (_temp_noise_c self) NUM_CELLS w))).
Proof.
  unfold _process_temperatures, temperature_readings, raw_temperatures,
    bind, get_self, in_world, ret.
  cbn [fst snd].
  destruct (np_random_normal 0 (_temp_noise_c self) NUM_CELLS w) as [noise w'].
  cbn [fst snd]. rewrite map_map. reflexivity.
Qed.

Definition current_reading (true_current : R) (s : t * World) : R :=
  quantize CURRENT_RESOLUTION_MA
    (if _current_sensor_fault (fst s) then INVALID_CURRENT_MA
     else true_current * _current_gain_error (fst s) + _current_offset_ma (fst s)
          + fst (np_random_normal1 0 (_current_noise_ma (fst s)) (snd s))).

Lemma process_current_run (true_current : R) (self : t) (w : World) :
  _process_current true_current (self, w)
  = (Ok (current_reading true_current (self, w)),
     (self, snd (np_random_normal1 0 (_current_noise_ma self) w))).
Proof.
  unfold _process_current, current_reading, bind, get_self, in_world, ret.
  cbn [fst snd].
  destruct (np_random_normal1 0 (_current_noise_ma self) w) as [noise w'].
  reflexivity.
Qed.

Lemma should_inject_crc_error_run (self : t) (w : World) :
  exists (inject : bool) (w' : World),
    _should_inject_crc_error (self, w) = (Ok inject, (self, w')).
Proof.
  unfold _should_inject_crc_error, bind, get_self, in_world, ret.
  cbn [fst snd].
  destruct (Rle_dec (_crc_error_rate self) 0).
  - eexists. eexists. reflexivity.
  - destruct (np_random_random w) as [u w']. eexists. eexists. reflexivity.
Qed.

Lemma update_status_flags_run (voltages : list R) (temps : list Z) (current : R)
    (self : t) (w : World) :
  _update_status_flags voltages temps current (self, w)
  = (Ok tt, (put_status_flags (status_word self voltages temps current) self, w)).
Proof. reflexivity. Qed.

(** The wrapper a successful [apply_measurement] leaves behind, and the
    status word it returns, in terms of the wrapper [measured] on which the
    status flags are computed. *)
Definition with_flags (measured : t) (voltages : list R) (temps : list Z) (current : R)
    (inject : bool) : t :=
  let flagged := put_status_flags (status_word measured voltages temps current) measured in
  if inject then
    put_status_flags (Z.lor (_status_flags flagged) (Z.shiftl 1 31))
      (put_crc_error_count (_crc_error_count flagged + 1)%Z flagged)
  else flagged.

Lemma apply_measurement_ok (true_voltages true_temps : list R) (true_current : R)
    (s s' : t * World) (voltages : list R) (temps : list Z) (current : R) (status : Z) :
  apply_measurement true_voltages true_temps true_current s
  = (Ok (voltages, temps, current, status), s') ->
  exists (s2 : t * World) (measured : t) (w3 w4 : World) (inject : bool),
    _update_fault_schedule
      (put_measurement_count (_measurement_count (fst s) + 1)%Z (fst s), snd s)
    = (Ok tt, s2)
    /\ _process_voltages true_voltages s2 = (Ok voltages, (measured, w3))
    /\ temps = temperature_readings true_temps (measured, w3)
    /\ current = current_reading true_current (measured, w4)
    /\ fst s' = with_flags measured voltages temps current inject
    /\ status = _status_flags (fst s').
Proof.
  intros H. unfold apply_measurement in H.
  apply bind_ok in H. destruct H as (u1 & s1 & H1 & H).
  unfold modify_self in H1. injection H1 as _ <-.
  apply bind_ok in H. destruct H as ([] & s2 & H2 & H).
  apply bind_ok in H. destruct H as (mv & [measured w3] & H3 & H).
  apply bind_ok in H. destruct H as (mt & s4 & H4 & H).
  apply bind_ok in H. destruct H as (mi & s5 & H5 & H).
  apply bind_ok in H. destruct H as (u6 & s6 & H6 & H).
  apply bind_ok in H. destruct H as (inject & s7 & H7 & H).
  apply bind_ok in H. destruct H as (u8 & s8 & H8 & H).
  apply bind_ok in H. destruct H as (self9 & s9 & H9 & H).
  unfold get_self in H9. injection H9 as <- <-.
  unfold ret in H. injection H as <- <- <- <- <-.
  destruct (run_eq _ _ _ _ _ _ H4 (process_temperatures_run true_temps measured w3))
    as [Emt ->].
  destruct (run_eq _ _ _ _ _ _ H5 (process_current_run true_current measured _))
    as [Emi ->].
  destruct (run_eq _ _ _ _ _ _ H6 (update_status_flags_run _ _ _ measured _))
    as [_ ->].
  match type of H7 with
  | _ (?a, ?w) = _ => destruct (should_inject_crc_error_run a w) as (inj' & w7 & Hi)
  end.
  destruct (run_eq _ _ _ _ _ _ H7 Hi) as [-> ->].
  exists s2, measured, w3, (snd (np_random_normal 0 (_temp_noise_c measured) NUM_CELLS w3)),
    inj'.
  split; [exact H2 |].
  split; [exact H3 |].
  split; [exact Emt |].
  split; [exact Emi |].
  unfold with_flags. cbv zeta.
  destruct inj'.
  - unfold modify_self in H8. injection H8 as _ <-. split; reflexivity.
  - unfold ret in H8. injection H8 as _ <-. split; reflexivity.
Qed.




Lemma with_flags_attributes (measured : t) (voltages : list R) (temps : list Z)
    (current : R) (inject : bool) :
  let self' := with_flags measured voltages temps current inject in
  _open_wire_mask self' = _open_wire_mask measured
  /\ _stuck_adc_mask self' = _stuck_adc_mask measured
  /\ _current_sensor_fault self' = _current_sensor_fault measured
  /\ _fault_schedule self' = _fault_schedule measured
  /\ _voltage_gain_errors self' = _voltage_gain_errors measured
  /\ _voltage_offsets_mv self' = _voltage_offsets_mv measured
  /\ _crc_error_count self'
     = (_crc_error_count measured + (if inject then 1 else 0))%Z
  /\ _status_flags self'
     = (if inject
        then Z.lor (status_word measured voltages temps current) (Z.shiftl 1 31)
        else status_word measured voltages temps current).
Proof.
  cbv zeta. unfold with_flags.
  generalize (status_word measured voltages temps current). intros word.
  destruct inject;
    cbn [_open_wire_mask _stuck_adc_mask _current_sensor_fault _fault_schedule
         _voltage_gain_errors _voltage_offsets_mv _crc_error_count _status_flags
         put_status_flags put_crc_error_count];
    repeat split; try reflexivity.
  symmetry. apply Z.add_0_r.
Qed.

Lemma process_voltages_inv (true_voltages : list R) (s : t * World) (voltages : list R)
    (measured : t) (w3 : World) :
  _process_voltages true_voltages s = (Ok voltages, (measured, w3)) ->
  but_stuck measured (fst s)
  /\ length voltages = length (raw_voltages true_voltages s)
  /\ (forall j, open_wire_at (fst s) j = true -> (j < NUM_CELLS)%nat ->
        (j < length (raw_voltages true_voltages s))%nat ->
        nth j voltages 0 = INVALID_VOLTAGE_MV)
  /\ (forall j, open_wire_at (fst s) j = false -> stuck_adc_at (fst s) j = false ->
        nth j voltages 0 = to_adc (nth j (raw_voltages true_voltages s) 0)).
Proof.
  intros H.
  pose proof (process_voltages_run true_voltages s) as Hrun. cbv zeta in Hrun.
  destruct (run_eq _ _ _ _ _ _ H Hrun) as [Ev Es].
  destruct (voltage_fault_loop_facts (seq 0 NUM_CELLS) (raw_voltages true_voltages s) (fst s))
    as (Hs & Hl & _ & Hw & Hc).
  revert Ev Es Hs Hl Hw Hc.
  generalize (fold_left voltage_fault_step (seq 0 NUM_CELLS)
                (raw_voltages true_voltages s, fst s)).
  intros [m self'] Ev Es Hs Hl Hw Hc. cbn [fst snd] in *.
  assert (Eself : measured = self') by exact (f_equal fst Es).
  subst measured voltages. clear Es.
  split; [exact Hs |].
  split; [rewrite length_map; exact Hl |].
  split.
  - intros j Hopen Hj Hlen. rewrite nth_to_adc.
    rewrite Hw; [apply to_adc_zero | exact Hopen | apply in_seq; lia | exact Hlen].
  - intros j Hopen Hstuck. rewrite nth_to_adc. now rewrite Hc.
Qed.

Lemma get_current_time_ms_run (self : t) (w : World) :
  exists (now : R) (w' : World), _get_current_time_ms (self, w) = (Ok now, (self, w')).
Proof.
  unfold _get_current_time_ms.
  rewrite (bind_run get_self _ (self, w) (self, w) self) by reflexivity.
  destruct (_start_time_ms self) as [start |].
  - unfold bind, in_world, ret. cbn [fst snd]. destruct (time_ms w) as [now w'].
    exists (now - start), w'. reflexivity.
  - exists 0, w. reflexivity.
Qed.

(** With nothing scheduled, [_update_fault_schedule] changes nothing in
    the wrapper; the world is the one left by the clock reading. *)
Definition world_after_clock (self : t) (w : World) : World :=
  snd (snd (_get_current_time_ms (self, w))).

Lemma update_fault_schedule_idle (self : t) (w : World) :
  _fault_schedule self = [] ->
  _update_fault_schedule (self, w) = (Ok tt, (self, world_after_clock self w)).
Proof.
  intros Hs.
  assert (Hself : put_fault_schedule [] self = self)
    by (destruct self; cbn in Hs; subst; reflexivity).
  unfold world_after_clock.
  destruct (get_current_time_ms_run self w) as (now & w' & Hnow).
  rewrite Hnow. cbn [snd]. unfold _update_fault_schedule.
  rewrite (bind_run _ _ _ _ _ Hnow).
  rewrite (bind_run get_self _ (self, w') (self, w') self) by reflexivity.
  rewrite Hs. cbn [visit_events].
  rewrite (bind_run (ret []) _ (self, w') (self, w') []) by reflexivity.
  rewrite (bind_run get_self _ (self, w') (self, w') self) by reflexivity.
  rewrite Hs. cbn [length skipn visit_events].
  rewrite (bind_run (ret []) _ (self, w') (self, w') []) by reflexivity.
  unfold modify_self. cbn [fst snd]. rewrite Hself. reflexivity.
Qed.

Lemma status_word_ext (a b : t) (voltages : list R) (temps : list Z) (current : R) :
  _open_wire_mask a = _open_wire_mask b ->
  _current_sensor_fault a = _current_sensor_fault b ->
  status_word a voltages temps current = status_word b voltages temps current.
Proof. intros H1 H2. unfold status_word. rewrite H1, H2. reflexivity. Qed.

(** The status word a successful call returns, read off the wrapper it
    leaves behind: the word built from the measurements, with bit 31 added
    exactly when the CRC error count went up. *)
Lemma returned_status (true_voltages true_temps : list R) (true_current : R)
    (s s' : t * World) (voltages : list R) (temps : list Z) (current : R) (status : Z) :
  apply_measurement true_voltages true_temps true_current s
  = (Ok (voltages, temps, current, status), s') ->
  exists inject : bool,
    _crc_error_count (fst s') = (_crc_error_count (fst s) + (if inject then 1 else 0))%Z
    /\ status = _status_flags (fst s')
    /\ status = (if inject
                 then Z.lor (status_word (fst s') voltages temps current) (Z.shiftl 1 31)
                 else status_word (fst s') voltages temps current).
Proof.
  intros H.
  destruct (apply_measurement_ok _ _ _ _ _ _ _ _ _ H)
    as (s2 & measured & w3 & w4 & inject & H2 & H3 & _ & _ & Hs' & Hst).
  exists inject.
  destruct (with_flags_attributes measured voltages temps current inject)
    as (Ho & _ & Hc & _ & _ & _ & Hn & Hf).
  rewrite <- Hs' in Ho, Hc, Hn, Hf.
  destruct (process_voltages_inv _ _ _ _ _ H3) as (Hb & _).
  assert (Hcount2 : _crc_error_count measured = _crc_error_count (fst s2))
    by (rewrite Hb; reflexivity).
  pose proof (keeps_update_fault_schedule _crc_error_count crc_error_count_fault_blind
                (put_measurement_count (_measurement_count (fst s) + 1)%Z (fst s), snd s))
    as Hk.
  rewrite H2 in Hk. cbn [fst snd] in Hk.
  split; [rewrite Hn, Hcount2, Hk; reflexivity |].
  split; [exact Hst |].
  rewrite Hst, Hf.
  rewrite (status_word_ext (fst s') measured) by assumption.
  reflexivity.
Qed.

(** The wrapper once the call has been counted. *)
Definition counted (self : t) : t :=
  put_measurement_count (_measurement_count self + 1)%Z self.

(** With nothing scheduled, [apply_measurement] returns normally. *)
Lemma apply_measurement_idle (true_voltages true_temps : list R) (true_current : R)
    (self : t) (w : World) :
  _fault_schedule self = [] ->
  exists (voltages : list R) (temps : list Z) (current : R) (status : Z)
         (s' : t * World) (measured : t) (w3 w4 : World) (inject : bool),
    apply_measurement true_voltages true_temps true_current (self, w)
    = (Ok (voltages, temps, current, status), s')
    /\ _process_voltages true_voltages (counted self, world_after_clock (counted self) w)
       = (Ok voltages, (measured, w3))
    /\ temps = temperature_readings true_temps (measured, w3)
    /\ current = current_reading true_current (measured, w4)
    /\ fst s' = with_flags measured voltages temps current inject
    /\ status = _status_flags (fst s').
Proof.
  intros Hs.
  assert (Hs1 : _fault_schedule (counted self) = []) by exact Hs.
  pose proof (update_fault_schedule_idle (counted self) w Hs1) as Hidle.
  set (s2 := (counted self, world_after_clock (counted self) w)) in *.
  pose proof (process_voltages_run true_voltages s2) as Hv. cbv zeta in Hv.
  destruct (fold_left voltage_fault_step (seq 0 NUM_CELLS)
              (raw_voltages true_voltages s2, fst s2)) as [m measured].
  cbn [fst snd] in Hv.
  set (w3 := snd (np_random_normal 0 (_voltage_noise_mv (fst s2)) NUM_CELLS (snd s2))) in *.
  pose proof (process_temperatures_run true_temps measured w3) as Ht.
  set (w4 := snd (np_random_normal 0 (_temp_noise_c measured) NUM_CELLS w3)) in *.
  pose proof (process_current_run true_current measured w4) as Hc.
  set (w5 := snd (np_random_normal1 0 (_current_noise_ma measured) w4)) in *.
  set (mv := map to_adc m) in *.
  set (mt := temperature_readings true_temps (measured, w3)) in *.
  set (mi := current_reading true_current (measured, w4)) in *.
  pose proof (update_status_flags_run mv mt mi measured w5) as Hf.
  destruct (should_inject_crc_error_run
              (put_status_flags (status_word measured mv mt mi) measured) w5)
    as (inject & w7 & Hi).
  assert (Hrun : exists s' : t * World,
             apply_measurement true_voltages true_temps true_current (self, w)
             = (Ok (mv, mt, mi, _status_flags (fst s')), s')).
  { unfold apply_measurement.
    rewrite (bind_run (modify_self _) _ (self, w) (counted self, w) tt) by reflexivity.
    rewrite (bind_run _ _ _ _ _ Hidle).
    rewrite (bind_run _ _ _ _ _ Hv).
    rewrite (bind_run _ _ _ _ _ Ht).
    rewrite (bind_run _ _ _ _ _ Hc).
    rewrite (bind_run _ _ _ _ _ Hf).
    rewrite (bind_run _ _ _ _ _ Hi).
    destruct inject.
    - eexists.
      rewrite (bind_run (modify_self _) _ _ _ tt) by reflexivity.
      rewrite (bind_run get_self _ _ _ _) by reflexivity.
      unfold ret. reflexivity.
    - eexists.
      rewrite (bind_run (ret tt) _ _ _ tt) by reflexivity.
      rewrite (bind_run get_self _ _ _ _) by reflexivity.
      unfold ret. reflexivity. }
  destruct Hrun as [s' Hrun].
  destruct (apply_measurement_ok _ _ _ _ _ _ _ _ _ Hrun)
    as (s2' & measured' & w3' & w4' & inject' & H2 & H3 & Hmt & Hmi & Hs' & Hst).
  cbn [fst snd] in H2. fold (counted self) in H2.
  destruct (run_eq _ _ _ _ _ _ H2 Hidle) as [_ ->].
  exists mv, mt, mi, (_status_flags (fst s')), s', measured', w3', w4', inject'.
  repeat split; assumption.
Qed.

Lemma nth_zip_with {A B C : Type} (f : A -> B -> C) (l1 : list A) (l2 : list B)
    (j : nat) (da : A) (db : B) (dc : C) :
  (j < length l1)%nat -> (j < length l2)%nat ->
  nth j (zip_with f l1 l2) dc = f (nth j l1 da) (nth j l2 db).
Proof.
  revert l2 j. induction l1 as [| x l1 IH]; intros [| y l2] [| j] H1 H2;
    cbn in *; try lia; [reflexivity | apply IH; lia].
Qed.

Lemma length_zip_with {A B C : Type} (f : A -> B -> C) (l1 : list A) (l2 : list B) :
  length (zip_with f l1 l2) = Nat.min (length l1) (length l2).
Proof.
  revert l2. induction l1 as [| x l1 IH]; intros [| y l2]; cbn; auto.
Qed.


Lemma but_stuck_attributes (a b : t) :
  but_stuck a b ->
  _ntc_fault_mask a = _ntc_fault_mask b
  /\ _current_sensor_fault a = _current_sensor_fault b
  /\ _fault_schedule a = _fault_schedule b
  /\ _voltage_gain_errors a = _voltage_gain_errors b
  /\ _voltage_offsets_mv a = _voltage_offsets_mv b
  /\ _temp_offsets_c a = _temp_offsets_c b
  /\ _temp_noise_c a = _temp_noise_c b
  /\ _crc_error_count a = _crc_error_count b.
Proof. intros ->. repeat split. Qed.

Lemma testbit_above_uint16 (mask b : Z) :
  (0 <= mask < 2 ^ 16)%Z -> (16 <= b)%Z -> Z.testbit mask b = false.
Proof.
  intros [H0 H1] Hb.
  destruct (Z.eq_dec mask 0) as [-> | Hne]; [apply Z.testbit_0_l |].
  apply Z.bits_above_log2; [exact H0 |].
  assert (Z.log2 mask < 16)%Z by (apply Z.log2_lt_pow2; lia). lia.
Qed.

(** Without noise every noise sample is zero, whatever the generator draws. *)
Lemma zero_noise (n : nat) (w : World) (j : nat) :
  nth j (fst (np_random_normal 0 0 n w)) 0 = 0.
Proof.
  rewrite np_random_normal_values.
  destruct (nth_in_or_default j (map (fun z => 0 + 0 * z) (fst (draws Gaussian n w))) 0)
    as [Hin | ->]; [| reflexivity].
  apply in_map_iff in Hin. destruct Hin as (z & Hz & _). rewrite <- Hz. lra.
Qed.

Lemma ntc_loop_clear (self : t) (l : list nat) (m : list R) :
  _ntc_fault_mask self = 0%Z -> fold_left (ntc_fault_step self) l m = m.
Proof.
  intros H. revert m. induction l as [| i l IH]; intros m; cbn [fold_left];
    [reflexivity |].
  unfold ntc_fault_step at 2. rewrite H. cbv zeta. unfold mask_hit.
  rewrite Z.land_0_l. cbn [Z.eqb negb]. apply IH.
Qed.

Lemma to_centi_zero : to_centi 0 = 0%Z.
Proof.
  unfold to_centi, quantize, TEMPERATURE_RESOLUTION_C.
  replace (0 / 0.1) with (IZR 0) by lra. rewrite round_half_even_IZR.
  replace (IZR 0 * 0.1 * 100) with (IZR 0) by lra.
  unfold astype_int16. rewrite truncate_IZR. reflexivity.
Qed.

Lemma to_centi_25 (x : R) : x = 25 -> to_centi x = 2500%Z.
Proof.
  intros ->. unfold to_centi, quantize, TEMPERATURE_RESOLUTION_C.
  replace (25 / 0.1) with (IZR 250) by lra. rewrite round_half_even_IZR.
  replace (IZR 250 * 0.1 * 100) with (IZR 2500) by lra.
  unfold astype_int16. rewrite truncate_IZR. reflexivity.
Qed.






End AFEFacts.

(** ** The AFE wrapper: the claims *)

Module AFEClaims.
Import AFEWrapper AFEFacts.

Lemma set_crc_error_rate_run (error_rate : R) (s : t * World) :
  (0 <= error_rate <= 1 ->
   set_crc_error_rate error_rate s = (Ok tt, (put_crc_error_rate error_rate (fst s), snd s)))
  /\ (~ (0 <= error_rate <= 1) ->
      set_crc_error_rate error_rate s
      = (Raise (ValueError "CRC error rate must be between 0.0 and 1.0"), s)).
Proof.
  unfold set_crc_error_rate.
  destruct (Rle_dec 0 error_rate); destruct (Rle_dec error_rate 1); cbn;
    split; intros H; try reflexivity; exfalso; tauto.
Qed.

(** C7: [set_crc_error_rate(rate)] raises the invalid-argument error
    ([ValueError]) exactly when [rate] is outside [0, 1]; on success the
    stored rate is [rate] and nothing else changes; on failure the wrapper
    and the world are as before. *)
Theorem set_crc_error_rate_checked (error_rate : R) (s : t * World) :
  let outcome := fst (set_crc_error_rate error_rate s) in
  let s' := snd (set_crc_error_rate error_rate s) in
  ((exists msg, outcome = Raise (ValueError msg)) <-> ~ (0 <= error_rate <= 1))
  /\ (outcome = Ok tt <-> 0 <= error_rate <= 1)
  /\ (outcome = Ok tt ->
      _crc_error_rate (fst s') = error_rate
      /\ s' = (put_crc_error_rate error_rate (fst s), snd s))
  /\ (outcome <> Ok tt -> s' = s).
Proof.
  cbv zeta.
  destruct (set_crc_error_rate_run error_rate s) as [Hin Hout].
  destruct (Rle_dec 0 error_rate) as [H0 | H0];
    [destruct (Rle_dec error_rate 1) as [H1 | H1] |].
  - (* inside the interval *)
    rewrite Hin by (split; assumption). cbn [fst snd].
    split; [split; [intros [msg Hmsg]; discriminate | intros Hn; exfalso; apply Hn; tauto] |].
    split; [split; [intros _; tauto | reflexivity] |].
    split; [intros _; split; reflexivity | intros Hne; exfalso; apply Hne; reflexivity].
  - (* above 1 *)
    rewrite Hout by tauto. cbn [fst snd].
    split; [split; [tauto | intros _; eexists; reflexivity] |].
    split; [split; [discriminate | tauto] |].
    split; [discriminate | reflexivity].
  - (* below 0 *)
    rewrite Hout by tauto. cbn [fst snd].
    split; [split; [tauto | intros _; eexists; reflexivity] |].
    split; [split; [discriminate | tauto] |].
    split; [discriminate | reflexivity].
Qed.

(** C9: [reset()] never raises; it clears the fault masks, the stuck-ADC
    values, the current-sensor flag, the CRC error rate, the fault schedule,
    the status flags and both counters (and the start time), and leaves the
    16 voltage gains, 16 voltage offsets, 16 temperature offsets, the
    current gain and the current offset as they were, together with the
    noise levels and the world. *)
Theorem reset_keeps_calibration (s : t * World) :
  let self := fst s in
  let self' := fst (snd (reset s)) in
  fst (reset s) = Ok tt
  /\ snd (snd (reset s)) = snd s
  /\ (_open_wire_mask self' = 0%Z /\ _stuck_adc_mask self' = 0%Z
      /\ _ntc_fault_mask self' = 0%Z
      /\ _stuck_adc_values self' = repeat 0 (length (_stuck_adc_values self))
      /\ _current_sensor_fault self' = false
      /\ _crc_error_rate self' = 0
      /\ _fault_schedule self' = []
      /\ _status_flags self' = 0%Z
      /\ _measurement_count self' = 0%Z /\ _crc_error_count self' = 0%Z
      /\ _start_time_ms self' = None)
  /\ (_voltage_gain_errors self' = _voltage_gain_errors self
      /\ _voltage_offsets_mv self' = _voltage_offsets_mv self
      /\ _temp_offsets_c self' = _temp_offsets_c self
      /\ _current_gain_error self' = _current_gain_error self
      /\ _current_offset_ma self' = _current_offset_ma self)
  /\ (_voltage_noise_mv self' = _voltage_noise_mv self
      /\ _temp_noise_c self' = _temp_noise_c self
      /\ _current_noise_ma self' = _current_noise_ma self).
Proof.
  cbv zeta. unfold reset, modify_self. cbn.
  repeat split.
  apply map_constant. intros x _. reflexivity.
Qed.

(** A wrapper without noise, calibration error or fault, as the
    constructor builds it from an all-zero configuration. *)
Definition quiet_afe : t :=
  {| _voltage_noise_mv := 0;
     _temp_noise_c := 0;
     _current_noise_ma := 0;
     _voltage_gain_errors := repeat 1 16;
     _voltage_offsets_mv := repeat 0 16;
     _temp_offsets_c := repeat 0 16;
     _current_gain_error := 1;
     _current_offset_ma := 0;
     _open_wire_mask := 0;
     _stuck_adc_mask := 0;
     _stuck_adc_values := repeat 0 16;
     _ntc_fault_mask := 0;
     _current_sensor_fault := false;
     _crc_error_rate := 0;
     _fault_schedule := [];
     _start_time_ms := None;
     _status_flags := 0;
     _measurement_count := 0;
     _crc_error_count := 0 |}.

Definition faulty_current_afe : t := put_current_sensor_fault true quiet_afe.

(** C4, as stated, fails for cells 14 and 15: bit 30 is also the
    current-sensor flag.  On the quiet wrapper with the current-sensor
    fault active, a measurement of sixteen cells at 25 degrees returns a
    status word with bit 30 set, while the measured temperature of cell 14
    is 2500 centi-degrees. *)
Lemma current_fault_sets_bit_30 :
  exists (voltages : list R) (temps : list Z) (current : R) (status : Z) (s' : t * World),
    apply_measurement (repeat 3200 16) (repeat 25 16) 1000 (faulty_current_afe, still_world)
    = (Ok (voltages, temps, current, status), s')
    /\ Z.testbit status (16 + 14) = true
    /\ ~ (nth 14 temps 0 <= -32000)%Z.
Proof.
  destruct (apply_measurement_idle (repeat 3200 16) (repeat 25 16) 1000
              faulty_current_afe still_world eq_refl)
    as (mv & mt & mi & status & s' & measured & w3 & w4 & inject
        & Hrun & Hv & Hmt & Hmi & Hs' & Hst).
  exists mv, mt, mi, status, s'.
  split; [exact Hrun |].
  destruct (process_voltages_inv _ _ _ _ _ Hv) as (Hb & _).
  destruct (but_stuck_attributes _ _ Hb) as (Hntc & Hcsf & _ & _ & _ & Hoff & Hnoise & _).
  cbn [fst] in Hntc, Hcsf, Hoff, Hnoise.
  destruct (with_flags_attributes measured mv mt mi inject)
    as (_ & _ & Hc & _ & _ & _ & _ & Hf).
  rewrite <- Hs' in Hc, Hf.
  destruct (returned_status _ _ _ _ _ _ _ _ _ Hrun) as (inj & _ & _ & Hword).
  split.
  - assert (Hbit : Z.testbit (status_word (fst s') mv mt mi) (Z.of_nat (16 + 14)) = true).
    { rewrite status_word_high_bit by lia.
      unfold current_flag. rewrite Hc, Hcsf. cbn. apply orb_true_r. }
    change (16 + 14)%Z with (Z.of_nat (16 + 14)).
    rewrite Hword. destruct inj; [rewrite Z.lor_spec, Hbit; reflexivity | exact Hbit].
  - rewrite Hmt. unfold temperature_readings. cbn [fst snd].
    rewrite ntc_loop_clear by (rewrite Hntc; reflexivity).
    rewrite <- to_centi_zero at 1. rewrite map_nth.
    rewrite (to_centi_25 _); [lia |].
    unfold raw_temperatures. cbn [fst snd]. rewrite Hoff, Hnoise.
    assert (Hn : length (fst (np_random_normal 0 (_temp_noise_c faulty_current_afe)
                                NUM_CELLS w3)) = 16%nat)
      by (rewrite np_random_normal_values, length_map; apply draws_length).
    rewrite (nth_zip_with Rplus _ _ 14 0 0)
      by (rewrite ?length_zip_with, ?Hn; cbn; lia).
    rewrite (nth_zip_with Rplus _ _ 14 0 0) by (cbn; lia).
    change (_temp_noise_c faulty_current_afe) with 0.
    rewrite zero_noise.
    cbn [nth repeat _temp_offsets_c faulty_current_afe quiet_afe counted
         put_measurement_count put_current_sensor_fault].
    lra.
Qed.

(** C4, amended: for every call of [apply_measurement] that returns, on a
    wrapper whose open-wire mask is a 16-bit mask, bit 16+c of the status
    word is set iff the measured temperature of cell c is at most -32000
    centi-degrees, for c in 0..13; bit 30 is set iff that holds for cell 14
    or the current-sensor fault is active or the measured current is 0; bit
    31 is set iff that holds for cell 15 or the call injected a CRC error
    (the CRC error count went up by one). *)
Theorem ntc_status_bits (true_voltages true_temps : list R) (true_current : R)
    (s s' : t * World) (voltages : list R) (temps : list Z) (current : R) (status : Z) :
  apply_measurement true_voltages true_temps true_current s
  = (Ok (voltages, temps, current, status), s') ->
  (0 <= _open_wire_mask (fst s') < 2 ^ 16)%Z ->
  (forall c : nat, (c < 14)%nat ->
     Z.testbit status (Z.of_nat (16 + c)) = true <-> (nth c temps 0 <= -32000)%Z)
  /\ (Z.testbit status 30 = true <->
      (nth 14 temps 0 <= -32000)%Z
      \/ _current_sensor_fault (fst s') = true \/ current = 0)
  /\ (Z.testbit status 31 = true <->
      (nth 15 temps 0 <= -32000)%Z
      \/ _crc_error_count (fst s') = (_crc_error_count (fst s) + 1)%Z).
Proof.
  intros Hrun Hmask.
  destruct (returned_status _ _ _ _ _ _ _ _ _ Hrun) as (inject & Hcount & _ & Hword).
  assert (Hhigh : forall c : nat, (c < 16)%nat ->
            Z.testbit status (Z.of_nat (16 + c))
            = temp_invalid temps c
              || (current_flag (fst s') current && (c =? 14)%nat)
              || (inject && (c =? 15)%nat)).
  { intros c Hc. rewrite Hword.
    assert (Hw : Z.testbit (status_word (fst s') voltages temps current)
                   (Z.of_nat (16 + c))
                 = temp_invalid temps c
                   || (current_flag (fst s') current && (c =? 14)%nat)).
    { rewrite status_word_high_bit by exact Hc.
      rewrite (testbit_above_uint16 _ _ Hmask) by lia. reflexivity. }
    destruct inject; cbn [andb].
    - rewrite Z.lor_spec, Hw, testbit_one_shift by lia.
      f_equal. destruct (Nat.eqb_spec c 15) as [-> | Hne];
        [reflexivity | apply Z.eqb_neq; lia].
    - rewrite Hw. now rewrite orb_false_r. }
  assert (Htemp : forall c, temp_invalid temps c = true <-> (nth c temps 0 <= -32000)%Z)
    by (intros c; unfold temp_invalid; apply Z.leb_le).
  split; [| split].
  - intros c Hc. rewrite Hhigh by lia.
    replace (c =? 14)%nat with false by (symmetry; apply Nat.eqb_neq; lia).
    replace (c =? 15)%nat with false by (symmetry; apply Nat.eqb_neq; lia).
    rewrite !andb_false_r, !orb_false_r. apply Htemp.
  - change 30%Z with (Z.of_nat (16 + 14)). rewrite Hhigh by lia.
    cbn [Nat.eqb]. rewrite andb_false_r, orb_false_r, andb_true_r.
    rewrite orb_true_iff, Htemp. unfold current_flag, INVALID_CURRENT_MA.
    rewrite orb_true_iff.
    destruct (Req_dec_T current 0) as [E | E]; intuition congruence.
  - change 31%Z with (Z.of_nat (16 + 15)). rewrite Hhigh by lia.
    cbn [Nat.eqb]. rewrite andb_false_r, orb_false_r, andb_true_r.
    rewrite orb_true_iff, Htemp.
    destruct inject; split; intros [H | H]; auto; try discriminate; try lia.
Qed.

(** A measurement on the wrapper without noise, calibration error or
    fault: no bit from 16 up is set by a cell at 25 degrees. *)
Lemma ntc_status_bits_witness :
  exists (voltages : list R) (temps : list Z) (current : R) (status : Z) (s' : t * World),
    apply_measurement (repeat 3200 16) (repeat 25 16) 1000 (quiet_afe, still_world)
    = (Ok (voltages, temps, current, status), s')
    /\ (Z.testbit status (Z.of_nat (16 + 3)) = true <-> (nth 3 temps 0 <= -32000)%Z).
Proof.
  destruct (apply_measurement_idle (repeat 3200 16) (repeat 25 16) 1000
              quiet_afe still_world eq_refl)
    as (mv & mt & mi & status & s' & measured & w3 & w4 & inject
        & Hrun & Hv & Hmt & Hmi & Hs' & Hst).
  exists mv, mt, mi, status, s'.
  split; [exact Hrun |].
  destruct (process_voltages_inv _ _ _ _ _ Hv) as (Hb & _).
  destruct (but_stuck_masks _ _ Hb) as [Hopen _].
  destruct (with_flags_attributes measured mv mt mi inject) as (Ho & _).
  rewrite <- Hs' in Ho.
  assert (Hmask : (0 <= _open_wire_mask (fst s') < 2 ^ 16)%Z)
    by (rewrite Ho, Hopen; cbn; lia).
  destruct (ntc_status_bits _ _ _ _ _ _ _ _ _ Hrun Hmask) as (Hcells & _).
  apply Hcells. lia.
Defined.

(** Injecting and clearing an open-wire fault with a mask and no duration. *)
Lemma inject_open_wire_run (cell_mask : Z) (s : t * World) :
  inject_fault (Enum OPEN_WIRE) (Some cell_mask) None s
  = (Ok tt, (put_open_wire_mask (Z.lor (_open_wire_mask (fst s)) cell_mask) (fst s), snd s)).
Proof. reflexivity. Qed.




(** Successive calls of a method: the outcomes, and the state left behind. *)
Fixpoint call_repeatedly {S C O : Type} (method : C -> S -> O * S) (s : S)
    (calls : list C) : list O * S :=
  match calls with
  | [] => ([], s)
  | call :: rest =>
      let this := method call s in
      let later := call_repeatedly method (snd this) rest in
      (fst this :: fst later, snd later)
  end.

(** Successive calls of [apply_measurement], each with its true voltages,
    true temperatures and true current. *)
Definition measure_repeatedly (s : t * World) (calls : list (list R * list R * R))
    : list (result (list R * list Z * R * Z)) * (t * World) :=
  call_repeatedly
    (fun call => apply_measurement (fst (fst call)) (snd (fst call)) (snd call)) s calls.









End AFEClaims.

(* ================================================================== *)
(** * Further properties of the three components *)

(** ** Piecewise-linear interpolation on a rising table *)

(** A table continues [(x0, y0)] in a rising way: abscissae strictly
    increasing, ordinates never decreasing. *)
Fixpoint rising_from (x0 y0 : R) (pts : list (R * R)) : Prop :=
  match pts with
  | [] => True
  | (x1, y1) :: rest => x0 < x1 /\ y0 <= y1 /\ rising_from x1 y1 rest
  end.

Definition rising (pts : list (R * R)) : Prop :=
  match pts with
  | [] => True
  | (x0, y0) :: rest => rising_from x0 y0 rest
  end.

Lemma segment_between (x x0 y0 x1 y1 : R) :
  x0 < x1 -> y0 <= y1 -> x0 <= x <= x1 ->
  y0 <= (y1 - y0) / (x1 - x0) * (x - x0) + y0 <= y1.
Proof.
  intros Hx Hy [Ha Hb].
  assert (Hd : 0 < / (x1 - x0)) by (apply Rinv_0_lt_compat; lra).
  assert (Hf : 0 <= (x - x0) * / (x1 - x0)) by (apply Rmult_le_pos; lra).
  assert (Hg : (x - x0) * / (x1 - x0) <= 1).
  { apply (Rmult_le_reg_r (x1 - x0)); [lra |].
    rewrite Rmult_assoc, Rinv_l by lra. lra. }
  replace ((y1 - y0) / (x1 - x0) * (x - x0) + y0)
    with ((y1 - y0) * ((x - x0) * / (x1 - x0)) + y0) by (unfold Rdiv; ring).
  split; nra.
Qed.

Lemma segment_monotone (a b x0 y0 x1 y1 : R) :
  x0 < x1 -> y0 <= y1 -> a <= b ->
  (y1 - y0) / (x1 - x0) * (a - x0) + y0 <= (y1 - y0) / (x1 - x0) * (b - x0) + y0.
Proof.
  intros Hx Hy Hab.
  assert (Hd : 0 < / (x1 - x0)) by (apply Rinv_0_lt_compat; lra).
  assert (Hs : 0 <= (y1 - y0) / (x1 - x0)) by (apply Rmult_le_pos; lra).
  nra.
Qed.

Lemma np_interp_from_lower (pts : list (R * R)) (x x0 y0 : R) :
  rising_from x0 y0 pts -> x0 <= x -> y0 <= np_interp_from x x0 y0 pts.
Proof.
  revert x0 y0. induction pts as [| [x1 y1] rest IH]; intros x0 y0 Hr Hx; cbn.
  - lra.
  - destruct Hr as (H01 & Hy & Hr). destruct (Rlt_dec x x1) as [Hlt | Hge].
    + apply (segment_between x x0 y0 x1 y1); lra.
    + specialize (IH x1 y1 Hr ltac:(lra)). lra.
Qed.

Lemma np_interp_from_monotone (pts : list (R * R)) (a b x0 y0 : R) :
  rising_from x0 y0 pts -> x0 <= a -> a <= b ->
  np_interp_from a x0 y0 pts <= np_interp_from b x0 y0 pts.
Proof.
  revert x0 y0. induction pts as [| [x1 y1] rest IH]; intros x0 y0 Hr Ha Hab; cbn.
  - lra.
  - destruct Hr as (H01 & Hy & Hr).
    destruct (Rlt_dec a x1) as [Ha1 | Ha1]; destruct (Rlt_dec b x1) as [Hb1 | Hb1].
    + apply segment_monotone; assumption.
    + pose proof (np_interp_from_lower rest b x1 y1 Hr ltac:(lra)).
      pose proof (segment_between a x0 y0 x1 y1 H01 Hy ltac:(lra)). lra.
    + lra.
    + apply IH; [assumption | lra | assumption].
Qed.

Lemma np_interp_monotone (pts : list (R * R)) (a b : R) :
  rising pts -> a <= b -> np_interp a pts <= np_interp b pts.
Proof.
  destruct pts as [| [x0 y0] rest]; intros Hr Hab; cbn; [lra |].
  destruct (Rle_dec a x0) as [Ha | Ha]; destruct (Rle_dec b x0) as [Hb | Hb].
  - lra.
  - apply np_interp_from_lower; [assumption | lra].
  - lra.
  - apply np_interp_from_monotone; [assumption | lra | assumption].
Qed.

Lemma np_clip_monotone (a b lo hi : R) : a <= b -> np_clip a lo hi <= np_clip b lo hi.
Proof.
  intros H. unfold np_clip. apply Rle_min_compat_r, Rle_max_compat_r, H.
Qed.

Module CellExtras.
Import LiFePO4Cell CellFacts.

Lemma ocv_points_discharge_rising : rising _ocv_points_discharge.
Proof.
  unfold _ocv_points_discharge, soc_ocv_points, OCV_SOC_TABLE_DISCHARGE.
  cbn [map fst snd rising rising_from].
  repeat (split; [lra |]). exact I.
Qed.

Lemma ocv_points_charge_rising : rising _ocv_points_charge.
Proof.
  unfold _ocv_points_charge, soc_ocv_points, OCV_SOC_TABLE_CHARGE.
  cbn [map fst snd rising rising_from].
  repeat (split; [lra |]). exact I.
Qed.

(** X1: the OCV never decreases with the state of charge. *)
Theorem get_ocv_monotone_in_soc (self : t) (soc_a soc_b : R) (temperature_c : option R)
    (current_direction : option Z) :
  soc_a <= soc_b ->
  get_ocv self (Some soc_a) temperature_c current_direction
  <= get_ocv self (Some soc_b) temperature_c current_direction.
Proof.
  intros Hab.
  assert (Hclip : np_clip (soc_a / 100) 0 1 <= np_clip (soc_b / 100) 0 1)
    by (apply np_clip_monotone; lra).
  pose proof (np_interp_monotone _ _ _ ocv_points_discharge_rising Hclip) as Hd.
  pose proof (np_interp_monotone _ _ _ ocv_points_charge_rising Hclip) as Hc.
  unfold get_ocv. cbv zeta.
  revert Hd Hc.
  generalize (np_interp (np_clip (soc_a / 100) 0 1) _ocv_points_discharge)
             (np_interp (np_clip (soc_b / 100) 0 1) _ocv_points_discharge)
             (np_interp (np_clip (soc_a / 100) 0 1) _ocv_points_charge)
             (np_interp (np_clip (soc_b / 100) 0 1) _ocv_points_charge).
  intros da db ca cb Hd Hc.
  repeat match goal with |- context [if ?c then _ else _] => destruct c end; lra.
Qed.

Lemma get_ocv_monotone_in_soc_witness :
  get_ocv CellClaims.default_cell (Some 20) None None
  <= get_ocv CellClaims.default_cell (Some 80) None None.
Proof. apply get_ocv_monotone_in_soc. lra. Defined.

(** *** Outputs of [update] *)


Lemma update_final_soc (self : t) (I dt : R) (tc amb : option R) :
  _soc (fst (update self I dt tc amb)) = _soc (after_soc self I dt tc amb).
Proof.
  rewrite update_unfold. cbn [fst].
  destruct (update_calendar_aging_frame (after_rc self I dt tc amb) I dt)
    as (_ & _ & _ & -> & _).
  unfold after_rc.
  destruct (update_rc_network_frame (after_hysteresis self I dt tc amb) I dt)
    as (_ & _ & _ & _ & _ & -> & _).
  unfold after_hysteresis.
  destruct (update_hysteresis_frame (after_soc self I dt tc amb) (classify_direction I))
    as (_ & _ & _ & _ & _ & -> & _).
  reflexivity.
Qed.


(** *** Coulomb counting *)

Lemma update_soc_direction (self : t) (I dt : R) :
  0 <= _soc self <= 1 ->
  0 < _capacity_actual_ah self ->
  -175 < _temperature_c self ->
  0 <= dt ->
  (I <= 0 -> _soc (update_soc self I dt) <= _soc self)
  /\ (0 <= I -> _soc self <= _soc (update_soc self I dt)).
Proof.
  intros Hsoc Hcap HT Hdt.
  unfold update_soc. cbv zeta. cbn [_soc set_soc]. unfold CAPACITY_TEMP_COEFF.
  set (q := _capacity_actual_ah self * (1 + 0.005 * (_temperature_c self - 25))).
  assert (Hq : 0 < q) by (unfold q; nra).
  assert (Hinv : 0 < / q) by (apply Rinv_0_lt_compat; exact Hq).
  set (d := I / 1000 * (dt / (1000 * 3600)) / q).
  assert (Hd : d = I / 1000 * (dt / (1000 * 3600)) * / q) by reflexivity.
  clearbody d.
  split; intros HI.
  - assert (Hn : I / 1000 * (dt / (1000 * 3600)) <= 0) by nra.
    assert (Hd0 : d <= 0) by nra.
    unfold np_clip, Rmin, Rmax.
    destruct (Rle_dec (_soc self + d) 0); destruct (Rle_dec _ 1); lra.
  - assert (Hn : 0 <= I / 1000 * (dt / (1000 * 3600))) by nra.
    assert (Hd0 : 0 <= d) by nra.
    unfold np_clip, Rmin, Rmax.
    destruct (Rle_dec (_soc self + d) 0); destruct (Rle_dec _ 1); lra.
Qed.

(** X3: a discharge never raises the SOC and a charge never lowers it, as long
    as the capacity is positive, the step is not negative and a forced
    temperature, if any, is above -175 degrees. *)
Theorem coulomb_counting_direction (self : t) (current_ma dt_ms : R)
    (temperature_c ambient_temp_c : option R) :
  0 <= _soc self <= 1 ->
  0 < _capacity_actual_ah self ->
  0 <= dt_ms ->
  (forall forced : R, temperature_c = Some forced -> -175 < forced) ->
  let self' := fst (update self current_ma dt_ms temperature_c ambient_temp_c) in
  (current_ma <= 0 -> _soc self' <= _soc self)
  /\ (0 <= current_ma -> _soc self <= _soc self').
Proof.
  intros Hsoc Hcap Hdt Hforced. cbv zeta.
  rewrite update_final_soc. unfold after_soc.
  destruct (update_temperature_frame self current_ma dt_ms temperature_c ambient_temp_c)
    as (_ & Hc & _ & _ & Hs & _).
  rewrite <- Hs. apply update_soc_direction; rewrite ?Hs, ?Hc; try assumption.
  unfold update_temperature. destruct temperature_c as [forced |].
  - cbn [_temperature_c set_temperature_c]. now apply Hforced.
  - pose proof (thermal_temperature_range self current_ma dt_ms ambient_temp_c). lra.
Qed.

Lemma coulomb_counting_direction_witness :
  _soc (fst (update CellClaims.default_cell (-50000) 1000 None None))
  <= _soc CellClaims.default_cell.
Proof.
  destruct (init_attributes 100 0.5 25 0%Z 25 1) as (Hn & Hs & _).
  destruct (CellClaims.aging_floors_of_init 100 0.5 25 0%Z 25 1) as [_ Hp].
  apply (coulomb_counting_direction CellClaims.default_cell (-50000) 1000 None None).
  - unfold CellClaims.default_cell. rewrite Hs. apply np_clip_bounds. lra.
  - apply Hp. lra.
  - lra.
  - discriminate.
  - lra.
Defined.

(** *** Internal resistance *)

(** X4: with positive resistance multipliers the internal resistance is
    positive, and it does not grow when the SOC or the temperature grows. *)
Theorem internal_resistance_decreases (self : t) (soc_a soc_b temp_a temp_b : R) :
  0 < _base_resistance_multiplier self ->
  0 < _resistance_multiplier self ->
  soc_a <= soc_b ->
  temp_a <= temp_b ->
  0 < get_internal_resistance self (Some soc_b) (Some temp_b)
  /\ get_internal_resistance self (Some soc_b) (Some temp_b)
     <= get_internal_resistance self (Some soc_a) (Some temp_a).
Proof.
  intros Hb Hm Hsoc Htemp. unfold get_internal_resistance. cbv zeta.
  pose proof (np_clip_bounds (soc_a / 100) 0 1 ltac:(lra)) as Ha.
  pose proof (np_clip_bounds (soc_b / 100) 0 1 ltac:(lra)) as Hbb.
  assert (Hab : np_clip (soc_a / 100) 0 1 <= np_clip (soc_b / 100) 0 1)
    by (apply np_clip_monotone; lra).
  revert Ha Hbb Hab.
  generalize (np_clip (soc_a / 100) 0 1) (np_clip (soc_b / 100) 0 1).
  intros sa sb Ha Hbb Hab.
  set (fa := if Rle_dec sa 0.5 then 1.4 - sa * 0.8 else 1 - (sa - 0.5) * 0.5).
  set (fb := if Rle_dec sb 0.5 then 1.4 - sb * 0.8 else 1 - (sb - 0.5) * 0.5).
  assert (Hf : 0.75 <= fb <= fa).
  { unfold fa, fb. destruct (Rle_dec sa 0.5); destruct (Rle_dec sb 0.5); lra. }
  set (ta := Rmax (1 - 0.005 * (temp_a - 25)) 0.5).
  set (tb := Rmax (1 - 0.005 * (temp_b - 25)) 0.5).
  assert (Ht : 0.5 <= tb <= ta).
  { unfold ta, tb. split; [apply Rmax_r |].
    apply Rle_max_compat_r. lra. }
  clearbody fa fb ta tb.
  set (b := _base_resistance_multiplier self) in *.
  set (m := _resistance_multiplier self) in *.
  assert (Hbm : 0 < b * m) by nra.
  assert (Hft : 0 < 0.5 * fb * tb) by nra.
  assert (Hle : 0.5 * fb * tb <= 0.5 * fa * ta) by nra.
  replace (0.5 * fb * tb * b * m) with (0.5 * fb * tb * (b * m)) by ring.
  replace (0.5 * fa * ta * b * m) with (0.5 * fa * ta * (b * m)) by ring.
  split; [nra |].
  apply Rmult_le_compat_r; lra.
Qed.

Lemma internal_resistance_decreases_witness :
  get_internal_resistance CellClaims.default_cell (Some 100) (Some 45)
  <= get_internal_resistance CellClaims.default_cell (Some 0) (Some 25).
Proof.
  destruct (init_attributes 100 0.5 25 0%Z 25 1) as (_ & _ & _ & Hb & _).
  destruct (CellClaims.aging_floors_of_init 100 0.5 25 0%Z 25 1) as [Hr _].
  apply (internal_resistance_decreases CellClaims.default_cell 0 100 25 45).
  - unfold CellClaims.default_cell. rewrite Hb.
    pose proof (Rmax_r 1 0.1). lra.
  - unfold CellClaims.resistance_floor in Hr. unfold CellClaims.default_cell. lra.
  - lra.
  - lra.
Defined.

(** *** The RC network *)

Lemma before_rc_voltages (self : t) (I dt : R) (tc amb : option R) :
  _v_rc1 (after_hysteresis self I dt tc amb) = _v_rc1 self
  /\ _v_rc2 (after_hysteresis self I dt tc amb) = _v_rc2 self.
Proof.
  unfold after_hysteresis.
  destruct (update_hysteresis_frame (after_soc self I dt tc amb) (classify_direction I))
    as (_ & _ & _ & _ & _ & _ & -> & ->).
  unfold after_soc, update_soc, update_temperature, _update_thermal_model.
  destruct tc; destruct amb; cbn; split; reflexivity.
Qed.

Lemma exp_factor_range (tau dt_sec : R) :
  0 <= dt_sec ->
  0 <= (if Rgt_dec tau 0 then exp (- dt_sec / tau) else 0) <= 1.
Proof.
  intros Hdt. destruct (Rgt_dec tau 0) as [Htau | _]; [| lra].
  split; [left; apply exp_pos |].
  assert (Hx : - dt_sec / tau <= 0).
  { unfold Rdiv. assert (0 < / tau) by (apply Rinv_0_lt_compat; lra). nra. }
  destruct Hx as [Hlt | ->].
  - left. rewrite <- exp_0. now apply exp_increasing.
  - rewrite exp_0. lra.
Qed.

Lemma rc_scale_factor_range (c_rate : R) :
  0 <= (if Rle_dec c_rate 1 then 1 else Rmax (1 / (1 + 0.15 * (c_rate - 1))) 0.3) <= 1.
Proof.
  destruct (Rle_dec c_rate 1) as [_ | Hc]; [lra |].
  split.
  - pose proof (Rmax_r (1 / (1 + 0.15 * (c_rate - 1))) 0.3). lra.
  - apply Rmax_lub; [| lra].
    assert (Hd : 1 <= 1 + 0.15 * (c_rate - 1)) by lra.
    apply (Rmult_le_reg_r (1 + 0.15 * (c_rate - 1))); [lra |].
    unfold Rdiv. rewrite Rmult_assoc, Rinv_l by lra. lra.
Qed.

(** One branch: the new voltage lies between the old one and the
    steady-state value of the current. *)
Lemma rc_branch_bound (v a r scale e : R) :
  0 <= r -> 0 <= scale <= 1 -> 0 <= e <= 1 ->
  Rabs (v * e + a * (r * scale) * (1 - e)) <= Rmax (Rabs v) (Rabs a * r).
Proof.
  intros Hr Hs He.
  pose proof (Rmax_l (Rabs v) (Rabs a * r)) as H1.
  pose proof (Rmax_r (Rabs v) (Rabs a * r)) as H2.
  set (M := Rmax (Rabs v) (Rabs a * r)) in *.
  pose proof (Rabs_pos v) as Hv. pose proof (Rabs_pos a) as Ha.
  eapply Rle_trans; [apply Rabs_triang |].
  rewrite !Rabs_mult.
  rewrite (Rabs_right e), (Rabs_right (1 - e)), (Rabs_right r), (Rabs_right scale) by lra.
  assert (Hars : Rabs a * (r * scale) <= M).
  { assert (Rabs a * r * scale <= Rabs a * r * 1)
      by (apply Rmult_le_compat_l; [apply Rmult_le_pos; lra | lra]).
    lra. }
  assert (Hx : Rabs v * e <= M * e) by (apply Rmult_le_compat_r; lra).
  assert (Hy : Rabs a * (r * scale) * (1 - e) <= M * (1 - e))
    by (apply Rmult_le_compat_r; lra).
  lra.
Qed.

(** X5: with a step that is not negative, neither RC voltage leaves the range
    spanned by its old magnitude and the steady-state drop of the current
    over the nominal branch resistance. *)
Theorem rc_voltages_bounded (self : t) (current_ma dt_ms : R)
    (temperature_c ambient_temp_c : option R) :
  0 <= dt_ms ->
  let self' := fst (update self current_ma dt_ms temperature_c ambient_temp_c) in
  Rabs (_v_rc1 self') <= Rmax (Rabs (_v_rc1 self)) (Rabs (current_ma / 1000) * R1)
  /\ Rabs (_v_rc2 self') <= Rmax (Rabs (_v_rc2 self)) (Rabs (current_ma / 1000) * R2).
Proof.
  intros Hdt. cbv zeta. rewrite update_unfold. cbn [fst].
  destruct (update_calendar_aging_frame
              (after_rc self current_ma dt_ms temperature_c ambient_temp_c) current_ma dt_ms)
    as (_ & _ & _ & _ & _ & _ & -> & ->).
  unfold after_rc.
  destruct (before_rc_voltages self current_ma dt_ms temperature_c ambient_temp_c)
    as [H1 H2].
  revert H1 H2.
  generalize (after_hysteresis self current_ma dt_ms temperature_c ambient_temp_c).
  intros mid H1 H2.
  unfold update_rc_network. cbv zeta.
  cbn [_v_rc1 _v_rc2 set_v_rc1 set_v_rc2 _capacity_nominal_ah].
  rewrite H1, H2.
  assert (Hsec : 0 <= dt_ms / 1000) by lra.
  split; apply rc_branch_bound;
    try apply rc_scale_factor_range; try (apply exp_factor_range; exact Hsec);
    unfold R1, R2; lra.
Qed.

Lemma rc_voltages_bounded_witness :
  Rabs (_v_rc1 (fst (update CellClaims.default_cell 50000 1000 None None)))
  <= Rmax (Rabs (_v_rc1 CellClaims.default_cell)) (Rabs (50000 / 1000) * R1).
Proof.
  apply (rc_voltages_bounded CellClaims.default_cell 50000 1000 None None). lra.
Defined.

(** *** Aging *)

(** The calendar part of the fade factor, as [_update_aging] computes it. *)
Definition calendar_fade_factor (self : t) : R :=
  if Rgt_dec (_calendar_aging_time_hours self) 0 then
    1 - Rmin (CALENDAR_AGING_BASE_RATE
              * exp (- CALENDAR_AGING_ACTIVATION_ENERGY
                     / (GAS_CONSTANT * (_storage_temp self + 273.15)))
              * ((float_pow (_storage_soc self) CALENDAR_AGING_SOC_EXPONENT
                  + float_pow (1 - _storage_soc self) CALENDAR_AGING_SOC_EXPONENT) / 2)
              * _calendar_aging_time_hours self) 0.3
  else 1.

Lemma update_aging_values (self : t) :
  _capacity_actual_ah (_update_aging self)
  = _capacity_nominal_ah self
    * Rmax (Rmax (1 - FADE_RATE * sqrt (IZR (Z.max (_cycles self) 0))) 0.5
            * calendar_fade_factor self) 0.5
  /\ _resistance_multiplier (_update_aging self)
     = 1 + RESISTANCE_INCREASE_RATE * IZR (Z.max (_cycles self) 0).
Proof. split; reflexivity. Qed.




(** *** The thermal model *)

(** X7: at rest the temperature relaxes toward the ambient temperature: for a
    step of at most 200 s (thermal mass times thermal resistance) it ends
    between its old value and the ambient one. *)
Theorem thermal_relaxation (self : t) (dt_ms ambient : R) :
  -40 <= _temperature_c self <= 85 ->
  -40 <= ambient <= 85 ->
  0 <= dt_ms <= 200000 ->
  let self' := fst (update self 0 dt_ms None (Some ambient)) in
  _temperature_c self'
  = _temperature_c self - (_temperature_c self - ambient) * (dt_ms / 200000)
  /\ Rmin (_temperature_c self) ambient <= _temperature_c self'
     <= Rmax (_temperature_c self) ambient.
Proof.
  intros HT Ha Hdt. cbv zeta.
  rewrite update_final_temperature. unfold update_temperature, _update_thermal_model.
  cbv zeta.
  cbn [_temperature_c _ambient_temp_c set_temperature_c set_ambient_temp_c].
  set (T := _temperature_c self) in *.
  match goal with |- context [get_internal_resistance ?c None None] =>
    generalize (get_internal_resistance c None None)
  end.
  intros r0. unfold THERMAL_RESISTANCE, THERMAL_MASS.
  replace (T + ((0 / 1000) ^ 2 * (r0 / 1000) - (T - ambient) / 2) * (dt_ms / 1000) / 100)
    with (T - (T - ambient) * (dt_ms / 200000)) by field.
  set (k := dt_ms / 200000).
  assert (Hk : 0 <= k <= 1) by (unfold k; lra).
  clearbody k.
  assert (Hbetween : Rmin T ambient <= T - (T - ambient) * k <= Rmax T ambient).
  { unfold Rmin, Rmax. destruct (Rle_dec T ambient); nra. }
  assert (Hin : -40 <= T - (T - ambient) * k <= 85).
  { revert Hbetween. unfold Rmin, Rmax. destruct (Rle_dec T ambient); lra. }
  assert (Hclip : np_clip (T - (T - ambient) * k) (-40) 85 = T - (T - ambient) * k).
  { unfold np_clip. rewrite Rmax_left by lra. apply Rmin_left. lra. }
  rewrite Hclip. split; [reflexivity | exact Hbetween].
Qed.

Lemma thermal_relaxation_witness :
  Rmin (_temperature_c CellClaims.default_cell) 35
  <= _temperature_c (fst (update CellClaims.default_cell 0 1000 None (Some 35)))
  <= Rmax (_temperature_c CellClaims.default_cell) 35.
Proof.
  destruct (init_attributes 100 0.5 25 0%Z 25 1) as (_ & _ & HT & _).
  apply (thermal_relaxation CellClaims.default_cell 1000 35).
  - unfold CellClaims.default_cell. rewrite HT. lra.
  - lra.
  - lra.
Defined.

End CellExtras.

(** ** More facts about arrays *)

Lemma set_item_set_item {A : Type} (l : list A) (i : nat) (u v : A) :
  set_item (set_item l i u) i v = set_item l i v.
Proof.
  revert i. induction l as [| x l IH]; intros [| i]; cbn; try reflexivity.
  now rewrite IH.
Qed.

Lemma set_item_unchanged {A : Type} (l : list A) (i : nat) (d : A) :
  (i < length l)%nat -> set_item l i (nth i l d) = l.
Proof.
  revert i. induction l as [| x l IH]; intros [| i] H; cbn in *; try lia; try reflexivity.
  rewrite IH by lia. reflexivity.
Qed.

Lemma fold_left_Rmin_le (l : list R) (x : R) :
  fold_left Rmin l x <= x /\ (forall y, In y l -> fold_left Rmin l x <= y).
Proof.
  revert x. induction l as [| z l IH]; intros x; cbn [fold_left].
  - split; [lra | intros y []].
  - destruct (IH (Rmin x z)) as [H1 H2].
    pose proof (Rmin_l x z). pose proof (Rmin_r x z).
    split; [lra |]. intros y [<- | Hy]; [lra | now apply H2].
Qed.

Lemma fold_left_Rmin_in (l : list R) (x : R) : In (fold_left Rmin l x) (x :: l).
Proof.
  revert x. induction l as [| z l IH]; intros x; cbn [fold_left].
  - now left.
  - destruct (IH (Rmin x z)) as [H | H].
    + unfold Rmin in H at 1. destruct (Rle_dec x z); [left | right; left]; exact H.
    + right. right. exact H.
Qed.

Lemma fold_left_Rmax_ge (l : list R) (x : R) :
  x <= fold_left Rmax l x /\ (forall y, In y l -> y <= fold_left Rmax l x).
Proof.
  revert x. induction l as [| z l IH]; intros x; cbn [fold_left].
  - split; [lra | intros y []].
  - destruct (IH (Rmax x z)) as [H1 H2].
    pose proof (Rmax_l x z). pose proof (Rmax_r x z).
    split; [lra |]. intros y [<- | Hy]; [lra | now apply H2].
Qed.

Lemma np_min_le (l : list R) (y : R) : In y l -> np_min l <= y.
Proof.
  destruct l as [| x l]; intros H; [destruct H |]. unfold np_min.
  destruct (fold_left_Rmin_le l x) as [H1 H2].
  destruct H as [<- | H]; [exact H1 | now apply H2].
Qed.

Lemma np_min_in (l : list R) : l <> [] -> In (np_min l) l.
Proof.
  destruct l as [| x l]; intros H; [congruence |]. apply fold_left_Rmin_in.
Qed.

Lemma np_max_ge (l : list R) (y : R) : In y l -> y <= np_max l.
Proof.
  destruct l as [| x l]; intros H; [destruct H |]. unfold np_max.
  destruct (fold_left_Rmax_ge l x) as [H1 H2].
  destruct H as [<- | H]; [exact H1 | now apply H2].
Qed.

Lemma np_sum_between (l : list R) (lo hi : R) :
  (forall y, In y l -> lo <= y <= hi) ->
  INR (length l) * lo <= np_sum l <= INR (length l) * hi.
Proof.
  induction l as [| x l IH]; intros H.
  - cbn. lra.
  - cbn [length np_sum fold_right]. fold (np_sum l). rewrite S_INR.
    pose proof (H x (or_introl eq_refl)).
    specialize (IH (fun y Hy => H y (or_intror Hy))). lra.
Qed.

Lemma np_mean_between (l : list R) :
  l <> [] -> np_min l <= np_mean l <= np_max l.
Proof.
  intros Hne. unfold np_mean.
  assert (Hn : 0 < INR (length l)).
  { destruct l; [congruence |]. apply lt_0_INR. cbn. lia. }
  destruct (np_sum_between l (np_min l) (np_max l)) as [H1 H2].
  { intros y Hy. split; [now apply np_min_le | now apply np_max_ge]. }
  assert (Hinv : 0 < / INR (length l)) by (apply Rinv_0_lt_compat; exact Hn).
  split.
  - apply (Rmult_le_reg_l (INR (length l))); [exact Hn |].
    unfold Rdiv. rewrite (Rmult_comm (np_sum l)), <- Rmult_assoc, Rinv_r by lra. lra.
  - apply (Rmult_le_reg_l (INR (length l))); [exact Hn |].
    unfold Rdiv. rewrite (Rmult_comm (np_sum l)), <- Rmult_assoc, Rinv_r by lra. lra.
Qed.

Lemma np_min_le_max (l : list R) : np_min l <= np_max l.
Proof.
  destruct l as [| x l]; [cbn; lra |].
  pose proof (np_min_le (x :: l) x (or_introl eq_refl)).
  pose proof (np_max_ge (x :: l) x (or_introl eq_refl)). lra.
Qed.

Module PackExtras.
Import BatteryPack16S.

(** What the pack reports as temperature of cell [i]. *)
Definition temperature_reading (self : t) (i : nat) (cell : LiFePO4Cell.t) : R :=
  match nth i (_fault_temperatures self) None with
  | Some v => v
  | None => LiFePO4Cell._temperature_c cell
  end.

Lemma get_cell_temperatures_readings (self : t) :
  length (_cells self) = NUM_CELLS ->
  get_cell_temperatures self
  = map (fun ic => temperature_reading self (fst ic) (snd ic)) (enumerate (_cells self)).
Proof.
  intros Hlen. unfold get_cell_temperatures, enumerate.
  rewrite (fold_left_ext _
             (fun acc ix =>
                set_item acc (fst ix) (temperature_reading self (fst ix) (snd ix)))).
  - apply (fill_loop (temperature_reading self) (_cells self) [] (np_zeros NUM_CELLS)).
    unfold np_zeros. rewrite repeat_length. symmetry. exact Hlen.
  - intros acc [i cell]. unfold temperature_reading. cbn [fst snd].
    destruct (nth i (_fault_temperatures self) None); reflexivity.
Qed.

Lemma nth_error_get_cell_voltages (self : t) (i : nat) :
  length (_cells self) = NUM_CELLS ->
  nth_error (get_cell_voltages self) i
  = option_map (PackClaims.reading self i) (nth_error (_cells self) i).
Proof.
  intros Hlen. rewrite (PackClaims.get_cell_voltages_readings self Hlen).
  unfold enumerate. rewrite nth_error_map_enumerate. reflexivity.
Qed.

Lemma nth_error_get_cell_temperatures (self : t) (i : nat) :
  length (_cells self) = NUM_CELLS ->
  nth_error (get_cell_temperatures self) i
  = option_map (temperature_reading self i) (nth_error (_cells self) i).
Proof.
  intros Hlen. rewrite (get_cell_temperatures_readings self Hlen).
  unfold enumerate. rewrite nth_error_map_enumerate. reflexivity.
Qed.

Lemma cell_index_in_range (cell_index : Z) :
  (0 <= cell_index < 16)%Z ->
  ((cell_index <? 0) || (cell_index >=? Z.of_nat NUM_CELLS))%Z = false
  /\ (Z.to_nat cell_index < NUM_CELLS)%nat.
Proof.
  intros H. unfold NUM_CELLS. split; [| lia].
  apply orb_false_iff. split; [apply Z.ltb_ge; lia |].
  rewrite Z.geb_leb. apply Z.leb_gt. lia.
Qed.

(** *** The override API *)

(** X8: both setters refuse an index outside 0..15 with a [ValueError] and
    return no pack. *)
Theorem overrides_reject_bad_index (self : t) (cell_index : Z) (value : option R) :
  (cell_index < 0 \/ 16 <= cell_index)%Z ->
  set_cell_voltage self cell_index value = inl (ValueError "Cell index must be 0-15")
  /\ set_cell_temperature self cell_index value
     = inl (ValueError "Cell index must be 0-15").
Proof.
  intros H. unfold set_cell_voltage, set_cell_temperature.
  assert (E : ((cell_index <? 0) || (cell_index >=? Z.of_nat NUM_CELLS))%Z = true).
  { apply orb_true_iff. destruct H as [H | H]; [left | right].
    - apply Z.ltb_lt. exact H.
    - rewrite Z.geb_leb. apply Z.leb_le. unfold NUM_CELLS. lia. }
  rewrite E. split; reflexivity.
Qed.

Lemma overrides_reject_bad_index_witness :
  set_cell_voltage PackClaims.uniform_pack 16 (Some 3300)
  = inl (ValueError "Cell index must be 0-15").
Proof.
  apply (overrides_reject_bad_index PackClaims.uniform_pack 16 (Some 3300)). right. lia.
Defined.

(** X9: a voltage override on a valid index is read back verbatim at that
    index, leaves every other reading as it was, and clearing it restores
    the readings the pack had before. *)
Theorem set_cell_voltage_round_trip (self : t) (cell_index : Z) (voltage_mv : R) :
  length (_cells self) = NUM_CELLS ->
  length (_fault_voltages self) = NUM_CELLS ->
  (0 <= cell_index < 16)%Z ->
  exists forced : t,
    set_cell_voltage self cell_index (Some voltage_mv) = inr forced
    /\ nth_error (get_cell_voltages forced) (Z.to_nat cell_index) = Some voltage_mv
    /\ (forall j : nat, j <> Z.to_nat cell_index ->
          nth_error (get_cell_voltages forced) j = nth_error (get_cell_voltages self) j)
    /\ (nth (Z.to_nat cell_index) (_fault_voltages self) None = None ->
        exists cleared : t,
          set_cell_voltage forced cell_index None = inr cleared
          /\ get_cell_voltages cleared = get_cell_voltages self).
Proof.
  intros Hcells Hfaults Hidx.
  destruct (cell_index_in_range cell_index Hidx) as [Hok Hlt].
  unfold set_cell_voltage. rewrite Hok.
  set (i := Z.to_nat cell_index) in *.
  eexists. split; [reflexivity |].
  set (forced := set_fault_voltages (set_item (_fault_voltages self) i (Some voltage_mv))
                   self).
  assert (Hfc : length (_cells forced) = NUM_CELLS) by exact Hcells.
  split; [| split].
  - rewrite (nth_error_get_cell_voltages forced i Hfc).
    destruct (nth_error (_cells forced) i) as [cell |] eqn:E.
    + cbn [option_map]. unfold PackClaims.reading, forced. cbn [_fault_voltages set_fault_voltages].
      rewrite nth_set_item_same by (rewrite Hfaults; exact Hlt). reflexivity.
    + apply nth_error_None in E. lia.
  - intros j Hj.
    rewrite (nth_error_get_cell_voltages forced j Hfc),
      (nth_error_get_cell_voltages self j Hcells).
    change (_cells forced) with (_cells self).
    destruct (nth_error (_cells self) j) as [cell |]; [| reflexivity].
    cbn [option_map]. unfold PackClaims.reading, forced.
    cbn [_fault_voltages set_fault_voltages].
    rewrite nth_set_item_other by congruence. reflexivity.
  - intros Hnone. eexists. split; [reflexivity |].
    unfold forced. cbn [_fault_voltages set_fault_voltages].
    rewrite set_item_set_item, <- Hnone.
    rewrite set_item_unchanged by (rewrite Hfaults; exact Hlt).
    destruct self. reflexivity.
Qed.

Lemma uniform_pack_lengths :
  length (_cells PackClaims.uniform_pack) = NUM_CELLS
  /\ length (_fault_voltages PackClaims.uniform_pack) = NUM_CELLS
  /\ length (_fault_temperatures PackClaims.uniform_pack) = NUM_CELLS
  /\ (forall i, nth i (_fault_voltages PackClaims.uniform_pack) None = None)
  /\ (forall i, nth i (_fault_temperatures PackClaims.uniform_pack) None = None).
Proof.
  destruct PackClaims.uniform_pack_cells as [Hc Hf].
  assert (Ht : _fault_temperatures PackClaims.uniform_pack = repeat None NUM_CELLS).
  { unfold PackClaims.uniform_pack, __init__.
    destruct (np_random_normal 1 (0 / 100) NUM_CELLS _) as [cv w1].
    destruct (np_random_normal 0 (0 / 100) NUM_CELLS w1) as [sv w2].
    destruct (np_random_uniform (1 - 0) (1 + 0) NUM_CELLS w2) as [rv w3].
    reflexivity. }
  rewrite Hc, Hf, Ht, !repeat_length.
  repeat split; intros i; apply nth_repeat.
Qed.

Lemma set_cell_voltage_round_trip_witness :
  exists forced : t,
    set_cell_voltage PackClaims.uniform_pack 3 (Some 0) = inr forced
    /\ nth_error (get_cell_voltages forced) 3 = Some 0.
Proof.
  destruct uniform_pack_lengths as (Hc & Hv & _ & _).
  destruct (set_cell_voltage_round_trip PackClaims.uniform_pack 3 0 Hc Hv ltac:(lia))
    as (forced & Hset & Hread & _).
  exists forced. split; [exact Hset | exact Hread].
Defined.

(** *** Thermal coupling *)

Lemma apply_thermal_coupling_frame (self : t) (previous_temps : list R) (dt_ms : R) :
  let self' := _apply_thermal_coupling self previous_temps dt_ms in
  _fault_voltages self' = _fault_voltages self
  /\ _fault_temperatures self' = _fault_temperatures self
  /\ _pack_current_ma self' = _pack_current_ma self
  /\ _ambient_temp_c self' = _ambient_temp_c self
  /\ length (_cells self') = length (_cells self).
Proof.
  cbv zeta. unfold _apply_thermal_coupling. cbv zeta.
  cbn [_fault_voltages _fault_temperatures _pack_current_ma _ambient_temp_c _cells set_cells].
  repeat split.
  unfold enumerate.
  rewrite length_map, length_combine, length_seq. apply Nat.min_id.
Qed.

(** Coupling leaves a cell with a temperature override alone, and shifts
    and clips the temperature of any other cell. *)
Lemma apply_thermal_coupling_cell (self : t) (previous_temps : list R) (dt_ms : R)
    (i : nat) :
  exists change : R,
    nth_error (_cells (_apply_thermal_coupling self previous_temps dt_ms)) i
    = option_map
        (fun cell =>
           match nth i (_fault_temperatures self) None with
           | None =>
               LiFePO4Cell.set_temperature_c
                 (np_clip (LiFePO4Cell._temperature_c cell + change) (-40) 85) cell
           | Some _ => cell
           end)
        (nth_error (_cells self) i).
Proof.
  unfold _apply_thermal_coupling. cbv zeta.
  match goal with
  | |- context [fold_left ?f (seq 0 NUM_CELLS) (np_zeros NUM_CELLS)] =>
      generalize (fold_left f (seq 0 NUM_CELLS) (np_zeros NUM_CELLS))
  end.
  intros energy.
  exists (nth i energy 0 * (dt_ms / 1000) / LiFePO4Cell.THERMAL_MASS).
  cbn [_cells set_cells]. unfold enumerate.
  rewrite nth_error_map_enumerate. cbn [Nat.add].
  destruct (nth_error (_cells self) i) as [cell |]; [| reflexivity].
  cbn [option_map]. destruct (nth i (_fault_temperatures self) None); reflexivity.
Qed.

(** The coupling energies [_apply_thermal_coupling] accumulates from the
    coupling coefficient and the cell temperatures. *)
Definition coupling_energy (k : R) (current_temps : list R) : list R :=
  fold_left
    (fun coupling_energy i =>
       let coupling_energy :=
         if (0 <? i)%nat then
           let temp_diff := nth i current_temps 0 - nth (i - 1) current_temps 0 in
           let coupling_energy :=
             set_item coupling_energy i (nth i coupling_energy 0 - k * temp_diff) in
           set_item coupling_energy (i - 1) (nth (i - 1) coupling_energy 0 + k * temp_diff)
         else coupling_energy in
       if (i <? NUM_CELLS - 1)%nat then
         let temp_diff := nth i current_temps 0 - nth (i + 1) current_temps 0 in
         let coupling_energy :=
           set_item coupling_energy i (nth i coupling_energy 0 - k * temp_diff) in
         set_item coupling_energy (i + 1) (nth (i + 1) coupling_energy 0 + k * temp_diff)
       else coupling_energy)
    (seq 0 NUM_CELLS) (np_zeros NUM_CELLS).









(** *** One pack step, cell by cell *)

(** The ambient temperature a pack step works with. *)
Definition ambient_of (self : t) (ambient_temp_c : option R) : R :=
  match ambient_temp_c with
  | Some a => a
  | None => _ambient_temp_c self
  end.

Lemma update_frame (self : t) (current_ma dt_ms : R) (ambient_temp_c : option R) :
  let after := update self current_ma dt_ms ambient_temp_c in
  _pack_current_ma after = current_ma
  /\ length (_cells after) = length (_cells self)
  /\ _fault_voltages after = _fault_voltages self
  /\ _fault_temperatures after = _fault_temperatures self.
Proof.
  cbv zeta. unfold update. cbv zeta.
  match goal with
  | |- context [_apply_thermal_coupling ?s ?p ?d] =>
      destruct (apply_thermal_coupling_frame s p d) as (-> & -> & -> & _ & ->)
  end.
  cbn [_cells set_cells]. unfold enumerate.
  rewrite length_map, length_combine, length_seq, Nat.min_id.
  destruct ambient_temp_c; repeat split.
Qed.

(** The cell at position [i] after a pack step: the cell's own [update]
    with the pack current, then the coupling. *)
Lemma update_cell_at (self : t) (current_ma dt_ms : R) (ambient_temp_c : option R)
    (i : nat) (cell : LiFePO4Cell.t) :
  nth_error (_cells self) i = Some cell ->
  let own :=
    fst (LiFePO4Cell.update cell current_ma dt_ms (nth i (_fault_temperatures self) None)
           (Some (ambient_of self ambient_temp_c))) in
  exists change : R,
    nth_error (_cells (update self current_ma dt_ms ambient_temp_c)) i
    = Some match nth i (_fault_temperatures self) None with
           | None =>
               LiFePO4Cell.set_temperature_c
                 (np_clip (LiFePO4Cell._temperature_c own + change) (-40) 85) own
           | Some _ => own
           end.
Proof.
  intros Hcell. cbv zeta. unfold update. cbv zeta.
  set (self1 := set_pack_current_ma current_ma
                  match ambient_temp_c with
                  | Some a => set_ambient_temp_c a self
                  | None => self
                  end).
  assert (H1 : _cells self1 = _cells self
               /\ _fault_temperatures self1 = _fault_temperatures self
               /\ _ambient_temp_c self1 = ambient_of self ambient_temp_c)
    by (unfold self1; destruct ambient_temp_c; repeat split).
  destruct H1 as (Hc1 & Ht1 & Ha1).
  set (stepped := map _ (enumerate (_cells self1))).
  set (self2 := set_cells stepped self1).
  set (temps := map LiFePO4Cell._temperature_c (_cells self1)).
  destruct (apply_thermal_coupling_cell self2 temps dt_ms i) as [change Hcoupled].
  exists change. rewrite Hcoupled. cbn [_cells set_cells self2 _fault_temperatures].
  fold self1. rewrite Ht1.
  unfold stepped, enumerate at 1. rewrite nth_error_map_enumerate, Hc1, Hcell.
  cbn [option_map Nat.add]. rewrite Ht1, Ha1. reflexivity.
Qed.


(** *** Temperature overrides, and clearing all overrides *)

(** X12: a temperature override on a valid index is what the pack reports for
    that cell, before and after a pack step, and the step forces it, as it
    is, on the cell itself. *)
Theorem set_cell_temperature_held (self : t) (cell_index : Z) (temperature_c : R)
    (current_ma dt_ms : R) (ambient_temp_c : option R) :
  length (_cells self) = NUM_CELLS ->
  length (_fault_temperatures self) = NUM_CELLS ->
  (0 <= cell_index < 16)%Z ->
  exists forced : t,
    set_cell_temperature self cell_index (Some temperature_c) = inr forced
    /\ nth_error (get_cell_temperatures forced) (Z.to_nat cell_index) = Some temperature_c
    /\ (forall j : nat, j <> Z.to_nat cell_index ->
          nth_error (get_cell_temperatures forced) j
          = nth_error (get_cell_temperatures self) j)
    /\ let after := update forced current_ma dt_ms ambient_temp_c in
       nth_error (get_cell_temperatures after) (Z.to_nat cell_index) = Some temperature_c
       /\ option_map LiFePO4Cell._temperature_c
            (nth_error (_cells after) (Z.to_nat cell_index))
          = Some temperature_c.
Proof.
  intros Hcells Hfaults Hidx.
  destruct (cell_index_in_range cell_index Hidx) as [Hok Hlt].
  unfold set_cell_temperature. rewrite Hok.
  set (i := Z.to_nat cell_index) in *.
  eexists. split; [reflexivity |].
  set (forced := set_fault_temperatures
                   (set_item (_fault_temperatures self) i (Some temperature_c)) self).
  assert (Hfc : length (_cells forced) = NUM_CELLS) by exact Hcells.
  assert (Hfi : nth i (_fault_temperatures forced) None = Some temperature_c).
  { unfold forced. cbn [_fault_temperatures set_fault_temperatures].
    apply nth_set_item_same. rewrite Hfaults. exact Hlt. }
  destruct (nth_error (_cells forced) i) as [cell |] eqn:Ecell;
    [| apply nth_error_None in Ecell; lia].
  split; [| split].
  - rewrite (nth_error_get_cell_temperatures forced i Hfc), Ecell.
    cbn [option_map]. unfold temperature_reading. rewrite Hfi. reflexivity.
  - intros j Hj.
    rewrite (nth_error_get_cell_temperatures forced j Hfc),
      (nth_error_get_cell_temperatures self j Hcells).
    change (_cells forced) with (_cells self).
    destruct (nth_error (_cells self) j) as [c |]; [| reflexivity].
    cbn [option_map]. unfold temperature_reading, forced.
    cbn [_fault_temperatures set_fault_temperatures].
    rewrite nth_set_item_other by congruence. reflexivity.
  - cbv zeta.
    destruct (update_frame forced current_ma dt_ms ambient_temp_c) as (_ & Hl & _ & Ht).
    destruct (update_cell_at forced current_ma dt_ms ambient_temp_c i cell Ecell)
      as [change Hat].
    cbv zeta in Hat. rewrite Hfi in Hat.
    assert (Hlen : length (_cells (update forced current_ma dt_ms ambient_temp_c))
                   = NUM_CELLS) by (rewrite Hl; exact Hfc).
    rewrite (nth_error_get_cell_temperatures _ i Hlen), Hat.
    cbn [option_map]. unfold temperature_reading. rewrite Ht, Hfi.
    split; [reflexivity |].
    rewrite CellFacts.update_final_temperature. reflexivity.
Qed.

Lemma set_cell_temperature_held_witness :
  exists forced : t,
    set_cell_temperature PackClaims.uniform_pack 7 (Some 500) = inr forced
    /\ nth_error (get_cell_temperatures (update forced (-50000) 100 None)) 7 = Some 500.
Proof.
  destruct uniform_pack_lengths as (Hc & _ & Ht & _).
  destruct (set_cell_temperature_held PackClaims.uniform_pack 7 500 (-50000) 100 None
              Hc Ht ltac:(lia))
    as (forced & Hset & _ & _ & Hafter & _).
  exists forced. split; [exact Hset | exact Hafter].
Defined.

Lemma map_enumerate_snd {A B : Type} (g : A -> B) (l : list A) :
  map (fun ic => g (snd ic)) (enumerate l) = map g l.
Proof.
  unfold enumerate. generalize 0%nat.
  induction l as [| x l IH]; intros a; cbn; [reflexivity | now rewrite IH].
Qed.

Lemma nth_all_none {A B : Type} (l : list A) (i : nat) :
  nth i (map (fun _ => @None B) l) None = None.
Proof.
  revert i. induction l as [| x l IH]; intros [| i]; cbn; auto.
Qed.

(** Without overrides the pack reads each cell's own values. *)
Lemma readings_without_overrides (self : t) :
  length (_cells self) = NUM_CELLS ->
  (forall i, nth i (_fault_voltages self) None = None) ->
  (forall i, nth i (_fault_temperatures self) None = None) ->
  get_cell_voltages self
  = map (fun cell => LiFePO4Cell.get_ocv cell None None None * 1000) (_cells self)
  /\ get_cell_temperatures self = map LiFePO4Cell._temperature_c (_cells self).
Proof.
  intros Hlen Hv Ht. split.
  - rewrite (PackClaims.get_cell_voltages_readings self Hlen).
    etransitivity; [| apply map_enumerate_snd]. apply map_ext. intros [i cell].
    unfold PackClaims.reading. cbn [fst snd]. rewrite Hv. reflexivity.
  - rewrite (get_cell_temperatures_readings self Hlen).
    etransitivity; [| apply map_enumerate_snd]. apply map_ext. intros [i cell].
    unfold temperature_reading. cbn [fst snd]. rewrite Ht. reflexivity.
Qed.

(** X13: [clear_all_faults] drops every override: the pack then reads the
    open-circuit voltage and the temperature of each cell again, and the
    cells themselves are untouched. *)
Theorem clear_all_faults_restores (self : t) :
  length (_cells self) = NUM_CELLS ->
  let cleared := clear_all_faults self in
  _cells cleared = _cells self
  /\ length (_fault_voltages cleared) = length (_fault_voltages self)
  /\ length (_fault_temperatures cleared) = length (_fault_temperatures self)
  /\ get_cell_voltages cleared
     = map (fun cell => LiFePO4Cell.get_ocv cell None None None * 1000) (_cells self)
  /\ get_cell_temperatures cleared = map LiFePO4Cell._temperature_c (_cells self).
Proof.
  intros Hlen. cbv zeta.
  split; [reflexivity |].
  split; [apply length_map |].
  split; [apply length_map |].
  apply (readings_without_overrides (clear_all_faults self) Hlen);
    intros i; apply nth_all_none.
Qed.

Lemma clear_all_faults_restores_witness :
  get_cell_temperatures (clear_all_faults PackClaims.uniform_pack)
  = map LiFePO4Cell._temperature_c (_cells PackClaims.uniform_pack).
Proof.
  destruct uniform_pack_lengths as (Hc & _).
  apply (clear_all_faults_restores PackClaims.uniform_pack Hc).
Defined.

(** *** Pack SOC and imbalance *)

Lemma get_pack_soc_cases (self : t) :
  (_soc_calculation_mode self = "average"%string
   /\ get_pack_soc self = np_mean (get_cell_socs self))
  \/ (_soc_calculation_mode self <> "average"%string
      /\ get_pack_soc self = np_min (get_cell_socs self)).
Proof.
  unfold get_pack_soc. cbv zeta.
  destruct (String.eqb_spec (_soc_calculation_mode self) "minimum") as [E | _].
  - right. split; [rewrite E; discriminate | reflexivity].
  - destruct (String.eqb_spec (_soc_calculation_mode self) "average") as [E | E].
    + left. split; [exact E | reflexivity].
    + right. split; [exact E | reflexivity].
Qed.

(** X14: the pack SOC is the mean of the cell SOCs in mode 'average' and the
    least cell SOC in every other mode; either way it lies between the least
    and the greatest cell SOC, and within [0, 100] when every cell's SOC is
    within [0, 1]. *)
Theorem get_pack_soc_modes (self : t) :
  _cells self <> [] ->
  let socs := get_cell_socs self in
  (_soc_calculation_mode self = "average"%string ->
   get_pack_soc self = np_sum socs / INR (length (_cells self)))
  /\ (_soc_calculation_mode self <> "average"%string ->
      In (get_pack_soc self) socs
      /\ forall soc : R, In soc socs -> get_pack_soc self <= soc)
  /\ np_min socs <= get_pack_soc self <= np_max socs
  /\ (Forall (fun cell => 0 <= LiFePO4Cell._soc cell <= 1) (_cells self) ->
      0 <= get_pack_soc self <= 100).
Proof.
  intros Hne. cbv zeta.
  assert (Hsocs : get_cell_socs self <> []).
  { unfold get_cell_socs. destruct (_cells self); [congruence | discriminate]. }
  pose proof (np_mean_between (get_cell_socs self) Hsocs) as Hmean.
  pose proof (np_min_le_max (get_cell_socs self)) as Hmm.
  assert (Hbetween : np_min (get_cell_socs self) <= get_pack_soc self
                     <= np_max (get_cell_socs self)).
  { destruct (get_pack_soc_cases self) as [[_ ->] | [_ ->]]; lra. }
  split; [| split; [| split]].
  - intros Havg. destruct (get_pack_soc_cases self) as [[_ ->] | [Hn _]]; [| congruence].
    unfold np_mean, get_cell_socs. rewrite length_map. reflexivity.
  - intros Hmode. destruct (get_pack_soc_cases self) as [[Ha _] | [_ ->]]; [congruence |].
    split; [apply np_min_in; exact Hsocs | intros soc; apply np_min_le].
  - exact Hbetween.
  - intros Hall.
    assert (Hrange : forall soc, In soc (get_cell_socs self) -> 0 <= soc <= 100).
    { intros soc Hin. unfold get_cell_socs in Hin. apply in_map_iff in Hin.
      destruct Hin as (cell & <- & Hcell).
      rewrite Forall_forall in Hall. specialize (Hall cell Hcell). lra. }
    pose proof (Hrange _ (np_min_in _ Hsocs)) as Hlo.
    assert (Hhi : np_max (get_cell_socs self) <= 100).
    { destruct (get_cell_socs self) as [| x l] eqn:E; [congruence |].
      unfold np_max.
      assert (Hx : x <= 100) by (apply Hrange; now left).
      assert (Hl : forall y, In y l -> y <= 100) by (intros y Hy; apply Hrange; now right).
      clear - Hx Hl. revert x Hx. induction l as [| z l IH]; intros x Hx; cbn [fold_left].
      - exact Hx.
      - apply IH; [intros y Hy; apply Hl; now right |].
        apply Rmax_lub; [exact Hx | apply Hl; now left]. }
    lra.
Qed.

Lemma uniform_pack_nonempty : _cells PackClaims.uniform_pack <> [].
Proof.
  destruct PackClaims.uniform_pack_cells as [Hc _]. rewrite Hc. discriminate.
Qed.

Lemma get_pack_soc_modes_witness :
  np_min (get_cell_socs PackClaims.uniform_pack) <= get_pack_soc PackClaims.uniform_pack
  <= np_max (get_cell_socs PackClaims.uniform_pack).
Proof.
  apply (get_pack_soc_modes PackClaims.uniform_pack uniform_pack_nonempty).
Defined.

(** X15: the imbalance report: both spreads and both standard deviations are
    not negative, and every reading lies between the reported minimum and
    maximum. *)
Theorem cell_imbalance_consistent (self : t) :
  let report := get_cell_imbalance self in
  0 <= voltage_delta_mv report
  /\ 0 <= soc_delta_pct report
  /\ 0 <= voltage_std_mv report
  /\ 0 <= soc_std_pct report
  /\ (forall v : R, In v (get_cell_voltages self) ->
        min_voltage_mv report <= v <= max_voltage_mv report)
  /\ (forall soc : R, In soc (get_cell_socs self) ->
        min_soc_pct report <= soc <= max_soc_pct report).
Proof.
  cbv zeta. unfold get_cell_imbalance. cbv zeta.
  cbn [voltage_delta_mv soc_delta_pct voltage_std_mv soc_std_pct min_voltage_mv
       max_voltage_mv min_soc_pct max_soc_pct].
  pose proof (np_min_le_max (get_cell_voltages self)).
  pose proof (np_min_le_max (get_cell_socs self)).
  repeat split; try lra; try apply sqrt_pos;
    try (now apply np_min_le); now apply np_max_ge.
Qed.

(** X16: the pack state is consistent with itself: three vectors of 16
    entries, a pack voltage that is the sum of the listed cell voltages and
    lies between 16 times the reported minimum and maximum, and a pack SOC
    between the reported extreme SOCs. *)
Theorem pack_state_consistent (self : t) :
  length (_cells self) = NUM_CELLS ->
  let state := get_pack_state self in
  length (cell_voltages_mv state) = 16%nat
  /\ length (cell_temperatures_c state) = 16%nat
  /\ length (cell_socs_pct state) = 16%nat
  /\ pack_voltage_mv state = np_sum (cell_voltages_mv state)
  /\ 16 * min_voltage_mv (imbalance state) <= pack_voltage_mv state
     <= 16 * max_voltage_mv (imbalance state)
  /\ min_soc_pct (imbalance state) <= pack_soc_pct state <= max_soc_pct (imbalance state).
Proof.
  intros Hlen. cbv zeta. unfold get_pack_state, get_cell_imbalance. cbv zeta.
  cbn [cell_voltages_mv cell_temperatures_c cell_socs_pct pack_voltage_mv pack_soc_pct
       imbalance min_voltage_mv max_voltage_mv min_soc_pct max_soc_pct].
  assert (Hne : _cells self <> []).
  { intros E. rewrite E in Hlen. discriminate. }
  assert (Hlv : length (get_cell_voltages self) = 16%nat).
  { rewrite (PackClaims.get_cell_voltages_readings self Hlen). unfold enumerate.
    rewrite length_map, length_combine, length_seq, Hlen. reflexivity. }
  assert (Hlt : length (get_cell_temperatures self) = 16%nat).
  { rewrite (get_cell_temperatures_readings self Hlen). unfold enumerate.
    rewrite length_map, length_combine, length_seq, Hlen. reflexivity. }
  split; [exact Hlv |]. split; [exact Hlt |].
  split; [unfold get_cell_socs; rewrite length_map; exact Hlen |].
  split; [reflexivity |].
  split.
  - unfold get_pack_voltage. cbv zeta.
    destruct (np_sum_between (get_cell_voltages self)
                (np_min (get_cell_voltages self)) (np_max (get_cell_voltages self)))
      as [H1 H2].
    { intros y Hy. split; [now apply np_min_le | now apply np_max_ge]. }
    rewrite Hlv in H1, H2. cbn [INR] in H1, H2. lra.
  - assert (Hsocs : get_cell_socs self <> []).
    { unfold get_cell_socs. destruct (_cells self); [congruence | discriminate]. }
    pose proof (np_mean_between (get_cell_socs self) Hsocs).
    pose proof (np_min_le_max (get_cell_socs self)).
    destruct (get_pack_soc_cases self) as [[_ ->] | [_ ->]]; lra.
Qed.

Lemma pack_state_consistent_witness :
  pack_voltage_mv (get_pack_state PackClaims.uniform_pack)
  = np_sum (cell_voltages_mv (get_pack_state PackClaims.uniform_pack)).
Proof.
  destruct uniform_pack_lengths as (Hc & _).
  apply (pack_state_consistent PackClaims.uniform_pack Hc).
Defined.

(** *** Aging and reset of the whole pack *)

(** X17: [set_aging] ages every cell with the cycle count floored at zero,
    which gives all of them one and the same resistance multiplier, while
    the pack itself records the count as given. *)
Theorem pack_set_aging (self : t) (cycles : Z) :
  let aged := set_aging self cycles in
  _cycles aged = cycles
  /\ _cells aged = map (fun cell => LiFePO4Cell.set_aging cell cycles None) (_cells self)
  /\ (forall cell : LiFePO4Cell.t, In cell (_cells aged) ->
        LiFePO4Cell._cycles cell = Z.max cycles 0
        /\ LiFePO4Cell._resistance_multiplier cell = 1 + 0.001 * IZR (Z.max cycles 0)
        /\ 1 <= LiFePO4Cell._resistance_multiplier cell).
Proof.
  cbv zeta. unfold set_aging. cbv zeta. cbn [_cycles _cells set_cells].
  split; [reflexivity |]. split; [reflexivity |].
  intros cell Hin. apply in_map_iff in Hin. destruct Hin as (old & <- & _).
  unfold LiFePO4Cell.set_aging. cbv zeta.
  match goal with
  | |- context [LiFePO4Cell._update_aging ?c] =>
      destruct (CellFacts.update_aging_floors c) as (Hfloor & _);
      destruct (CellExtras.update_aging_values c) as [_ Hres]
  end.
  split; [reflexivity |].
  split; [| exact Hfloor].
  rewrite Hres. cbn [LiFePO4Cell._cycles LiFePO4Cell.set_cycles].
  rewrite (Z.max_l (Z.max cycles 0) 0) by lia.
  unfold LiFePO4Cell.RESISTANCE_INCREASE_RATE. reflexivity.
Qed.

Lemma constant_vector (l : list R) (v : R) :
  l <> [] -> (forall x, In x l -> x = v) -> np_min l = v /\ np_mean l = v.
Proof.
  intros Hne Hall. split.
  - apply Hall. apply np_min_in. exact Hne.
  - unfold np_mean.
    assert (Hn : 0 < INR (length l)).
    { destruct l; [congruence |]. apply lt_0_INR. cbn. lia. }
    destruct (np_sum_between l v v) as [H1 H2].
    { intros y Hy. rewrite (Hall y Hy). lra. }
    apply (Rmult_eq_reg_l (INR (length l))); [| lra].
    unfold Rdiv. rewrite (Rmult_comm (np_sum l)), <- Rmult_assoc, Rinv_r by lra. lra.
Qed.

(** X18: [reset] with an SOC puts every cell at that SOC (clipped to 0..100
    percent) with relaxed RC branches and no direction, drops every
    override, zeroes the current, and the pack SOC is then that SOC in any
    mode. *)
Theorem pack_reset (self : t) (soc_pct : R) (temperature_c : option R) :
  _cells self <> [] ->
  let fresh := reset self (Some soc_pct) temperature_c in
  get_pack_current fresh = 0
  /\ length (_cells fresh) = length (_cells self)
  /\ (forall i : nat, nth i (_fault_voltages fresh) None = None
                      /\ nth i (_fault_temperatures fresh) None = None)
  /\ (forall cell : LiFePO4Cell.t, In cell (_cells fresh) ->
        LiFePO4Cell._soc cell = np_clip (soc_pct / 100) 0 1
        /\ LiFePO4Cell._v_rc1 cell = 0
        /\ LiFePO4Cell._v_rc2 cell = 0
        /\ LiFePO4Cell._last_current_direction cell = 0%Z
        /\ (forall forced : R, temperature_c = Some forced ->
              LiFePO4Cell._temperature_c cell = forced))
  /\ get_pack_soc fresh = np_clip (soc_pct / 100) 0 1 * 100.
Proof.
  intros Hne. cbv zeta. unfold reset. cbv zeta.
  set (cells := map (fun cell => LiFePO4Cell.reset cell (Some soc_pct) temperature_c)
                  (_cells self)).
  assert (Hcells : forall cell, In cell cells ->
             LiFePO4Cell._soc cell = np_clip (soc_pct / 100) 0 1
             /\ LiFePO4Cell._v_rc1 cell = 0
             /\ LiFePO4Cell._v_rc2 cell = 0
             /\ LiFePO4Cell._last_current_direction cell = 0%Z
             /\ (forall forced : R, temperature_c = Some forced ->
                   LiFePO4Cell._temperature_c cell = forced)).
  { intros cell Hin. apply in_map_iff in Hin. destruct Hin as (old & <- & _).
    unfold LiFePO4Cell.reset. cbv zeta.
    destruct temperature_c as [tc |]; cbn; repeat split; try reflexivity;
      intros forced Hf; congruence. }
  split; [reflexivity |].
  split; [apply length_map |].
  split; [intros i; split; apply nth_all_none |].
  split; [exact Hcells |].
  set (fresh := set_pack_current_ma 0 (clear_all_faults (set_cells cells self))).
  assert (Hsocs : get_cell_socs fresh
                  = map (fun cell => LiFePO4Cell._soc cell * 100) cells) by reflexivity.
  assert (Hne' : get_cell_socs fresh <> []).
  { rewrite Hsocs. unfold cells. destruct (_cells self); [congruence | discriminate]. }
  destruct (constant_vector (get_cell_socs fresh) (np_clip (soc_pct / 100) 0 1 * 100) Hne')
    as [Hmin Hmean].
  { intros x Hx. rewrite Hsocs in Hx. apply in_map_iff in Hx.
    destruct Hx as (cell & <- & Hin). destruct (Hcells cell Hin) as (-> & _). reflexivity. }
  destruct (get_pack_soc_cases fresh) as [[_ ->] | [_ ->]]; assumption.
Qed.

Lemma pack_reset_witness :
  get_pack_soc (reset PackClaims.uniform_pack (Some 80) None) = np_clip (80 / 100) 0 1 * 100.
Proof.
  apply (pack_reset PackClaims.uniform_pack 80 None uniform_pack_nonempty).
Defined.

(** *** The constructor *)



End PackExtras.

(** ** More facts about rounding and bit masks *)

Lemma round_half_even_near (x : R) : Rabs (IZR (round_half_even x) - x) <= 1 / 2.
Proof.
  unfold round_half_even. cbv zeta.
  destruct (base_Int_part x) as [Hle Hgt].
  set (f := Int_part x) in *.
  destruct (Rlt_dec (x - IZR f) (1 / 2)) as [Hlt | Hnlt].
  - apply Rabs_le. lra.
  - destruct (Rgt_dec (x - IZR f) (1 / 2)) as [Hgt' | Hngt].
    + rewrite plus_IZR. apply Rabs_le. lra.
    + destruct (Z.even f); [| rewrite plus_IZR]; apply Rabs_le; lra.
Qed.

Lemma round_half_even_monotone (x y : R) :
  x <= y -> (round_half_even x <= round_half_even y)%Z.
Proof.
  intros Hxy.
  destruct (Z_le_gt_dec (round_half_even x) (round_half_even y)) as [H | H]; [exact H |].
  exfalso.
  assert (Hz : (round_half_even y + 1 <= round_half_even x)%Z) by lia.
  apply IZR_le in Hz. rewrite plus_IZR in Hz.
  pose proof (Rabs_le_between _ _ (round_half_even_near x)) as Hx.
  pose proof (Rabs_le_between _ _ (round_half_even_near y)) as Hy.
  assert (E : x = y) by lra. subst y. lia.
Qed.

Lemma mask_clear_after_set (mask m : Z) :
  Z.land (Z.land (Z.lor mask m) (Z.lnot m)) m = 0%Z.
Proof.
  apply Z.bits_inj'. intros n Hn.
  rewrite !Z.land_spec, Z.lor_spec, Z.lnot_spec, Z.bits_0 by exact Hn.
  destruct (Z.testbit mask n); destruct (Z.testbit m n); reflexivity.
Qed.

Lemma mask_restored (mask m : Z) :
  Z.land mask m = 0%Z -> Z.land (Z.lor mask m) (Z.lnot m) = mask.
Proof.
  intros H. apply Z.bits_inj'. intros n Hn.
  assert (Hb : Z.testbit (Z.land mask m) n = false) by (rewrite H; apply Z.bits_0).
  rewrite Z.land_spec in Hb.
  rewrite Z.land_spec, Z.lor_spec, Z.lnot_spec by exact Hn.
  destruct (Z.testbit mask n); destruct (Z.testbit m n); try reflexivity; discriminate.
Qed.

Module AFEExtras.
Import AFEWrapper AFEFacts.

(** *** Quantization *)

(** X19: quantization to a positive resolution moves a value by at most half a
    step, keeps the order of values, and leaves a quantized value as it is. *)
Theorem quantize_nearest (resolution x y : R) :
  0 < resolution ->
  Rabs (quantize resolution x - x) <= resolution / 2
  /\ quantize resolution (quantize resolution x) = quantize resolution x
  /\ (x <= y -> quantize resolution x <= quantize resolution y).
Proof.
  intros Hr. unfold quantize.
  assert (Hinv : 0 < / resolution) by (apply Rinv_0_lt_compat; exact Hr).
  split; [| split].
  - pose proof (round_half_even_near (x / resolution)) as Hnear.
    replace (IZR (round_half_even (x / resolution)) * resolution - x)
      with ((IZR (round_half_even (x / resolution)) - x / resolution) * resolution)
      by (field; lra).
    rewrite Rabs_mult, (Rabs_right resolution) by lra.
    apply (Rmult_le_compat_r resolution) in Hnear; lra.
  - replace (IZR (round_half_even (x / resolution)) * resolution / resolution)
      with (IZR (round_half_even (x / resolution))) by (field; lra).
    rewrite round_half_even_IZR. reflexivity.
  - intros Hxy. apply Rmult_le_compat_r; [lra |]. apply IZR_le.
    apply round_half_even_monotone. unfold Rdiv. apply Rmult_le_compat_r; lra.
Qed.

Lemma quantize_nearest_witness :
  Rabs (quantize VOLTAGE_RESOLUTION_MV 3200.123 - 3200.123) <= VOLTAGE_RESOLUTION_MV / 2.
Proof.
  apply (quantize_nearest VOLTAGE_RESOLUTION_MV 3200.123 3200.123).
  unfold VOLTAGE_RESOLUTION_MV. lra.
Defined.

(** *** Injecting and clearing faults *)

(** The mask a fault type works on (none for the last two types). *)
Definition fault_mask (fault_type : FaultType) (self : t) : Z :=
  match fault_type with
  | OPEN_WIRE => _open_wire_mask self
  | STUCK_ADC => _stuck_adc_mask self
  | NTC_OPEN | NTC_SHORT => _ntc_fault_mask self
  | CURRENT_SENSOR_FAULT | CRC_ERROR => 0%Z
  end.

(** X20: without a cell mask, [inject_fault] raises a [ValueError] for the four
    per-cell fault types and leaves wrapper and world as they were; the
    current-sensor fault needs no mask, and the CRC type is accepted and
    changes nothing. *)
Theorem inject_fault_needs_mask (fault_type : FaultType) (s : t * World) :
  match fault_type with
  | CURRENT_SENSOR_FAULT =>
      inject_fault (Enum fault_type) None None s
      = (Ok tt, (put_current_sensor_fault true (fst s), snd s))
  | CRC_ERROR => inject_fault (Enum fault_type) None None s = (Ok tt, s)
  | _ =>
      forall duration_ms : option R,
      exists msg : string,
        inject_fault (Enum fault_type) None duration_ms s = (Raise (ValueError msg), s)
  end.
Proof.
  destruct s as [self w].
  destruct fault_type; try reflexivity; intros duration_ms; eexists; reflexivity.
Qed.

(** X21: a fault type given as a string is matched without regard to case:
    any spelling of a member's value behaves as the member itself, and a
    string that names no member raises a [ValueError] and changes nothing. *)
Theorem fault_type_strings (name : string) (cell_mask : option Z)
    (duration_ms : option R) (s : t * World) :
  (forall fault_type : FaultType,
      str_lower name = FaultType_value fault_type ->
      inject_fault (Str name) cell_mask duration_ms s
      = inject_fault (Enum fault_type) cell_mask duration_ms s
      /\ clear_fault (Str name) cell_mask s = clear_fault (Enum fault_type) cell_mask s)
  /\ ((forall fault_type : FaultType, str_lower name <> FaultType_value fault_type) ->
      inject_fault (Str name) cell_mask duration_ms s
      = (Raise (ValueError ("Unknown fault type: " ++ name)), s)
      /\ clear_fault (Str name) cell_mask s
         = (Raise (ValueError ("Unknown fault type: " ++ name)), s)).
Proof.
  split.
  - intros fault_type Hname.
    assert (Hfind : FaultType_of_value (str_lower name) = Some fault_type)
      by (rewrite Hname; destruct fault_type; reflexivity).
    unfold inject_fault, clear_fault, coerce_fault_type. rewrite Hfind.
    split; reflexivity.
  - intros Hnone.
    assert (Hfind : FaultType_of_value (str_lower name) = None).
    { destruct (FaultType_of_value (str_lower name)) as [f |] eqn:E; [| reflexivity].
      exfalso. apply (Hnone f). unfold FaultType_of_value in E.
      apply find_some in E. destruct E as [_ E]. apply String.eqb_eq in E. congruence. }
    unfold inject_fault, clear_fault, coerce_fault_type. rewrite Hfind.
    split; reflexivity.
Qed.

Lemma fault_type_strings_witness :
  inject_fault (Str "Open_WIRE") (Some 32%Z) None (AFEClaims.quiet_afe, still_world)
  = inject_fault (Enum OPEN_WIRE) (Some 32%Z) None (AFEClaims.quiet_afe, still_world).
Proof.
  apply (fault_type_strings "Open_WIRE" (Some 32%Z) None (AFEClaims.quiet_afe, still_world)).
  reflexivity.
Defined.

(** X22: injecting a permanent fault with a mask and clearing it with the same
    mask always succeeds and leaves no bit of the mask set; when none of
    these bits was set before (and, for the current-sensor fault, the fault
    was not active), the wrapper is back as it was. *)
Theorem inject_then_clear (fault_type : FaultType) (cell_mask : Z) (self : t) (w : World) :
  exists injected cleared : t,
    inject_fault (Enum fault_type) (Some cell_mask) None (self, w) = (Ok tt, (injected, w))
    /\ clear_fault (Enum fault_type) (Some cell_mask) (injected, w) = (Ok tt, (cleared, w))
    /\ fault_mask fault_type injected
       = Z.lor (fault_mask fault_type self)
           (match fault_type with
            | CURRENT_SENSOR_FAULT | CRC_ERROR => 0%Z
            | _ => cell_mask
            end)
    /\ Z.land (fault_mask fault_type cleared) cell_mask = 0%Z
    /\ _current_sensor_fault cleared
       = (match fault_type with
          | CURRENT_SENSOR_FAULT => false
          | _ => _current_sensor_fault self
          end)
    /\ (Z.land (fault_mask fault_type self) cell_mask = 0%Z ->
        _current_sensor_fault self = false ->
        cleared = self).
Proof.
  destruct fault_type; eexists; eexists;
    (split; [reflexivity |]); (split; [reflexivity |]);
    cbn [fault_mask _open_wire_mask _stuck_adc_mask _ntc_fault_mask _current_sensor_fault
         put_open_wire_mask put_stuck_adc_mask put_ntc_fault_mask put_current_sensor_fault
         fst snd];
    (split; [try reflexivity |]); (split; [try apply mask_clear_after_set; try reflexivity |]);
    (split; [reflexivity |]);
    intros Hmask Hcsf; destruct self; cbn in *;
    rewrite ?mask_restored by exact Hmask; subst; reflexivity.
Qed.

(** *** Every run of [apply_measurement] *)

(** The call raises exactly what the schedule update raises. *)
Lemma apply_measurement_raises (true_voltages true_temps : list R) (true_current : R)
    (self : t) (w : World) (e : exception) (s2 : t * World) :
  _update_fault_schedule (counted self, w) = (Raise e, s2) ->
  apply_measurement true_voltages true_temps true_current (self, w) = (Raise e, s2).
Proof.
  intros H. unfold apply_measurement.
  rewrite (bind_run (modify_self _) _ (self, w) (counted self, w) tt) by reflexivity.
  unfold bind at 1. rewrite H. reflexivity.
Qed.

(** Once the schedule update has returned, the rest of the call returns
    too: the stages after it never raise. *)
Lemma apply_measurement_run (true_voltages true_temps : list R) (true_current : R)
    (self : t) (w : World) (s2 : t * World) :
  _update_fault_schedule (counted self, w) = (Ok tt, s2) ->
  exists (m : list R) (measured : t) (w3 w4 w5 w7 : World) (inject : bool),
    fold_left voltage_fault_step (seq 0 NUM_CELLS) (raw_voltages true_voltages s2, fst s2)
    = (m, measured)
    /\ w3 = snd (np_random_normal 0 (_voltage_noise_mv (fst s2)) NUM_CELLS (snd s2))
    /\ let voltages := map to_adc m in
       let temps := temperature_readings true_temps (measured, w3) in
       let current := current_reading true_current (measured, w4) in
       let flagged := put_status_flags (status_word measured voltages temps current)
                        measured in
       _should_inject_crc_error (flagged, w5) = (Ok inject, (flagged, w7))
       /\ apply_measurement true_voltages true_temps true_current (self, w)
          = (Ok (voltages, temps, current,
                 _status_flags (with_flags measured voltages temps current inject)),
             (with_flags measured voltages temps current inject, w7)).
Proof.
  intros Hsched.
  pose proof (process_voltages_run true_voltages s2) as Hv. cbv zeta in Hv.
  destruct (fold_left voltage_fault_step (seq 0 NUM_CELLS)
              (raw_voltages true_voltages s2, fst s2)) as [m measured].
  cbn [fst snd] in Hv.
  set (w3 := snd (np_random_normal 0 (_voltage_noise_mv (fst s2)) NUM_CELLS (snd s2))) in *.
  pose proof (process_temperatures_run true_temps measured w3) as Ht.
  set (w4 := snd (np_random_normal 0 (_temp_noise_c measured) NUM_CELLS w3)) in *.
  pose proof (process_current_run true_current measured w4) as Hc.
  set (w5 := snd (np_random_normal1 0 (_current_noise_ma measured) w4)) in *.
  set (mv := map to_adc m) in *.
  set (mt := temperature_readings true_temps (measured, w3)) in *.
  set (mi := current_reading true_current (measured, w4)) in *.
  pose proof (update_status_flags_run mv mt mi measured w5) as Hf.
  destruct (should_inject_crc_error_run
              (put_status_flags (status_word measured mv mt mi) measured) w5)
    as (inject & w7 & Hi).
  exists m, measured, w3, w4, w5, w7, inject.
  split; [reflexivity |]. split; [reflexivity |]. cbv zeta.
  split; [exact Hi |].
  unfold apply_measurement.
  rewrite (bind_run (modify_self _) _ (self, w) (counted self, w) tt) by reflexivity.
  rewrite (bind_run _ _ _ _ _ Hsched).
  rewrite (bind_run _ _ _ _ _ Hv).
  rewrite (bind_run _ _ _ _ _ Ht).
  rewrite (bind_run _ _ _ _ _ Hc).
  rewrite (bind_run _ _ _ _ _ Hf).
  rewrite (bind_run _ _ _ _ _ Hi).
  unfold with_flags. cbv zeta.
  destruct inject.
  - rewrite (bind_run (modify_self _) _ _ _ tt) by reflexivity.
    rewrite (bind_run get_self _ _ _ _) by reflexivity.
    unfold ret. reflexivity.
  - rewrite (bind_run (ret tt) _ _ _ tt) by reflexivity.
    rewrite (bind_run get_self _ _ _ _) by reflexivity.
    unfold ret. reflexivity.
Qed.

Lemma update_fault_schedule_cases (s : t * World) :
  (exists (e : exception) (s2 : t * World), _update_fault_schedule s = (Raise e, s2))
  \/ (exists s2 : t * World, _update_fault_schedule s = (Ok tt, s2)).
Proof.
  destruct (_update_fault_schedule s) as [[[] | e] s2].
  - right. exists s2. reflexivity.
  - left. exists e, s2. reflexivity.
Qed.

(** The two ways a call can go. *)
Lemma apply_measurement_split (true_voltages true_temps : list R) (true_current : R)
    (self : t) (w : World) :
  (exists (e : exception) (s2 : t * World),
      _update_fault_schedule (counted self, w) = (Raise e, s2)
      /\ apply_measurement true_voltages true_temps true_current (self, w) = (Raise e, s2))
  \/ (exists (s2 : t * World) (m : list R) (measured : t) (w3 w4 w5 w7 : World)
             (inject : bool),
        _update_fault_schedule (counted self, w) = (Ok tt, s2)
        /\ fold_left voltage_fault_step (seq 0 NUM_CELLS)
             (raw_voltages true_voltages s2, fst s2) = (m, measured)
        /\ w3 = snd (np_random_normal 0 (_voltage_noise_mv (fst s2)) NUM_CELLS (snd s2))
        /\ let voltages := map to_adc m in
           let temps := temperature_readings true_temps (measured, w3) in
           let current := current_reading true_current (measured, w4) in
           let flagged := put_status_flags (status_word measured voltages temps current)
                            measured in
           _should_inject_crc_error (flagged, w5) = (Ok inject, (flagged, w7))
           /\ apply_measurement true_voltages true_temps true_current (self, w)
              = (Ok (voltages, temps, current,
                     _status_flags (with_flags measured voltages temps current inject)),
                 (with_flags measured voltages temps current inject, w7))).
Proof.
  destruct (update_fault_schedule_cases (counted self, w)) as [(e & s2 & H) | (s2 & H)].
  - left. exists e, s2. split; [exact H | now apply apply_measurement_raises].
  - right.
    destruct (apply_measurement_run true_voltages true_temps true_current self w s2 H)
      as (m & measured & w3 & w4 & w5 & w7 & inject & Hfold & Hw3 & Hrest).
    exists s2, m, measured, w3, w4, w5, w7, inject.
    split; [exact H |]. split; [exact Hfold |]. split; [exact Hw3 | exact Hrest].
Qed.

Lemma fold_but_stuck (true_voltages : list R) (s2 : t * World) (m : list R) (measured : t) :
  fold_left voltage_fault_step (seq 0 NUM_CELLS) (raw_voltages true_voltages s2, fst s2)
  = (m, measured) ->
  but_stuck measured (fst s2).
Proof.
  intros H.
  destruct (voltage_fault_loop_facts (seq 0 NUM_CELLS) (raw_voltages true_voltages s2) (fst s2))
    as (Hs & _).
  rewrite H in Hs. exact Hs.
Qed.

(** What is blind to the whole of a measurement: an attribute that no
    write to a fault mask, to the schedule, to the stuck values, to the
    status flags or to the CRC error count changes. *)
Definition measurement_blind {X : Type} (f : t -> X) : Prop :=
  fault_blind f
  /\ (forall v a, f (put_stuck_adc_values v a) = f a)
  /\ (forall v a, f (put_status_flags v a) = f a)
  /\ (forall v a, f (put_crc_error_count v a) = f a).

Lemma with_flags_blind {X : Type} (f : t -> X) (measured : t) (voltages : list R)
    (temps : list Z) (current : R) (inject : bool) :
  (forall v a, f (put_status_flags v a) = f a) ->
  (forall v a, f (put_crc_error_count v a) = f a) ->
  f (with_flags measured voltages temps current inject) = f measured.
Proof.
  intros Hs Hc. unfold with_flags. cbv zeta.
  destruct inject; repeat (rewrite Hs || rewrite Hc); reflexivity.
Qed.

Lemma apply_measurement_blind {X : Type} (f : t -> X) (true_voltages true_temps : list R)
    (true_current : R) (self : t) (w : World) :
  measurement_blind f ->
  f (fst (snd (apply_measurement true_voltages true_temps true_current (self, w))))
  = f (counted self).
Proof.
  intros (Hfault & Hstuck & Hstatus & Hcrc).
  pose proof (keeps_update_fault_schedule f Hfault (counted self, w)) as Hk.
  destruct (apply_measurement_split true_voltages true_temps true_current self w)
    as [(e & s2 & Hsched & Hrun)
       | (s2 & m & measured & w3 & w4 & w5 & w7 & inject & Hsched & Hfold & _ & Hrest)].
  - rewrite Hrun. rewrite Hsched in Hk. exact Hk.
  - cbv zeta in Hrest. destruct Hrest as [_ Hrun]. rewrite Hrun. cbn [fst snd].
    rewrite (with_flags_blind f) by assumption.
    rewrite (fold_but_stuck _ _ _ _ Hfold), Hstuck.
    rewrite Hsched in Hk. exact Hk.
Qed.

Lemma should_inject_crc_error_off (self : t) (w : World) :
  _crc_error_rate self <= 0 -> _should_inject_crc_error (self, w) = (Ok false, (self, w)).
Proof.
  intros H. unfold _should_inject_crc_error.
  rewrite (bind_run get_self _ (self, w) (self, w) self) by reflexivity.
  destruct (Rle_dec (_crc_error_rate self) 0); [reflexivity | contradiction].
Qed.

Lemma crc_error_count_step (true_voltages true_temps : list R) (true_current : R)
    (self : t) (w : World) :
  let self' := fst (snd (apply_measurement true_voltages true_temps true_current
                           (self, w))) in
  (_crc_error_count self <= _crc_error_count self' <= _crc_error_count self + 1)%Z
  /\ (_crc_error_rate self <= 0 -> _crc_error_count self' = _crc_error_count self).
Proof.
  cbv zeta.
  pose proof (keeps_update_fault_schedule _crc_error_count crc_error_count_fault_blind
                (counted self, w)) as Hk.
  assert (Hrate_blind : fault_blind _crc_error_rate) by (repeat split).
  pose proof (keeps_update_fault_schedule _crc_error_rate Hrate_blind (counted self, w))
    as Hkr.
  destruct (apply_measurement_split true_voltages true_temps true_current self w)
    as [(e & s2 & Hsched & Hrun)
       | (s2 & m & measured & w3 & w4 & w5 & w7 & inject & Hsched & Hfold & _ & Hrest)].
  - rewrite Hrun. rewrite Hsched in Hk. cbn [fst snd] in *. rewrite Hk.
    change (_crc_error_count (counted self)) with (_crc_error_count self).
    split; [lia | reflexivity].
  - cbv zeta in Hrest. destruct Hrest as [Hinject Hrun]. rewrite Hrun. cbn [fst snd].
    rewrite Hsched in Hk, Hkr. cbn [fst snd] in Hk, Hkr.
    pose proof (fold_but_stuck _ _ _ _ Hfold) as Hb.
    assert (Hcount : _crc_error_count measured = _crc_error_count self)
      by (rewrite Hb; exact Hk).
    assert (Hrate : _crc_error_rate measured = _crc_error_rate self)
      by (rewrite Hb; exact Hkr).
    destruct (with_flags_attributes measured (map to_adc m)
                (temperature_readings true_temps (measured, w3))
                (current_reading true_current (measured, w4)) inject)
      as (_ & _ & _ & _ & _ & _ & Hn & _).
    rewrite Hn, Hcount.
    split; [destruct inject; lia |].
    intros Hoff.
    assert (Hfalse : inject = false).
    { rewrite should_inject_crc_error_off in Hinject by (cbn; rewrite Hrate; exact Hoff).
      exact (f_equal (fun r => match fst r with Ok b => b | Raise _ => false end)
               (eq_sym Hinject)). }
    rewrite Hfalse. lia.
Qed.


(** *** Statistics *)

Lemma measure_repeatedly_counts (calls : list (list R * list R * R)) (s : t * World) :
  let self' := fst (snd (AFEClaims.measure_repeatedly s calls)) in
  _measurement_count self' = (_measurement_count (fst s) + Z.of_nat (length calls))%Z
  /\ (_crc_error_count (fst s) <= _crc_error_count self'
      <= _crc_error_count (fst s) + Z.of_nat (length calls))%Z.
Proof.
  revert s. induction calls as [| [[tv tt] ti] rest IH]; intros [self w]; cbv zeta.
  - unfold AFEClaims.measure_repeatedly. cbn [AFEClaims.call_repeatedly fst snd length].
    split; lia.
  - unfold AFEClaims.measure_repeatedly in *. cbn [AFEClaims.call_repeatedly]. cbv zeta.
    cbn [fst snd].
    pose proof (apply_measurement_blind _measurement_count tv tt ti self w
                  ltac:(repeat split)) as Hcount.
    destruct (crc_error_count_step tv tt ti self w) as [Hcrc _].
    revert Hcount Hcrc.
    generalize (snd (apply_measurement tv tt ti (self, w))). intros s1 Hcount Hcrc.
    destruct (IH s1) as [IHcount IHcrc]. cbv zeta in IHcount, IHcrc.
    rewrite IHcount, Hcount.
    change (_measurement_count (counted self)) with (_measurement_count self + 1)%Z.
    cbn [length]. split; lia.
Qed.

(** X24: after any number of measurements from a wrapper whose CRC error count
    does not exceed its measurement count (as after construction or
    [reset]), [get_statistics] reports a count raised by the number of calls
    and an error rate between 0 and 1; with no measurement taken the
    divisor is 1. *)
Theorem crc_error_rate_in_unit_interval (calls : list (list R * list R * R))
    (s : t * World) :
  (0 <= _crc_error_count (fst s) <= _measurement_count (fst s))%Z ->
  let s' := snd (AFEClaims.measure_repeatedly s calls) in
  exists stats : statistics_dict,
    get_statistics s' = (Ok stats, s')
    /\ measurement_count stats
       = (_measurement_count (fst s) + Z.of_nat (length calls))%Z
    /\ (0 <= crc_error_count stats <= measurement_count stats)%Z
    /\ 0 <= crc_error_rate stats <= 1
    /\ (measurement_count stats = 0%Z -> crc_error_rate stats = 0).
Proof.
  intros Hinv. cbv zeta.
  destruct (measure_repeatedly_counts calls s) as [Hcount Hcrc]. cbv zeta in Hcount, Hcrc.
  revert Hcount Hcrc. generalize (snd (AFEClaims.measure_repeatedly s calls)).
  intros [self' w'] Hcount Hcrc. cbn [fst snd] in *.
  eexists. split; [reflexivity |].
  cbn [measurement_count crc_error_count crc_error_rate fst].
  split; [exact Hcount |].
  assert (Hle : (0 <= _crc_error_count self' <= _measurement_count self')%Z) by lia.
  split; [exact Hle |].
  assert (Hmax : (1 <= Z.max (_measurement_count self') 1)%Z) by lia.
  assert (Hcm : (_crc_error_count self' <= Z.max (_measurement_count self') 1)%Z) by lia.
  apply IZR_le in Hmax, Hcm.
  assert (H0 : 0 <= IZR (_crc_error_count self')) by (apply IZR_le; lia).
  set (d := IZR (Z.max (_measurement_count self') 1)) in *.
  set (c := IZR (_crc_error_count self')) in *.
  assert (Hinv' : 0 < / d) by (apply Rinv_0_lt_compat; lra).
  split.
  - unfold Rdiv. split; [apply Rmult_le_pos; lra |].
    apply (Rmult_le_reg_r d); [lra |].
    rewrite Rmult_assoc, Rinv_l by lra. lra.
  - intros Hzero. unfold c.
    assert (E : _crc_error_count self' = 0%Z) by lia.
    rewrite E. unfold Rdiv. lra.
Qed.

Lemma crc_error_rate_in_unit_interval_witness :
  let s' := snd (AFEClaims.measure_repeatedly (AFEClaims.quiet_afe, still_world)
                   (repeat (repeat 3200 16, repeat 25 16, 1000) 3)) in
  exists stats : statistics_dict,
    get_statistics s' = (Ok stats, s')
    /\ measurement_count stats = 3%Z
    /\ 0 <= crc_error_rate stats <= 1.
Proof.
  cbv zeta.
  destruct (crc_error_rate_in_unit_interval
              (repeat (repeat 3200 16, repeat 25 16, 1000) 3)
              (AFEClaims.quiet_afe, still_world))
    as (stats & Hget & Hcount & _ & Hrate & _).
  - cbn. lia.
  - exists stats. split; [exact Hget |]. split; [exact Hcount | exact Hrate].
Defined.

(** *** The ranges of the measured values *)

Lemma to_adc_count (x : R) :
  exists n : Z, (0 <= n <= 65535)%Z /\ to_adc x = IZR n * 0.1.
Proof.
  unfold to_adc, quantize, VOLTAGE_RESOLUTION_MV.
  set (k := round_half_even (x / 0.1)).
  destruct (Z_le_gt_dec k 0) as [Hlow | Hpos].
  - exists 0%Z. split; [lia |].
    apply IZR_le in Hlow. rewrite np_clip_below by lra. lra.
  - destruct (Z_le_gt_dec 65535 k) as [Hhigh | Hin].
    + exists 65535%Z. split; [lia |].
      apply IZR_le in Hhigh. unfold np_clip.
      rewrite Rmax_left by lra. rewrite Rmin_right by lra. lra.
    + exists k. split; [lia |].
      assert (H1 : 1 <= IZR k) by (apply IZR_le; lia).
      assert (H2 : IZR k <= 65534) by (apply IZR_le; lia).
      unfold np_clip. rewrite Rmax_left by lra. apply Rmin_left. lra.
Qed.

Lemma wrap_int16_range (z : Z) : (-32768 <= wrap_int16 z <= 32767)%Z.
Proof.
  unfold wrap_int16. pose proof (Z.mod_pos_bound (z + 32768) 65536 ltac:(lia)). lia.
Qed.

Lemma outcome_eq {A B C D : Type} (a a' : A) (b b' : B) (c c' : C) (d d' : D) :
  (a, b, c, d) = (a', b', c', d') -> a = a' /\ b = b' /\ c = c' /\ d = d'.
Proof. intros H. injection H as -> -> -> ->. repeat split. Qed.

(** X25: every call of [apply_measurement] that returns gives voltages that are
    whole numbers of 0.1 mV steps with a count in 0..65535 (so within
    0..6553.5 mV), temperatures within the int16 range, and a current that
    is a whole number of mA. *)
Theorem measured_values_in_range (true_voltages true_temps : list R) (true_current : R)
    (s s' : t * World) (voltages : list R) (temps : list Z) (current : R) (status : Z) :
  apply_measurement true_voltages true_temps true_current s
  = (Ok (voltages, temps, current, status), s') ->
  Forall (fun v => exists n : Z, (0 <= n <= 65535)%Z /\ v = IZR n * 0.1) voltages
  /\ Forall (fun v => 0 <= v <= 6553.5) voltages
  /\ Forall (fun c => (-32768 <= c <= 32767)%Z) temps
  /\ (exists n : Z, current = IZR n).
Proof.
  intros H. destruct s as [self w].
  destruct (apply_measurement_split true_voltages true_temps true_current self w)
    as [(e & s2 & _ & Hrun)
       | (s2 & m & measured & w3 & w4 & w5 & w7 & inject & _ & _ & _ & Hrest)].
  - rewrite Hrun in H. discriminate.
  - cbv zeta in Hrest. destruct Hrest as [_ Hrun].
    destruct (run_eq _ _ _ _ _ _ H Hrun) as [Hout _].
    apply outcome_eq in Hout. destruct Hout as (-> & -> & -> & _).
    split; [| split; [| split]].
    + apply Forall_forall. intros v Hin. apply in_map_iff in Hin.
      destruct Hin as (x & <- & _). apply to_adc_count.
    + apply Forall_forall. intros v Hin. apply in_map_iff in Hin.
      destruct Hin as (x & <- & _). unfold to_adc. apply np_clip_bounds. lra.
    + apply Forall_forall. intros c Hin. unfold temperature_readings in Hin.
      apply in_map_iff in Hin. destruct Hin as (x & <- & _).
      unfold to_centi, astype_int16. apply wrap_int16_range.
    + unfold current_reading, quantize, CURRENT_RESOLUTION_MA.
      eexists. apply Rmult_1_r.
Qed.

Lemma measured_values_in_range_witness :
  exists (voltages : list R) (temps : list Z) (current : R) (status : Z) (s' : t * World),
    apply_measurement (repeat 3200 16) (repeat 25 16) 1000 (AFEClaims.quiet_afe, still_world)
    = (Ok (voltages, temps, current, status), s')
    /\ Forall (fun v => 0 <= v <= 6553.5) voltages.
Proof.
  destruct (apply_measurement_idle (repeat 3200 16) (repeat 25 16) 1000
              AFEClaims.quiet_afe still_world eq_refl)
    as (mv & mt & mi & status & s' & measured & w3 & w4 & inject & Hrun & _).
  exists mv, mt, mi, status, s'. split; [exact Hrun |].
  apply (measured_values_in_range _ _ _ _ _ _ _ _ _ Hrun).
Defined.

(** *** The stuck-ADC fault *)











(** *** The fault schedule *)

Lemma get_current_time_ms_ext (a b : t) (w w' : World) (now : R) :
  _start_time_ms a = _start_time_ms b ->
  _get_current_time_ms (a, w) = (Ok now, (a, w')) ->
  _get_current_time_ms (b, w) = (Ok now, (b, w')).
Proof.
  intros Hstart. unfold _get_current_time_ms.
  rewrite (bind_run get_self _ (a, w) (a, w) a) by reflexivity.
  rewrite (bind_run get_self _ (b, w) (b, w) b) by reflexivity.
  rewrite <- Hstart. destruct (_start_time_ms a) as [start |].
  - unfold bind, in_world, ret. cbn [fst snd]. destruct (time_ms w) as [clock w1].
    intros E. injection E as -> ->. reflexivity.
  - unfold ret. intros E. injection E as -> ->. reflexivity.
Qed.

Lemma get_current_time_ms_unstarted (self : t) (w w' : World) (now : R) :
  _start_time_ms self = None ->
  _get_current_time_ms (self, w) = (Ok now, (self, w')) ->
  now = 0 /\ w' = w.
Proof.
  intros Hstart. unfold _get_current_time_ms.
  rewrite (bind_run get_self _ (self, w) (self, w) self) by reflexivity.
  rewrite Hstart. unfold ret. intros E. injection E as <- <-. split; reflexivity.
Qed.

(** [_update_fault_schedule] on a schedule of one event. *)
Lemma update_fault_schedule_single (self : t) (w w' : World) (now : R) (ev : FaultEvent) :
  _fault_schedule self = [ev] ->
  _get_current_time_ms (self, w) = (Ok now, (self, w')) ->
  (forall (e : exception) (s3 : t * World),
      visit_event now 0 ev [] (self, w') = (Raise e, s3) ->
      _update_fault_schedule (self, w) = (Raise e, s3))
  /\ (forall (remaining : list FaultEvent) (s3 : t * World),
        visit_event now 0 ev [] (self, w') = (Ok remaining, s3) ->
        length (_fault_schedule (fst s3)) = 1%nat ->
        _update_fault_schedule (self, w)
        = (Ok tt, (put_fault_schedule remaining (fst s3), snd s3))).
Proof.
  intros Hs Hnow. split.
  - intros e s3 Hvisit. unfold _update_fault_schedule.
    rewrite (bind_run _ _ _ _ _ Hnow).
    rewrite (bind_run get_self _ (self, w') (self, w') self) by reflexivity.
    rewrite Hs. cbn [visit_events].
    unfold bind at 1 2. rewrite Hvisit. reflexivity.
  - intros remaining [self3 w3] Hvisit Hlen. unfold _update_fault_schedule.
    rewrite (bind_run _ _ _ _ _ Hnow).
    rewrite (bind_run get_self _ (self, w') (self, w') self) by reflexivity.
    rewrite Hs. cbn [visit_events].
    rewrite (bind_run (bind (visit_event now 0 ev []) _) _ (self, w') (self3, w3) remaining)
      by (rewrite (bind_run _ _ _ _ _ Hvisit); reflexivity).
    rewrite (bind_run get_self _ (self3, w3) (self3, w3) self3) by reflexivity.
    cbn [fst snd length] in *.
    destruct (_fault_schedule self3) as [| ev3 [| ? ?]]; try discriminate.
    cbn [skipn visit_events].
    rewrite (bind_run (ret remaining) _ (self3, w3) (self3, w3) remaining) by reflexivity.
    reflexivity.
Qed.

(** The wrapper after [inject_fault] with a mask and no duration (the call
    does not touch the world, so any world serves to run it). *)
Definition with_fault (fault_type : FaultType) (cell_mask : Z) (self : t) : t :=
  fst (snd (inject_fault (Enum fault_type) (Some cell_mask) None (self, still_world))).

Lemma inject_fault_run (fault_type : FaultType) (cell_mask : Z) (s : t * World) :
  inject_fault (Enum fault_type) (Some cell_mask) None s
  = (Ok tt, (with_fault fault_type cell_mask (fst s), snd s)).
Proof. destruct s as [self w]. destruct fault_type; reflexivity. Qed.

Lemma with_fault_schedule (fault_type : FaultType) (cell_mask : Z) (self : t)
    (schedule : list FaultEvent) :
  put_fault_schedule schedule (with_fault fault_type cell_mask self)
  = with_fault fault_type cell_mask (put_fault_schedule schedule self).
Proof. destruct fault_type; reflexivity. Qed.

Lemma put_fault_schedule_same (self : t) :
  put_fault_schedule (_fault_schedule self) self = self.
Proof. destruct self. reflexivity. Qed.

Lemma put_fault_schedule_twice (a b : list FaultEvent) (self : t) :
  put_fault_schedule a (put_fault_schedule b self) = put_fault_schedule a self.
Proof. reflexivity. Qed.

(** X27: a fault scheduled with a mask and no duration, as the only entry: the
    next schedule update injects it and drops the entry once the current
    time has reached the injection time, and changes nothing before.  The
    current time is 0 as long as the simulation has not been started. *)
Theorem scheduled_fault_fires (fault_type : FaultType) (cell_mask : Z) (inject_time_ms : R)
    (self : t) (w w' : World) (now : R) :
  _fault_schedule self = [] ->
  _get_current_time_ms (self, w) = (Ok now, (self, w')) ->
  let scheduled :=
    fst (snd (schedule_fault (Enum fault_type) inject_time_ms (Some cell_mask) None
                (self, w))) in
  (inject_time_ms <= now ->
   _update_fault_schedule (scheduled, w)
   = (Ok tt,
      (fst (snd (inject_fault (Enum fault_type) (Some cell_mask) None (self, w))), w')))
  /\ (now < inject_time_ms -> _update_fault_schedule (scheduled, w) = (Ok tt, (scheduled, w')))
  /\ (_start_time_ms self = None -> now = 0 /\ w' = w).
Proof.
  intros Hs Hnow. cbv zeta.
  set (ev := mk_event (Enum fault_type) (Some cell_mask) (Some inject_time_ms) None
               (Some false) None).
  assert (Hsched : fst (snd (schedule_fault (Enum fault_type) inject_time_ms (Some cell_mask)
                               None (self, w)))
                   = put_fault_schedule [ev] self).
  { unfold schedule_fault, modify_self. cbn [fst snd]. rewrite Hs. reflexivity. }
  rewrite Hsched.
  set (scheduled := put_fault_schedule [ev] self).
  assert (Hnow' : _get_current_time_ms (scheduled, w) = (Ok now, (scheduled, w')))
    by (apply (get_current_time_ms_ext self); [reflexivity | exact Hnow]).
  destruct (update_fault_schedule_single scheduled w w' now ev eq_refl Hnow')
    as [_ Hok].
  split; [| split].
  - intros Hdue. rewrite inject_fault_run. cbn [fst snd].
    rewrite (Hok [] (put_fault_schedule
                       [mk_event (Enum fault_type) (Some cell_mask) (Some inject_time_ms)
                          None (Some true) None]
                       (with_fault fault_type cell_mask scheduled), w')).
    + cbn [fst snd]. rewrite put_fault_schedule_twice, with_fault_schedule.
      unfold scheduled. rewrite put_fault_schedule_twice, <- Hs, put_fault_schedule_same.
      reflexivity.
    + unfold visit_event. cbn [ev ev_inject_time_ms ev_injected negb].
      destruct (Rge_dec now inject_time_ms) as [_ | Hn]; [| exfalso; lra].
      cbn [ev_fault_type ev_cell_mask ev_duration_ms ev_clear_time_ms].
      rewrite (bind_run _ _ _ _ _ (inject_fault_run fault_type cell_mask (scheduled, w'))).
      cbn [fst snd].
      rewrite (bind_run (modify_self _) _ (with_fault fault_type cell_mask scheduled, w')
                 (put_fault_schedule
                    (set_item (_fault_schedule (with_fault fault_type cell_mask scheduled)) 0
                       (mk_event (Enum fault_type) (Some cell_mask) (Some inject_time_ms)
                          None (Some true) None))
                    (with_fault fault_type cell_mask scheduled), w') tt) by reflexivity.
      destruct fault_type; reflexivity.
    + destruct fault_type; reflexivity.
  - intros Hearly.
    rewrite (Hok [ev] (scheduled, w')).
    + cbn [fst snd]. unfold scheduled. rewrite put_fault_schedule_twice. reflexivity.
    + unfold visit_event. cbn [ev ev_inject_time_ms ev_injected negb].
      destruct (Rge_dec now inject_time_ms) as [Hn | _]; [exfalso; lra |].
      reflexivity.
    + reflexivity.
  - intros Hstart. exact (get_current_time_ms_unstarted self w w' now Hstart Hnow).
Qed.

Lemma scheduled_fault_fires_witness :
  _update_fault_schedule
    (fst (snd (schedule_fault (Enum OPEN_WIRE) 1000 (Some 32%Z) None
                 (AFEClaims.quiet_afe, still_world))), still_world)
  = (Ok tt,
     (fst (snd (schedule_fault (Enum OPEN_WIRE) 1000 (Some 32%Z) None
                  (AFEClaims.quiet_afe, still_world))), still_world)).
Proof.
  apply (scheduled_fault_fires OPEN_WIRE 32 1000 AFEClaims.quiet_afe still_world still_world 0).
  - reflexivity.
  - reflexivity.
  - lra.
Defined.

(** X28: [schedule_fault] checks nothing: a per-cell fault scheduled without a
    mask is accepted, and the error comes when the entry is due.  With the
    simulation not started and an injection time that is not positive,
    every later [apply_measurement] raises a [ValueError], counts the call,
    and leaves the entry in the schedule. *)
Theorem unmasked_schedule_raises (fault_type : FaultType) (inject_time_ms : R)
    (duration_ms : option R) (self : t) (w : World) (calls : list (list R * list R * R)) :
  fault_type <> CURRENT_SENSOR_FAULT ->
  fault_type <> CRC_ERROR ->
  _fault_schedule self = [] ->
  _start_time_ms self = None ->
  inject_time_ms <= 0 ->
  let scheduled :=
    snd (schedule_fault (Enum fault_type) inject_time_ms None duration_ms (self, w)) in
  let final := snd (AFEClaims.measure_repeatedly scheduled calls) in
  fst (schedule_fault (Enum fault_type) inject_time_ms None duration_ms (self, w)) = Ok tt
  /\ Forall (fun outcome => exists msg : string, outcome = Raise (ValueError msg))
       (fst (AFEClaims.measure_repeatedly scheduled calls))
  /\ _fault_schedule (fst final) = _fault_schedule (fst scheduled)
  /\ _measurement_count (fst final)
     = (_measurement_count self + Z.of_nat (length calls))%Z
  /\ snd final = w.
Proof.
  intros Hcsf Hcrc Hs Hstart Hdue. cbv zeta.
  split; [reflexivity |].
  set (ev := mk_event (Enum fault_type) None (Some inject_time_ms) duration_ms
               (Some false) None).
  assert (Hsched : snd (schedule_fault (Enum fault_type) inject_time_ms None duration_ms
                          (self, w))
                   = (put_fault_schedule [ev] self, w)).
  { unfold schedule_fault, modify_self. cbn [fst snd]. rewrite Hs. reflexivity. }
  rewrite Hsched. cbn [fst].
  assert (Hstep : forall (a : t) (tv tt : list R) (ti : R),
             _fault_schedule a = [ev] -> _start_time_ms a = None ->
             exists msg : string,
               apply_measurement tv tt ti (a, w) = (Raise (ValueError msg), (counted a, w))).
  { intros a tv tt ti Ha Hna.
    assert (Hnow : _get_current_time_ms (counted a, w) = (Ok 0, (counted a, w))).
    { unfold _get_current_time_ms.
      rewrite (bind_run get_self _ (counted a, w) (counted a, w) (counted a))
        by reflexivity.
      change (_start_time_ms (counted a)) with (_start_time_ms a). rewrite Hna.
      reflexivity. }
    destruct (update_fault_schedule_single (counted a) w w 0 ev Ha Hnow) as [Hraise _].
    assert (Hvisit : exists msg : string,
               visit_event 0 0 ev [] (counted a, w)
               = (Raise (ValueError msg), (counted a, w))).
    { unfold visit_event. cbn [ev ev_inject_time_ms ev_injected negb].
      destruct (Rge_dec 0 inject_time_ms) as [_ | Hn]; [| exfalso; lra].
      cbn [ev_fault_type ev_cell_mask ev_duration_ms].
      destruct fault_type; try congruence; eexists; reflexivity. }
    destruct Hvisit as [msg Hvisit]. exists msg.
    apply apply_measurement_raises. apply Hraise. exact Hvisit. }
  assert (Hloop : forall (calls : list (list R * list R * R)) (a : t),
             _fault_schedule a = [ev] -> _start_time_ms a = None ->
             Forall (fun outcome => exists msg : string, outcome = Raise (ValueError msg))
               (fst (AFEClaims.measure_repeatedly (a, w) calls))
             /\ _fault_schedule (fst (snd (AFEClaims.measure_repeatedly (a, w) calls)))
                = [ev]
             /\ _measurement_count (fst (snd (AFEClaims.measure_repeatedly (a, w) calls)))
                = (_measurement_count a + Z.of_nat (length calls))%Z
             /\ snd (snd (AFEClaims.measure_repeatedly (a, w) calls)) = w).
  { clear calls. intros calls. induction calls as [| [[tv tt] ti] rest IH]; intros a Ha Hna.
    - unfold AFEClaims.measure_repeatedly. cbn [AFEClaims.call_repeatedly fst snd length].
      repeat split; [constructor | exact Ha | lia].
    - destruct (Hstep a tv tt ti Ha Hna) as [msg Hrun].
      unfold AFEClaims.measure_repeatedly in *. cbn [AFEClaims.call_repeatedly]. cbv zeta.
      cbn [fst snd]. rewrite Hrun. cbn [fst snd].
      destruct (IH (counted a) Ha Hna) as (Hall & Hsame & Hcount & Hw).
      split; [constructor; [exists msg; reflexivity | exact Hall] |].
      split; [exact Hsame |].
      split; [| exact Hw].
      rewrite Hcount. change (_measurement_count (counted a)) with (_measurement_count a + 1)%Z.
      cbn [length]. lia. }
  destruct (Hloop calls (put_fault_schedule [ev] self) eq_refl Hstart)
    as (Hall & Hsame & Hcount & Hw).
  split; [exact Hall |]. split; [exact Hsame |]. split; [exact Hcount | exact Hw].
Qed.

Lemma unmasked_schedule_raises_witness :
  Forall (fun outcome => exists msg : string, outcome = Raise (ValueError msg))
    (fst (AFEClaims.measure_repeatedly
            (snd (schedule_fault (Enum OPEN_WIRE) 0 None None
                    (AFEClaims.quiet_afe, still_world)))
            (repeat (repeat 3200 16, repeat 25 16, 1000) 3))).
Proof.
  apply (unmasked_schedule_raises OPEN_WIRE 0 None AFEClaims.quiet_afe still_world
           (repeat (repeat 3200 16, repeat 25 16, 1000) 3)).
  - discriminate.
  - discriminate.
  - reflexivity.
  - reflexivity.
  - lra.
Defined.

(** X29: a fault injected with a mask and a duration leaves one entry in an
    empty schedule, due at the time of injection plus the duration.  A
    schedule update at or after that time clears the bits of the mask (for
    the current-sensor fault, the flag) and empties the schedule; an earlier
    one changes nothing. *)
Theorem timed_fault_expires (fault_type : FaultType) (cell_mask : Z) (duration_ms : R)
    (self : t) (w w0 : World) (now0 : R) :
  _fault_schedule self = [] ->
  _get_current_time_ms (self, w) = (Ok now0, (self, w0)) ->
  let injected :=
    fst (snd (inject_fault (Enum fault_type) (Some cell_mask) (Some duration_ms)
                (self, w))) in
  inject_fault (Enum fault_type) (Some cell_mask) (Some duration_ms) (self, w)
  = (Ok tt, (injected, w0))
  /\ _fault_schedule injected
     = [mk_event (Enum fault_type) (Some cell_mask) None None None
          (Some (now0 + duration_ms))]
  /\ forall (later later' : World) (now1 : R),
       _get_current_time_ms (injected, later) = (Ok now1, (injected, later')) ->
       (now0 + duration_ms <= now1 ->
        exists expired : t,
          _update_fault_schedule (injected, later) = (Ok tt, (expired, later'))
          /\ _fault_schedule expired = []
          /\ Z.land (fault_mask fault_type expired) cell_mask = 0%Z
          /\ (fault_type = CURRENT_SENSOR_FAULT -> _current_sensor_fault expired = false))
       /\ (now1 < now0 + duration_ms ->
           _update_fault_schedule (injected, later) = (Ok tt, (injected, later'))).
Proof.
  intros Hs Hnow. cbv zeta.
  set (ev := mk_event (Enum fault_type) (Some cell_mask) None None None
               (Some (now0 + duration_ms))).
  set (faulted := with_fault fault_type cell_mask self).
  assert (Hnowf : _get_current_time_ms (faulted, w) = (Ok now0, (faulted, w0))).
  { apply (get_current_time_ms_ext self); [| exact Hnow].
    unfold faulted. destruct fault_type; reflexivity. }
  assert (Hfs : _fault_schedule faulted = [])
    by (unfold faulted; destruct fault_type; exact Hs).
  assert (Hrun : inject_fault (Enum fault_type) (Some cell_mask) (Some duration_ms) (self, w)
                 = (Ok tt, (put_fault_schedule [ev] faulted, w0))).
  { unfold inject_fault.
    rewrite (bind_run (coerce_fault_type (Enum fault_type)) _ (self, w) (self, w) fault_type)
      by reflexivity.
    match goal with
    | |- bind ?c _ _ = _ =>
        rewrite (bind_run c _ (self, w) (faulted, w) tt)
          by (unfold faulted; destruct fault_type; reflexivity)
    end.
    rewrite (bind_run _ _ _ _ _ Hnowf).
    unfold modify_self. cbn [fst snd]. rewrite Hfs. reflexivity. }
  rewrite Hrun. cbn [fst snd].
  split; [reflexivity |]. split; [reflexivity |].
  intros later later' now1 Hlater.
  set (injected := put_fault_schedule [ev] faulted) in *.
  destruct (update_fault_schedule_single injected later later' now1 ev eq_refl Hlater)
    as [_ Hok].
  split.
  - intros Hdue.
    set (expired := fst (snd (clear_fault (Enum fault_type) (Some cell_mask)
                                (injected, later')))).
    assert (Hclear : clear_fault (Enum fault_type) (Some cell_mask) (injected, later')
                     = (Ok tt, (expired, later')))
      by (unfold expired; destruct fault_type; reflexivity).
    exists (put_fault_schedule [] expired).
    split; [| split; [reflexivity | split]].
    + rewrite (Hok [] (expired, later')); [reflexivity | | ].
      * unfold visit_event. cbn [ev ev_inject_time_ms ev_clear_time_ms].
        destruct (Rge_dec now1 (now0 + duration_ms)) as [_ | Hn]; [| exfalso; lra].
        cbn [ev_fault_type ev_cell_mask].
        rewrite (bind_run _ _ _ _ _ Hclear). reflexivity.
      * unfold expired. destruct fault_type; reflexivity.
    + unfold expired, injected, faulted.
      destruct fault_type;
        cbn [fault_mask clear_fault fst snd _open_wire_mask _stuck_adc_mask _ntc_fault_mask
             put_fault_schedule put_open_wire_mask put_stuck_adc_mask put_ntc_fault_mask];
        try apply mask_clear_after_set; reflexivity.
    + intros ->. reflexivity.
  - intros Hearly.
    rewrite (Hok [ev] (injected, later')).
    + cbn [fst snd]. unfold injected. rewrite put_fault_schedule_twice. reflexivity.
    + unfold visit_event. cbn [ev ev_inject_time_ms ev_clear_time_ms].
      destruct (Rge_dec now1 (now0 + duration_ms)) as [Hn | _]; [exfalso; lra |].
      reflexivity.
    + reflexivity.
Qed.

Lemma timed_fault_expires_witness :
  _fault_schedule
    (fst (snd (inject_fault (Enum NTC_OPEN) (Some 256%Z) (Some 5000)
                 (AFEClaims.quiet_afe, still_world))))
  = [mk_event (Enum NTC_OPEN) (Some 256%Z) None None None (Some (0 + 5000))].
Proof.
  apply (timed_fault_expires NTC_OPEN 256 5000 AFEClaims.quiet_afe still_world still_world 0).
  - reflexivity.
  - reflexivity.
Defined.

End AFEExtras.
